(** * read.py: readers of the scenario input tables

    A shallow embedding of [Code/read.py] and the statements made about it.

    The module reads comma separated tables through the pandas library and
    reshapes them lightly.  The embedding has three layers:

    - [Py]: the fragment of Python the module relies on (exceptions, the
      string methods [endswith], [rstrip] and [split], fixed width integers);
    - [Pandas]: an executable model of the data frame operations the module
      calls, positional (the frames of this module keep the default range
      index while they are aligned);
    - the functions of [read.py] themselves, written in a state and
      exception monad whose state records the files read and the field
      manager, over a configuration that stands for the modules [paths] and
      [parameters] and for the file system. *)

From Stdlib Require Import ZArith String Ascii List Bool Lia Floats DecimalString.
Import ListNotations.

Local Open Scope string_scope.
Local Open Scope list_scope.

(* ===================================================================== *)
(** * Python fragment                                                     *)
(* ===================================================================== *)

Module Py.

(** Exceptions raised by the module or by the libraries it calls.  All
    but [KeyboardInterrupt] and [SystemExit] derive from [Exception]. *)
Inductive exn : Type :=
| KeyError (key : string)
| NameError (name : string)
| ValueError (msg : string)
| TypeError (msg : string)
| AttributeError (attr : string)
| FileNotFoundError (path : string)
| ParserError (path : string)
| FutureWarning (msg : string)
| KeyboardInterrupt
| SystemExit.

Definition is_Exception (e : exn) : bool :=
  match e with
  | KeyboardInterrupt | SystemExit => false
  | _ => true
  end.

(** Outcome of a computation: a value, or a raised exception. *)
Inductive Result (A : Type) : Type :=
| Ok (a : A)
| Raise (e : exn).
Arguments Ok {A} a.
Arguments Raise {A} e.

Definition rbind {A B : Type} (r : Result A) (k : A -> Result B) : Result B :=
  match r with
  | Ok a => k a
  | Raise e => Raise e
  end.

Fixpoint rmap {A B : Type} (f : A -> Result B) (l : list A) : Result (list B) :=
  match l with
  | [] => Ok []
  | x :: l' =>
      rbind (f x) (fun y => rbind (rmap f l') (fun ys => Ok (y :: ys)))
  end.

(** [for x in l: s = body(x, s)] for a body without effects other than
    exceptions. *)
Fixpoint rfor {A S : Type} (l : list A) (body : A -> S -> Result S) (s : S)
  : Result S :=
  match l with
  | [] => Ok s
  | x :: l' => rbind (body x s) (rfor l' body)
  end.

(** [str(x)] for an optional string: [None] prints as the text None. *)
Definition py_str (x : option string) : string :=
  match x with
  | Some s => s
  | None => "None"
  end.

(** [s.endswith(suf)]. *)
Fixpoint endswith (s suf : string) : bool :=
  if String.eqb s suf then true
  else match s with
       | EmptyString => false
       | String _ s' => endswith s' suf
       end.

Fixpoint in_chars (a : ascii) (chars : string) : bool :=
  match chars with
  | EmptyString => false
  | String c chars' => Ascii.eqb a c || in_chars a chars'
  end.

(** [s.rstrip(chars)]: drops the longest suffix of [s] made of characters
    of the set [chars] (a set of characters, not a suffix). *)
Fixpoint rstrip (chars s : string) : string :=
  match s with
  | EmptyString => EmptyString
  | String a s' =>
      match rstrip chars s' with
      | EmptyString => if in_chars a chars then EmptyString else String a EmptyString
      | r => String a r
      end
  end.

(** [s.split(sep)] for a one character separator. *)
Fixpoint split (sep : ascii) (s : string) : list string :=
  match s with
  | EmptyString => [EmptyString]
  | String c s' =>
      if Ascii.eqb c sep then EmptyString :: split sep s'
      else match split sep s' with
           | [] => [String c EmptyString]
           | p :: ps => String c p :: ps
           end
  end.

(** Fixed width integers of numpy: values wrap around. *)
Definition wrap_unsigned (bits z : Z) : Z := z mod 2 ^ bits.
Definition wrap_signed (bits z : Z) : Z :=
  (z + 2 ^ (bits - 1)) mod 2 ^ bits - 2 ^ (bits - 1).

Definition uint32 (z : Z) : Z := wrap_unsigned 32 z.
Definition int16 (z : Z) : Z := wrap_signed 16 z.
Definition int32 (z : Z) : Z := wrap_signed 32 z.
Definition int64 (z : Z) : Z := wrap_signed 64 z.

(** The float64 nearest to an integer, ties to the even one, as numpy
    converts integer cells. *)
Definition Z2float (z : Z) : float :=
  SF2Prim (SpecFloat.binary_normalize 53%Z 1024%Z z 0%Z false).

(** Truncation of a finite float64 towards zero. *)
Definition float_trunc (f : float) : option Z :=
  match Prim2SF f with
  | S754_zero _ => Some 0%Z
  | S754_finite s m e =>
      let a := if (0 <=? e)%Z then (Z.pos m * 2 ^ e)%Z
               else (Z.pos m / 2 ^ (- e))%Z in
      Some (if s then (- a)%Z else a)
  | S754_infinity _ | S754_nan => None
  end.

End Py.
Import Py.

Declare Scope result_scope.
Delimit Scope result_scope with result.
Notation "x <~ c ;; k" := (rbind c (fun x => k))
  (at level 61, c at next level, right associativity) : result_scope.

(* ===================================================================== *)
(** * Data frames                                                         *)
(* ===================================================================== *)

Module Pandas.

Local Open Scope result_scope.

(** A cell.  Cells carry the type the parser inferred for their column:
    text appears only in columns the parser could not read as numbers.
    A missing cell is the float NaN, as pandas stores it ([VNone] is the
    [None] that [str.split] pads short rows with). *)
Inductive value : Type :=
| VInt (z : Z)
| VFloat (f : float)
| VStr (s : string)
| VBool (b : bool)
| VNone.

Definition NaN : value := VFloat PrimFloat.nan.

Definition isna (v : value) : bool :=
  match v with
  | VFloat f => PrimFloat.is_nan f
  | VNone => true
  | _ => false
  end.

Definition notna (v : value) : bool := negb (isna v).

Definition is_str (v : value) : bool :=
  match v with VStr _ => true | _ => false end.

(** The number a cell holds, as numpy sees it in float arithmetic. *)
Definition to_float (v : value) : option float :=
  match v with
  | VInt z => Some (Z2float z)
  | VFloat f => Some f
  | VBool b => Some (if b then PrimFloat.one else PrimFloat.zero)
  | VStr _ | VNone => None
  end.

Inductive dtype : Type :=
| UInt32 | Int16 | Int32 | Int64 | Float64 | BoolT
| DOther (name : string).

Definition cast_int (wrap : Z -> Z) (v : value) : Result value :=
  match v with
  | VInt z => Ok (VInt (wrap z))
  | VBool b => Ok (VInt (if b then 1 else 0))
  | VFloat f =>
      match float_trunc f with
      | Some z => Ok (VInt (wrap z))
      | None => Raise (ValueError "Cannot convert non-finite values (NA or inf) to integer")
      end
  | VStr _ => Raise (ValueError "invalid literal for int()")
  | VNone => Raise (TypeError "int() argument must be a string or a number")
  end.

(** [astype] on one cell.  A dtype the model does not interpret leaves
    the cell as it is. *)
Definition cast (d : dtype) (v : value) : Result value :=
  match d with
  | UInt32 => cast_int uint32 v
  | Int16 => cast_int int16 v
  | Int32 => cast_int int32 v
  | Int64 => cast_int int64 v
  | Float64 =>
      match v with
      | VStr _ => Raise (ValueError "could not convert string to float")
      | VNone => Ok NaN
      | _ => match to_float v with Some f => Ok (VFloat f) | None => Ok NaN end
      end
  | BoolT =>
      Ok (VBool match v with
                | VInt z => negb (z =? 0)%Z
                | VFloat f => negb (PrimFloat.eqb f PrimFloat.zero)
                | VStr s => negb (String.eqb s EmptyString)
                | VBool b => b
                | VNone => false
                end)
  | DOther _ => Ok v
  end.

Definition Series : Type := list value.

Definition astype (d : dtype) (s : Series) : Result Series := rmap (cast d) s.

(** A frame: the length of its index and its columns in order.  A frame
    is well formed when every column has the length of the index. *)
Record DataFrame : Type := mkDF {
  nrows : nat;
  columns : list (string * Series)
}.

Definition names (df : DataFrame) : list string := map fst (columns df).

Definition well_formed (df : DataFrame) : bool :=
  forallb (fun p => Nat.eqb (length (snd p)) (nrows df)) (columns df).

Definition has_name (c : string) (l : list string) : bool :=
  existsb (String.eqb c) l.

Fixpoint lookup (c : string) (cols : list (string * Series)) : option Series :=
  match cols with
  | [] => None
  | (c', s) :: cols' => if String.eqb c c' then Some s else lookup c cols'
  end.

(** [df[c]]. *)
Definition getitem (df : DataFrame) (c : string) : Result Series :=
  match lookup c (columns df) with
  | Some s => Ok s
  | None => Raise (KeyError c)
  end.

(** [df.c]: attribute access to a column. *)
Definition getattr (df : DataFrame) (c : string) : Result Series :=
  match lookup c (columns df) with
  | Some s => Ok s
  | None => Raise (AttributeError c)
  end.

Fixpoint replace_col (c : string) (s : Series) (cols : list (string * Series))
  : list (string * Series) :=
  match cols with
  | [] => []
  | (c', s') :: cols' =>
      (if String.eqb c c' then (c', s) else (c', s')) :: replace_col c s cols'
  end.

(** [df[c] = s] for a series on the index of [df]: an existing column is
    overwritten in place, a new one is appended. *)
Definition setitem (df : DataFrame) (c : string) (s : Series) : DataFrame :=
  mkDF (nrows df)
       (if has_name c (names df) then replace_col c s (columns df)
        else columns df ++ [(c, s)]).

(** [df[c] = v] for a scalar: broadcast over the index. *)
Definition setitem_scalar (df : DataFrame) (c : string) (v : value) : DataFrame :=
  setitem df c (repeat v (nrows df)).

Fixpoint remove_col (c : string) (cols : list (string * Series))
  : list (string * Series) :=
  match cols with
  | [] => []
  | (c', s') :: cols' =>
      if String.eqb c c' then cols' else (c', s') :: remove_col c cols'
  end.

(** [df.pop(c)]: the column, and the frame without it. *)
Definition pop (df : DataFrame) (c : string) : Result (Series * DataFrame) :=
  s <~ getitem df c ;;
  Ok (s, mkDF (nrows df) (remove_col c (columns df))).

(** [df[cols]]: the listed columns, in the order of the list. *)
Definition select (df : DataFrame) (cols : list string) : Result DataFrame :=
  cs <~ rmap (fun c => s <~ getitem df c ;; Ok (c, s)) cols ;;
  Ok (mkDF (nrows df) cs).

(** [df.columns = new]. *)
Definition set_columns (n : nat) (cols : list Series) (new : list string)
  : Result DataFrame :=
  if Nat.eqb (length new) (length cols) then Ok (mkDF n (combine new cols))
  else Raise (ValueError "Length mismatch").

(** [df.rename(columns=m)] for a mapping [m]. *)
Definition rename (df : DataFrame) (m : string -> option string) : DataFrame :=
  mkDF (nrows df)
       (map (fun p => (match m (fst p) with Some c' => c' | None => fst p end, snd p))
            (columns df)).

(** Names in order of first appearance. *)
Definition add_names (acc l : list string) : list string :=
  fold_left (fun acc c => if has_name c acc then acc else acc ++ [c]) l acc.

Definition union_names (dfs : list DataFrame) : list string :=
  fold_left (fun acc df => add_names acc (names df)) dfs [].

Definition column_or_nan (c : string) (df : DataFrame) : Series :=
  match lookup c (columns df) with
  | Some s => s
  | None => repeat NaN (nrows df)
  end.

(** [pd.concat(dfs, axis=0)]: the rows of the frames one after the other,
    over the union of their columns; a frame that lacks a column
    contributes missing values. *)
Definition concat_rows (dfs : list DataFrame) : DataFrame :=
  mkDF (list_sum (map nrows dfs))
       (map (fun c => (c, flat_map (column_or_nan c) dfs)) (union_names dfs)).

Definition pd_concat (dfs : list DataFrame) : Result DataFrame :=
  match dfs with
  | [] => Raise (ValueError "No objects to concatenate")
  | _ => Ok (concat_rows dfs)
  end.

Definition pad (n : nat) (s : Series) : Series :=
  s ++ repeat NaN (n - length s).

(** [pd.concat(dfs, axis=1)] of frames on range indexes: the columns
    side by side, shorter frames completed with missing values. *)
Definition concat_cols (dfs : list DataFrame) : DataFrame :=
  let n := list_max (map nrows dfs) in
  mkDF n (flat_map (fun df => map (fun p => (fst p, pad n (snd p))) (columns df)) dfs).

Fixpoint keep (mask : list bool) (s : Series) : Series :=
  match mask, s with
  | b :: mask', v :: s' => if b then v :: keep mask' s' else keep mask' s'
  | _, _ => []
  end.

Definition count_true (mask : list bool) : nat :=
  length (filter (fun b => b) mask).

(** [df[mask]]: the rows where the boolean mask holds. *)
Definition filter_rows (mask : list bool) (df : DataFrame) : DataFrame :=
  mkDF (count_true mask) (map (fun p => (fst p, keep mask (snd p))) (columns df)).

Fixpoint zip_with {A B C : Type} (f : A -> B -> C) (l : list A) (l' : list B)
  : list C :=
  match l, l' with
  | a :: l, b :: l' => f a b :: zip_with f l l'
  | _, _ => []
  end.

(** Row mask of [dropna]: a row is kept when none of the given columns
    is missing there. *)
Definition complete_rows (n : nat) (cols : list Series) : list bool :=
  fold_right (fun s m => zip_with andb (map notna s) m) (repeat true n) cols.

(** [df.dropna(subset=cols)]. *)
Definition dropna (df : DataFrame) (subset : list string) : Result DataFrame :=
  cols <~ rmap (getitem df) subset ;;
  Ok (filter_rows (complete_rows (nrows df) cols) df).

(** [s.fillna(v)]. *)
Definition fillna (v : value) (s : Series) : Series :=
  map (fun x => if isna x then v else x) s.

Definition tile (k : nat) (s : Series) : Series := concat (repeat s k).

(** [df.melt(id_vars, value_vars, var_name, value_name)]: one row per
    row of [df] and value column, value columns one after the other. *)
Definition melt (df : DataFrame) (id_vars value_vars : list string)
           (var_name value_name : string) : Result DataFrame :=
  if has_name value_name (names df)
  then Raise (ValueError "value_name cannot match an element in the DataFrame columns")
  else
    ids <~ rmap (fun c => s <~ getitem df c ;; Ok (c, s)) id_vars ;;
    vals <~ rmap (getitem df) value_vars ;;
    let n := nrows df in
    let k := length value_vars in
    Ok (mkDF (n * k)
             (map (fun p => (fst p, tile k (snd p))) ids
              ++ [(var_name, flat_map (fun v => repeat (VStr v) n) value_vars);
                  (value_name, concat vals)])).

(** The [.str] accessor exists on text columns (and on empty ones). *)
Definition has_str_accessor (s : Series) : bool :=
  match s with
  | [] => true
  | _ => existsb is_str s
  end.

Definition split_cell (sep : ascii) (v : value) : option (list string) :=
  match v with
  | VStr s => Some (split sep s)
  | _ => None
  end.

Definition part (j : nat) (p : option (list string)) : value :=
  match p with
  | Some l => match nth_error l j with Some x => VStr x | None => VNone end
  | None => NaN
  end.

(** [s.str.split(sep, expand=True)]: as many columns as the longest
    split, short rows completed with [None], missing cells all missing. *)
Definition str_split_expand (sep : ascii) (s : Series) : Result (list Series) :=
  if has_str_accessor s then
    let parts := map (split_cell sep) s in
    let width := list_max (map (fun p => match p with
                                         | Some l => length l
                                         | None => 0
                                         end) parts) in
    Ok (map (fun j => map (part j) parts) (seq 0 width))
  else Raise (AttributeError "Can only use .str accessor with string values").

(** Elementwise [>] between two cells. *)
Definition value_gt (a b : value) : Result bool :=
  match a, b with
  | VInt x, VInt y => Ok (x >? y)%Z
  | VStr x, VStr y => Ok (String.ltb y x)
  | VStr _, _ | _, VStr _ | VNone, _ | _, VNone =>
      Raise (TypeError "'>' not supported between these instances")
  | _, _ =>
      match to_float a, to_float b with
      | Some x, Some y => Ok (PrimFloat.ltb y x)
      | _, _ => Raise (TypeError "'>' not supported between these instances")
      end
  end.

Fixpoint series_gt (s s' : Series) : Result (list bool) :=
  match s, s' with
  | a :: s, b :: s' =>
      m <~ value_gt a b ;; ms <~ series_gt s s' ;; Ok (m :: ms)
  | _, _ => Ok []
  end.

(** [s == x] against a text scalar never raises. *)
Definition series_eq_str (s : Series) (x : string) : list bool :=
  map (fun v => match v with VStr y => String.eqb y x | _ => false end) s.

(** [v + k] for an integer [k]; integer cells wrap around at the width
    of their column, given by [wrap]. *)
Definition value_add_int (wrap : Z -> Z) (k : Z) (v : value) : Result value :=
  match v with
  | VInt z => Ok (VInt (wrap (z + k)%Z))
  | VFloat f => Ok (VFloat (PrimFloat.add f (Z2float k)))
  | VBool b => Ok (VInt (wrap ((if b then 1 else 0) + k)%Z))
  | VStr _ => Raise (TypeError "can only concatenate str (not int) to str")
  | VNone => Raise (TypeError "unsupported operand type(s) for +")
  end.

(** [s - x] and [s * x] for a float scalar. *)
Definition series_float_op (op : float -> float -> float) (s : Series) (x : float)
  : Result Series :=
  rmap (fun v => match to_float v with
                 | Some f => Ok (VFloat (op f x))
                 | None => Raise (TypeError "unsupported operand type(s)")
                 end) s.

(** Write the cells [new] back at the rows selected by [mask]. *)
Fixpoint assign_mask (mask : list bool) (new old : Series) : Series :=
  match mask, old with
  | b :: mask', v :: old' =>
      if b then
        match new with
        | x :: new' => x :: assign_mask mask' new' old'
        | [] => v :: assign_mask mask' [] old'
        end
      else v :: assign_mask mask' new old'
  | _, _ => old
  end.

(** Options of [read_csv] the module uses. *)
Inductive dtype_spec : Type :=
| InferDtype
| AllColumns (d : dtype)
| PerColumn (m : list (string * dtype)).

Record read_opts : Type := mkOpts {
  opt_names : option (list string);
  opt_delimiter : option string;
  opt_usecols : option (list string);
  opt_dtype : dtype_spec;
  opt_nrows : option nat
}.

Definition default_opts : read_opts := mkOpts None None None InferDtype None.

Inductive merge_how : Type := Inner | Outer | Left.

(** [df.head(n)]. *)
Definition head (n : nat) (df : DataFrame) : DataFrame :=
  mkDF (Nat.min n (nrows df)) (map (fun p => (fst p, firstn n (snd p))) (columns df)).

Definition is_integer_dtype (d : dtype) : bool :=
  match d with
  | UInt32 | Int16 | Int32 | Int64 => true
  | _ => false
  end.

End Pandas.
Import Pandas.

(* ===================================================================== *)
(** * Environment of the module                                           *)
(* ===================================================================== *)

(** The field manager [parameters.fields]: [fetch item col] lists the
    fields of an item under the naming column [col], [fetch_dtypes] gives
    their dtypes, [convert] maps external to internal names. *)
Record Fields : Type := mkFields {
  fetch : string -> string -> list string;
  fetch_dtypes : string -> string -> list (string * dtype);
  convert : string -> option string
}.

(** What the module imports from [parameters] and [paths], and the two
    services of the outside world it relies on: [read_table path opts] is
    the outcome of the csv parser on the file at [path] under the options
    [opts]; [pd_merge] is the relational join of pandas. *)
Record Config : Type := mkConfig {
  states_nhd : list (string * list string);
  pwc_durations : list string;
  condensed_soil_path : string -> string -> string;
  combo_path : string -> Z -> string;
  crop_group_path : string;
  crop_params_path : string;
  crop_dates_path : string;
  irrigation_path : string;
  gen_params_path : string;
  gdd_input_path : string;
  pwc_scenario_path : list string -> string;
  reconstituted_path : list string -> string;
  refresh_fields : Fields -> Fields;
  read_table : string -> read_opts -> Result DataFrame;
  pd_merge : merge_how -> list string -> string * string ->
             DataFrame -> DataFrame -> Result DataFrame
}.

(** The state the module acts on: the files read so far, oldest first, and
    the field manager. *)
Record World : Type := mkWorld {
  reads : list string;
  fields : Fields
}.

(** Computations of the module: they read and update the world and either
    return or raise. *)
Definition M (A : Type) : Type := World -> Result A * World.

Definition ret {A : Type} (a : A) : M A := fun w => (Ok a, w).

Definition raise {A : Type} (e : exn) : M A := fun w => (Raise e, w).

Definition bind {A B : Type} (c : M A) (k : A -> M B) : M B :=
  fun w =>
    match c w with
    | (Ok a, w') => k a w'
    | (Raise e, w') => (Raise e, w')
    end.

Definition lift {A : Type} (r : Result A) : M A := fun w => (r, w).

Declare Scope io_scope.
Delimit Scope io_scope with io.
Notation "x <- c ;; k" := (bind c (fun x => k))
  (at level 61, c at next level, right associativity) : io_scope.
Notation "c ;;; k" := (bind c (fun _ => k))
  (at level 61, right associativity) : io_scope.

Local Open Scope io_scope.

(** [for x in l: s = body(x, s)]. *)
Fixpoint for_each {A S : Type} (l : list A) (body : A -> S -> M S) (s : S) : M S :=
  match l with
  | [] => ret s
  | x :: l' => s' <- body x s ;; for_each l' body s'
  end.

Definition get_fields : M Fields := fun w => (Ok (fields w), w).

Fixpoint dict_get {V : Type} (d : list (string * V)) (k : string) : option V :=
  match d with
  | [] => None
  | (k', v) :: d' => if String.eqb k k' then Some v else dict_get d' k
  end.

Definition list_eqb (l l' : list string) : bool :=
  if list_eq_dec string_dec l l' then true else false.

Definition apply_usecols (u : option (list string)) (t : DataFrame) : Result DataFrame :=
  match u with
  | None => Ok t
  | Some u =>
      if forallb (fun c => has_name c (names t)) u
      then Ok (mkDF (nrows t) (filter (fun p => has_name (fst p) u) (columns t)))
      else Raise (ValueError "Usecols do not match columns")
  end.

(** The integers a dtype holds. *)
Definition in_range (d : dtype) (z : Z) : bool :=
  match d with
  | UInt32 => (0 <=? z)%Z && (z <? 2 ^ 32)%Z
  | Int16 => (- 2 ^ 15 <=? z)%Z && (z <? 2 ^ 15)%Z
  | Int32 => (- 2 ^ 31 <=? z)%Z && (z <? 2 ^ 31)%Z
  | Int64 => (- 2 ^ 63 <=? z)%Z && (z <? 2 ^ 63)%Z
  | _ => true
  end.

(** A cell read under a dtype that [read_csv] was given.  Where [astype]
    would wrap an integer or cut a float, the parser raises: an integer
    column takes integers of its range, and floats only when they are
    such integers. *)
Definition parse_cell (d : dtype) (v : value) : Result value :=
  if is_integer_dtype d then
    match v with
    | VInt z =>
        if in_range d z then Ok (VInt z)
        else Raise (ValueError "value out of range for the dtype")
    | VFloat f =>
        match float_trunc f with
        | Some z =>
            if PrimFloat.eqb (Z2float z) f && in_range d z then Ok (VInt z)
            else Raise (ValueError "cannot safely convert passed user dtype")
        | None => Raise (ValueError "Integer column has NA values")
        end
    | _ => cast d v
    end
  else cast d v.

Definition parse_series (d : dtype) (s : Series) : Result Series := rmap (parse_cell d) s.

Definition apply_dtype (d : dtype_spec) (t : DataFrame) : Result DataFrame :=
  match d with
  | InferDtype => Ok t
  | AllColumns d =>
      (cs <~ rmap (fun p => s <~ parse_series d (snd p) ;; Ok (fst p, s)) (columns t) ;;
       Ok (mkDF (nrows t) cs))%result
  | PerColumn m =>
      (cs <~ rmap (fun p => match dict_get m (fst p) with
                            | Some d => s <~ parse_series d (snd p) ;; Ok (fst p, s)
                            | None => Ok p
                            end) (columns t) ;;
       Ok (mkDF (nrows t) cs))%result
  end.

Fixpoint nodupb (l : list string) : bool :=
  match l with
  | [] => true
  | c :: l' => negb (has_name c l') && nodupb l'
  end.

(** What [read_csv] guarantees of the table it returns, whatever the file
    holds: a rectangular table of distinct column names (the parser renames
    repeated ones), named by [names] when given, restricted to
    [usecols], of at most [nrows] rows, with cells of the requested
    dtypes; a cell that does not fit its dtype makes the read raise.  The
    parser's outcome is passed through these. *)
Definition read_csv_contract (path : string) (o : read_opts) (t : DataFrame)
  : Result DataFrame :=
  if negb (well_formed t && nodupb (names t)) then Raise (ParserError path)
  else if match opt_names o with
          | Some h => negb (list_eqb (names t) h)
          | None => false
          end then Raise (ParserError path)
  else
    (t <~ apply_usecols (opt_usecols o) t ;;
     let t := match opt_nrows o with Some n => head n t | None => t end in
     apply_dtype (opt_dtype o) t)%result.

Section Read.

Variable cfg : Config.

(** [fields.refresh()]. *)
Definition refresh : M unit :=
  fun w => (Ok tt, mkWorld (reads w) (refresh_fields cfg (fields w))).

(** [pd.read_csv(path, ...)]: the read is recorded, then the parser's
    outcome is returned or its exception raised. *)
Definition read_csv (path : string) (o : read_opts) : M DataFrame :=
  fun w =>
    let w' := mkWorld (reads w ++ [path]) (fields w) in
    match read_table cfg path o with
    | Ok t => (read_csv_contract path o t, w')
    | Raise e => (Raise e, w')
    end.

(** ** [test_path] *)

(** [wrapped] calls [f]; an exception that derives from [Exception] is
    caught and raised again, any other propagates untouched. *)
Definition test_path {Args R : Type} (f : Args -> M R) : Args -> M R :=
  fun args w =>
    match f args w with
    | (Ok r, w') => (Ok r, w')
    | (Raise e, w') =>
        if is_Exception e then (Raise e, w') else (Raise e, w')
    end.

(** ** [combinations] *)

Definition combo_header : list string :=
  ["gridcode"; "cdl"; "weather_grid"; "mukey"; "area"].

(** [np.int16(year)] wraps a year that does not fit 16 bits, as numpy
    does before version 2. *)
Definition combinations (region : string) (years : list Z) (nrows : option nat)
  : M (option DataFrame) :=
  for_each years
    (fun year all_combos =>
       let header := combo_header in
       let combo_file := combo_path cfg region year in
       t <- read_csv combo_file (mkOpts None None None (AllColumns UInt32) nrows) ;;
       combos <- lift (select t header) ;;
       let combos := setitem_scalar combos "year" (VInt (int16 year)) in
       ret (Some match all_combos with
                 | None => combos
                 | Some all_combos => concat_rows [all_combos; combos]
                 end))
    None.

(** ** [gdd] *)

(** [(s - 32.) * (5 / 9)] on a column. *)
Definition fahrenheit_to_celsius (s : Series) : Result Series :=
  (d <~ series_float_op PrimFloat.sub s 32%float ;;
   series_float_op PrimFloat.mul d (5 / 9)%float)%result.

Definition gdd_subset : list string :=
  ["emergence_gdd"; "maxcover_gdd"; "emergence_base_temp"; "maxcover_base_temp"].

Definition gdd_convert (col : string) (table : DataFrame) : Result DataFrame :=
  if endswith col "temp_f" then
    (p <~ pop table col ;;
     c <~ fahrenheit_to_celsius (fst p) ;;
     Ok (setitem (snd p) (rstrip "_f" col) c))%result
  else Ok table.

Definition gdd (grapes : bool) : M DataFrame :=
  table <- (if negb grapes then
              table <- read_csv (gdd_input_path cfg) default_opts ;;
              lift (rfor (names table) gdd_convert table)
            else raise (FutureWarning "Haven't implemented grapes yet")) ;;
  lift (dropna table gdd_subset).

(** ** [ssurgo] and [soils] *)

Definition ssurgo (state name : string) : M DataFrame :=
  f <- get_fields ;;
  let table_fields := fetch f name "external_name" in
  let data_types := fetch_dtypes f name "external_name" in
  let table_path := condensed_soil_path cfg state name in
  read_csv table_path (mkOpts None None (Some table_fields) (PerColumn data_types) None).

Definition soil_tables : list (string * string) :=
  [("muaggatt", "mukey"); ("component", "mukey"); ("chorizon", "cokey")].

Definition default_suffixes : string * string := ("_x", "_y").

Definition soils (mode : string) (region state : option string) : M DataFrame :=
  refresh ;;;
  region_states <- match region, state with
                   | None, Some state => ret [state]
                   | _, _ =>
                       match region with
                       | Some r =>
                           match dict_get (states_nhd cfg) r with
                           | Some l => ret l
                           | None => raise (KeyError r)
                           end
                       | None => raise (KeyError (py_str None))
                       end
                   end ;;
  valu_table <- ssurgo "" "valu" ;;
  state_tables <-
    for_each region_states
      (fun state state_tables =>
         state_table <-
           for_each soil_tables
             (fun tk state_table =>
                let table_name := fst tk in
                let key_field := snd tk in
                table <- ssurgo state table_name ;;
                match state_table with
                | None => ret (Some table)
                | Some state_table =>
                    m <- lift (pd_merge cfg Outer [key_field] default_suffixes
                                        state_table table) ;;
                    ret (Some m)
                end)
             None ;;
         match state_table with
         | Some state_table =>
             ret (state_tables ++ [setitem_scalar state_table "state" (VStr state)])
         | None => raise (TypeError "'NoneType' object does not support item assignment")
         end)
      [] ;;
  soil_data <- lift (pd_concat state_tables) ;;
  soil_data <- lift (pd_merge cfg Inner ["mukey"] default_suffixes soil_data valu_table) ;;
  f <- get_fields ;;
  ret (rename soil_data (convert f)).


(** ** [crop] *)

Definition crop_stages : list string := ["begin"; "end"; "begin_active"; "end_active"].

(** [crop_dates.loc[plant > harvest, harvest_col] += 365]: the mask is
    computed, the selected cells are read, 365 is added to them and they
    are written back. *)
Definition adjust_stage (stage : string) (crop_dates : DataFrame) : Result DataFrame :=
  (plant <~ getitem crop_dates ("plant_" ++ stage) ;;
   harvest <~ getitem crop_dates ("harvest_" ++ stage) ;;
   mask <~ series_gt plant harvest ;;
   selected <~ rmap (value_add_int int64 365) (keep mask harvest) ;;
   Ok (setitem crop_dates ("harvest_" ++ stage) (assign_mask mask selected harvest)))%result.

Definition adjust_harvest (crop_dates : DataFrame) : Result DataFrame :=
  rfor crop_stages adjust_stage crop_dates.

(** The body of the date loop evaluates [crop_dates[field]] and then the
    global name [date_fmt], which the module neither defines nor
    imports: the lookup raises [NameError] and the rest of the statement
    (the subtraction of 1900-01-01 and the assignment) is never run. *)
Definition convert_date (field : string) (crop_dates : DataFrame) : M DataFrame :=
  _ <- lift (getitem crop_dates field) ;;
  raise (NameError "date_fmt").

Definition read_fields (path item col : string) : M DataFrame :=
  f <- get_fields ;;
  read_csv path (mkOpts None None (Some (fetch f item col))
                        (PerColumn (fetch_dtypes f item col)) None).

Definition crop (region : string) : M DataFrame :=
  refresh ;;;
  crop_index <- read_fields (crop_group_path cfg) "CropGroups" "internal_name" ;;
  crop_params <- read_fields (crop_params_path cfg) "CropParams" "external_name" ;;
  crop_dates <- read_fields (crop_dates_path cfg) "CropDates" "internal_name" ;;
  f <- get_fields ;;
  crop_dates <- for_each (fetch f "date" "internal_name") convert_date crop_dates ;;
  crop_dates <- lift (adjust_harvest crop_dates) ;;
  irrigation_data <- read_fields (irrigation_path cfg) "Irrigation" "internal_name" ;;
  group_params <- read_fields (gen_params_path cfg) "CurveNumbers" "internal_name" ;;
  group_region <- lift (getattr group_params "region") ;;
  let group_params := filter_rows (series_eq_str group_region region) group_params in
  data <- lift (pd_merge cfg Left ["cdl"; "cdl_alias"] default_suffixes
                         crop_index crop_params) ;;
  data <- lift (pd_merge cfg Left ["cdl"; "cdl_alias"] ("", "_burn") data crop_dates) ;;
  data <- lift (pd_merge cfg Left ["cdl_alias"; "state"] default_suffixes
                         data irrigation_data) ;;
  data <- lift (pd_merge cfg Left ["pwc_class"] ("_cdl", "_gen") data group_params) ;;
  flags <- lift (select data ["evergreen"; "alt_date"]) ;;
  flags <- lift (rmap (fun p => s <~ astype BoolT (fillna (VInt 0) (snd p)) ;;
                                Ok (fst p, s))%result (columns flags)) ;;
  ret (fold_left (fun d p => setitem d (fst p) (snd p)) flags data).

(** ** [pwc_outfile] *)

Record outfile_args : Type := mkOutfileArgs {
  arg_region : option string;
  arg_class_num : option string;
  arg_class_name : option string;
  arg_koc : option string;
  arg_preprocessed : bool;
  arg_in_file : option string
}.

(** The file read: [in_file] when given, else the path template filled
    with the four identifiers. *)
Definition outfile_path (a : outfile_args) : string :=
  match arg_in_file a with
  | Some p => p
  | None =>
      let root := if arg_preprocessed a then reconstituted_path cfg
                  else pwc_scenario_path cfg in
      root [py_str (arg_region a); py_str (arg_class_num a);
            py_str (arg_class_name a); py_str (arg_koc a)]
  end.

(** The function under the decorator.  Its two diagnostic [print] calls
    write to the standard output and are left out. *)
Definition pwc_outfile_def (a : outfile_args) : M DataFrame :=
  f <- get_fields ;;
  let pwc_header := fetch f "pwc_id_fields" "internal_name" ++ pwc_durations cfg in
  let in_file := outfile_path a in
  if negb (arg_preprocessed a) then
    table <- read_csv in_file (mkOpts (Some pwc_header) (Some "\s+") None InferDtype None) ;;
    line_num <- lift (getattr table "line_num") ;;
    line_num <- lift (astype Int32 line_num) ;;
    line_num <- lift (rmap (value_add_int int32 (-1)) line_num) ;;
    let table := setitem table "line_num" line_num in
    p <- lift (pop table "run_id") ;;
    let table := snd p in
    data <- lift (str_split_expand "_" (fst p)) ;;
    data <- lift (set_columns (nrows table) data
                              ("bunk" :: fetch f "pwc_run_id" "internal_name")) ;;
    let table := concat_cols [data; table] in
    lift (melt table
               (filter (fun c => negb (has_name c (pwc_durations cfg))) (names table))
               (pwc_durations cfg) "duration" "conc")
  else
    read_csv in_file default_opts.

Definition pwc_outfile : outfile_args -> M DataFrame := test_path pwc_outfile_def.

End Read.

(* ===================================================================== *)
(** * Reference descriptions                                              *)
(* ===================================================================== *)

(** The tables the functions are stated to build, written as the
    specification of the module words them.  The theorems below relate the
    functions of [read.py] to these. *)

Fixpoint map_m {A B : Type} (f : A -> M B) (l : list A) : M (list B) :=
  match l with
  | [] => ret []
  | x :: l' => y <- f x ;; ys <- map_m f l' ;; ret (y :: ys)
  end.

(** The combination table of one year: the five columns of the year's
    file, read as unsigned 32 bit integers, and the year. *)
Definition year_combinations (cfg : Config) (region : string) (nrows : option nat)
           (year : Z) : M DataFrame :=
  t <- read_csv cfg (combo_path cfg region year)
                (mkOpts None None None (AllColumns UInt32) nrows) ;;
  t <- lift (select t combo_header) ;;
  ret (setitem_scalar t "year" (VInt (int16 year))).

(** The soil table of one state: map unit aggregates joined with the
    components on the map unit key, then with the horizons on the
    component key, tagged with the state. *)
Definition state_soils (cfg : Config) (state : string) : M DataFrame :=
  muaggatt <- ssurgo cfg state "muaggatt" ;;
  component <- ssurgo cfg state "component" ;;
  units <- lift (pd_merge cfg Outer ["mukey"] default_suffixes muaggatt component) ;;
  chorizon <- ssurgo cfg state "chorizon" ;;
  horizons <- lift (pd_merge cfg Outer ["cokey"] default_suffixes units chorizon) ;;
  ret (setitem_scalar horizons "state" (VStr state)).

(** The soil table of a list of states. *)
Definition joined_soils (cfg : Config) (states : list string) : M DataFrame :=
  refresh cfg ;;;
  valu <- ssurgo cfg "" "valu" ;;
  tables <- map_m (state_soils cfg) states ;;
  stacked <- lift (pd_concat tables) ;;
  joined <- lift (pd_merge cfg Inner ["mukey"] default_suffixes stacked valu) ;;
  f <- get_fields ;;
  ret (rename joined (convert f)).

(** One turn of the loop of [combinations] on its accumulator. *)
Definition stack_step (acc : option DataFrame) (t : DataFrame) : option DataFrame :=
  Some match acc with
       | None => t
       | Some a => concat_rows [a; t]
       end.

(** A cell of an unsigned 32 bit column. *)
Definition is_uint32 (v : value) : Prop :=
  exists z, v = VInt z /\ (0 <= z < 2 ^ 32)%Z.

(** What the table of one year is: the five columns and the year, at most
    [nrows] rows, unsigned 32 bit cells, the year on every row as a 16 bit
    integer. *)
Definition year_table (nrows_opt : option nat) (year : Z) (t : DataFrame) : Prop :=
  names t = combo_header ++ ["year"]
  /\ (forall n, nrows_opt = Some n -> nrows t <= n)
  /\ lookup "year" (columns t) = Some (repeat (VInt (int16 year)) (nrows t))
  /\ (forall c s, In c combo_header -> lookup c (columns t) = Some s ->
                  Forall is_uint32 s).

(** Day offsets: [.dt.days] of a difference of two timestamps of pandas,
    whose differences span 2^63 nanoseconds either way. *)
Definition day_offset (z : Z) : Prop := (-106752 <= z <= 106751)%Z.

(** The harvest offset of a row after the adjustment step. *)
Definition adjusted (plant harvest : Z) : Z :=
  if (plant >? harvest)%Z then (harvest + 365)%Z else harvest.

(** ** [gdd] *)

(** A cell [v] of a Fahrenheit column after [(v - 32.) * (5 / 9)]. *)
Definition celsius (v : value) : value :=
  match to_float v with
  | Some f => VFloat ((f - 32) * (5 / 9))%float
  | None => v
  end.

Definition is_numeric (v : value) : bool :=
  match to_float v with Some _ => true | None => false end.

Definition is_temp_f (p : string * Series) : bool := endswith (fst p) "temp_f".

(** The table of [gdd] before the rows are dropped: the columns that are
    not in Fahrenheit, then the converted ones under their new names. *)
Definition kept (cols : list (string * Series)) : list (string * Series) :=
  filter (fun p => negb (is_temp_f p)) cols.

Definition converted (cols : list (string * Series)) : list (string * Series) :=
  map (fun p => (rstrip "_f" (fst p), map celsius (snd p))) (filter is_temp_f cols).

Definition gdd_converted (t : DataFrame) : DataFrame :=
  mkDF (nrows t) (kept (columns t) ++ converted (columns t)).

(** Row [i] has no missing cell in the columns [cols]. *)
Definition row_complete (cols : list Series) (i : nat) : bool :=
  forallb (fun s => notna (nth i s NaN)) cols.

(** The statement made about [gdd] on a table [t] read from the file, for
    the outcome [r] of the call: a table [mid] holds the converted columns
    of [t] under the stripped names and its other columns as they are, and
    the result is [mid] without the rows that miss one of the four
    growing degree day columns. *)
Definition gdd_statement (t : DataFrame) (r : Result DataFrame) : Prop :=
  exists mid cols,
    nrows mid = nrows t
    /\ (forall stem s,
          lookup (stem ++ "_f") (columns t) = Some s ->
          endswith (stem ++ "_f") "temp_f" = true ->
          lookup stem (columns mid) = Some (map celsius s)
          /\ lookup (stem ++ "_f") (columns mid) = None)
    /\ (forall c s, lookup c (columns t) = Some s -> endswith c "temp_f" = false ->
          lookup c (columns mid) = Some s)
    /\ length (columns mid) = length (columns t)
    /\ rmap (getitem mid) gdd_subset = Ok cols
    /\ r = Ok (filter_rows (map (row_complete cols) (seq 0 (nrows mid))) mid).

(** ** [pwc_outfile] *)

(** Line numbers: integers of 32 bits that stay so when one is taken
    off. *)
Definition line_number (z : Z) : Prop := (- 2 ^ 31 < z < 2 ^ 31)%Z.

(** The parts of a run identifier: texts without the character [_] that
    give the identifier back when they are written one after the other with
    [_] between them. *)
Definition run_id_split (id : string) (ps : list string) : Prop :=
  ps <> []
  /\ String.concat "_" ps = id
  /\ Forall (fun p => ~ In "_"%char (list_ascii_of_string p)) ps.

(** The long form of a table [t] read from an output file; [lines] are the
    line numbers of [t] and [parts] the parts of its run identifiers, row
    by row.  The table has one row for each row of [t] and each duration,
    duration after duration: a column of [t] that is kept appears once for
    each duration.  It holds the line number less one; under the names
    [bunk :: run_fields], in this order, the parts of the run identifier,
    [None] where the identifier has fewer parts; no column run_id; the
    column duration, holding each duration on as many rows as [t] has;
    the column conc, holding the columns of [t] named by the durations one
    after the other. *)
Definition pwc_long_form (run_fields durations : list string)
           (lines : list Z) (parts : list (list string)) (t out : DataFrame) : Prop :=
  let k := length durations in
  nrows out = nrows t * k
  /\ Forall (fun p => length (snd p) = nrows t * k) (columns out)
  /\ lookup "line_num" (columns out)
     = Some (concat (repeat (map (fun z => VInt (z - 1)) lines) k))
  /\ (forall j c,
        nth_error ("bunk" :: run_fields) j = Some c ->
        lookup c (columns out)
        = Some (concat (repeat (map (fun ps => match nth_error ps j with
                                               | Some x => VStr x
                                               | None => VNone
                                               end) parts) k)))
  /\ lookup "run_id" (columns out) = None
  /\ lookup "duration" (columns out)
     = Some (concat (map (fun d => repeat (VStr d) (nrows t)) durations))
  /\ exists vals,
       Forall2 (fun d s => lookup d (columns t) = Some s) durations vals
       /\ lookup "conc" (columns out) = Some (concat vals).

(** The statement made about [pwc_outfile] for any output file that is not
    preprocessed, on the table [t] the file holds under the rebuilt header
    and for the outcome [r] of the call: a table is returned, with the
    columns duration and conc and one row for each row of [t] and each
    duration. *)
Definition pwc_outfile_statement (durations : list string) (t : DataFrame)
           (r : Result DataFrame) : Prop :=
  exists out,
    r = Ok out
    /\ In "duration" (names out) /\ In "conc" (names out)
    /\ nrows out = nrows t * length durations.

(** The same long form, written with the functions the frame model splits
    and repeats with. *)
Definition long_form_by_split (run_fields durations : list string)
           (lines : list Z) (ids : list string) (t out : DataFrame) : Prop :=
  let k := length durations in
  nrows out = nrows t * k
  /\ Forall (fun p => length (snd p) = nrows t * k) (columns out)
  /\ lookup "line_num" (columns out)
     = Some (tile k (map (fun z => VInt (z - 1)) lines))
  /\ (forall j c,
        nth_error ("bunk" :: run_fields) j = Some c ->
        lookup c (columns out)
        = Some (tile k (map (fun r => part j (Some (split "_" r))) ids)))
  /\ lookup "run_id" (columns out) = None
  /\ lookup "duration" (columns out)
     = Some (flat_map (fun d => repeat (VStr d) (nrows t)) durations)
  /\ exists vals,
       Forall2 (fun d s => lookup d (columns t) = Some s) durations vals
       /\ lookup "conc" (columns out) = Some (concat vals).

Fixpoint remove_col_name (c : string) (l : list string) : list string :=
  match l with
  | [] => []
  | c' :: l' => if String.eqb c c' then l' else c' :: remove_col_name c l'
  end.

(* ===================================================================== *)
(** * An example environment                                              *)
(* ===================================================================== *)

(** A small installation: a field manager, path templates and a handful
    of files, used to run the functions on concrete inputs. *)

Definition demo_date_fields : list string :=
  ["plant_begin"; "plant_end"; "plant_begin_active"; "plant_end_active";
   "harvest_begin"; "harvest_end"; "harvest_begin_active"; "harvest_end_active"].

Definition demo_fields : Fields :=
  mkFields
    (fun item _ =>
       if String.eqb item "date" then demo_date_fields
       else if String.eqb item "CropGroups" then ["cdl"; "cdl_alias"; "pwc_class"]
       else if String.eqb item "CropParams" then ["cdl"; "cdl_alias"; "evergreen"]
       else if String.eqb item "CropDates" then "cdl" :: "cdl_alias" :: demo_date_fields
       else if String.eqb item "pwc_id_fields" then ["line_num"; "run_id"]
       else if String.eqb item "pwc_run_id" then ["scenario"; "rep"]
       else [])
    (fun _ _ => [])
    (fun _ => None).

Definition year_text (year : Z) : string :=
  if (year =? 2015)%Z then "2015" else if (year =? 2016)%Z then "2016" else "year".

Definition demo_config (files : list (string * DataFrame)) : Config :=
  mkConfig
    [("07", ["IA"; "MN"])]
    ["1-day"; "365-day"]
    (fun state name => (state ++ "_" ++ name ++ ".csv")%string)
    (fun region year => ("combos_" ++ region ++ "_" ++ year_text year ++ ".csv")%string)
    "crop_groups.csv" "crop_params.csv" "crop_dates.csv" "irrigation.csv"
    "curve_numbers.csv" "gdd.csv"
    (fun args => (String.concat "_" args ++ ".txt")%string)
    (fun args => ("pre_" ++ String.concat "_" args ++ ".csv")%string)
    (fun f => f)
    (fun path _ =>
       match dict_get files path with
       | Some t => Ok t
       | None => Raise (FileNotFoundError path)
       end)
    (fun _ _ _ _ _ => Raise (ValueError "no join in this example")).

Definition demo_world : World := mkWorld [] demo_fields.

Definition ints (l : list Z) : Series := map VInt l.
Definition texts (l : list string) : Series := map VStr l.

Local Open Scope Z_scope.

Definition demo_combos_2015 : DataFrame :=
  mkDF 3 [("gridcode", ints [1; 2; 3]); ("cdl", ints [1; 5; 1]);
          ("weather_grid", ints [10; 10; 11]); ("mukey", ints [100; 101; 102]);
          ("area", ints [900; 1800; 900]); ("watershed", ints [7; 7; 7])].

Definition demo_combos_2016 : DataFrame :=
  mkDF 2 [("gridcode", ints [1; 2]); ("cdl", ints [5; 5]);
          ("weather_grid", ints [10; 10]); ("mukey", ints [100; 101]);
          ("area", ints [900; 1800]); ("watershed", ints [7; 7])].

Definition demo_crop_groups : DataFrame :=
  mkDF 2 [("cdl", ints [1; 24]); ("cdl_alias", ints [1; 24]);
          ("pwc_class", ints [10; 20])].

Definition demo_crop_params : DataFrame :=
  mkDF 2 [("cdl", ints [1; 24]); ("cdl_alias", ints [1; 24]);
          ("evergreen", ints [0; 0])].

(** Crop dates as the file holds them: text. *)
Definition demo_crop_dates_text : DataFrame :=
  mkDF 2 [("cdl", ints [1; 24]); ("cdl_alias", ints [1; 24]);
          ("plant_begin", texts ["04/25/2020"; "09/20/2020"]);
          ("plant_end", texts ["05/20/2020"; "10/25/2020"]);
          ("plant_begin_active", texts ["05/01/2020"; "10/01/2020"]);
          ("plant_end_active", texts ["05/15/2020"; "10/15/2020"]);
          ("harvest_begin", texts ["09/25/2020"; "06/20/2020"]);
          ("harvest_end", texts ["11/10/2020"; "07/25/2020"]);
          ("harvest_begin_active", texts ["10/05/2020"; "07/01/2020"]);
          ("harvest_end_active", texts ["10/30/2020"; "07/15/2020"])].

(** The same dates as day offsets from 1900-01-01: corn, then winter
    wheat, harvested the year after it is planted. *)
Definition demo_plant (stage : string) : list Z :=
  if String.eqb stage "begin" then [43944; 44092]
  else if String.eqb stage "end" then [43969; 44127]
  else if String.eqb stage "begin_active" then [43950; 44103]
  else [43964; 44117].

Definition demo_harvest (stage : string) : list Z :=
  if String.eqb stage "begin" then [44097; 44000]
  else if String.eqb stage "end" then [44143; 44035]
  else if String.eqb stage "begin_active" then [44107; 44011]
  else [44132; 44025].

Definition demo_crop_dates : DataFrame :=
  mkDF 2 [("cdl", ints [1; 24]); ("cdl_alias", ints [1; 24]);
          ("plant_begin", ints (demo_plant "begin"));
          ("plant_end", ints (demo_plant "end"));
          ("plant_begin_active", ints (demo_plant "begin_active"));
          ("plant_end_active", ints (demo_plant "end_active"));
          ("harvest_begin", ints (demo_harvest "begin"));
          ("harvest_end", ints (demo_harvest "end"));
          ("harvest_begin_active", ints (demo_harvest "begin_active"));
          ("harvest_end_active", ints (demo_harvest "end_active"))].

Definition demo_gdd : DataFrame :=
  mkDF 3 [("crop", texts ["corn"; "wheat"; "soy"]);
          ("emergence_gdd", [VFloat 100; NaN; VFloat 90]);
          ("maxcover_gdd", [VFloat 700; VFloat 650; VFloat 600]);
          ("emergence_base_temp_f", ints [50; 41; 32]);
          ("maxcover_base_temp_f", ints [50; 41; 32])].

(** A table that holds a base temperature twice, in Celsius and in
    Fahrenheit. *)
Definition demo_gdd_both_units : DataFrame :=
  mkDF 2 [("emergence_gdd", [VFloat 100; VFloat 90]);
          ("maxcover_gdd", [VFloat 700; VFloat 600]);
          ("emergence_base_temp", ints [1; 2]);
          ("emergence_base_temp_f", ints [50; 68]);
          ("maxcover_base_temp", ints [3; 4])].

(** A table without the column maxcover_gdd, and one whose Fahrenheit
    column holds text. *)
Definition demo_gdd_no_maxcover : DataFrame :=
  mkDF 2 [("emergence_gdd", [VFloat 100; VFloat 90]);
          ("emergence_base_temp_f", ints [50; 68]);
          ("maxcover_base_temp_f", ints [50; 68])].

Definition demo_gdd_text : DataFrame :=
  mkDF 2 [("emergence_gdd", [VFloat 100; VFloat 90]);
          ("maxcover_gdd", [VFloat 700; VFloat 600]);
          ("emergence_base_temp_f", texts ["50"; "n/a"]);
          ("maxcover_base_temp_f", ints [50; 68])].

Definition demo_outfile : DataFrame :=
  mkDF 2 [("line_num", ints [2; 3]);
          ("run_id", texts ["r07_101_a"; "r07_102_b"]);
          ("1-day", [VFloat 0.5; VFloat 0.25]);
          ("365-day", [VFloat 0.125; VFloat 0.0625])].

(** An output file whose run identifiers have two parts. *)
Definition demo_outfile_short : DataFrame :=
  mkDF 2 [("line_num", ints [2; 3]);
          ("run_id", texts ["r07_101"; "r07_102"]);
          ("1-day", [VFloat 0.5; VFloat 0.25]);
          ("365-day", [VFloat 0.125; VFloat 0.0625])].

Definition demo_files : list (string * DataFrame) :=
  [("combos_07_2015.csv", demo_combos_2015);
   ("combos_07_2016.csv", demo_combos_2016);
   ("crop_groups.csv", demo_crop_groups);
   ("crop_params.csv", demo_crop_params);
   ("crop_dates.csv", demo_crop_dates_text);
   ("gdd.csv", demo_gdd);
   ("out.txt", demo_outfile)].

Local Close Scope Z_scope.

Definition demo_outfile_args : outfile_args :=
  mkOutfileArgs None None None None false (Some "out.txt").

(* ===================================================================== *)
(** * The other readers: [met] and [pwc_infile]                           *)
(* ===================================================================== *)

(** What these two take besides the configuration: two more paths of the
    module [paths], and two conversions of Python that are left to the
    environment, the text of a float ([str(x)]) and the integer a text
    denotes ([int(s)], [None] when it raises [ValueError]). *)
Record Runtime : Type := mkRuntime {
  met_attributes_path : string;
  preprocessed_path : list string -> string;
  float_str : float -> string;
  int_of_text : string -> option Z
}.

(** [str(z)] for an integer. *)
Definition int_str (z : Z) : string := NilZero.string_of_int (Z.to_int z).

Fixpoint zeros (n : nat) : string :=
  match n with
  | O => EmptyString
  | S n' => String "0" (zeros n')
  end.

Definition is_sign (c : ascii) : bool := Ascii.eqb c "+" || Ascii.eqb c "-".

(** [s.zfill(width)]: zeros on the left up to [width] characters, after
    the sign when [s] starts with one. *)
Definition zfill (width : nat) (s : string) : string :=
  if Nat.leb width (String.length s) then s
  else
    let fill := zeros (width - String.length s) in
    match s with
    | String c rest => if is_sign c then String c (fill ++ rest) else (fill ++ s)%string
    | EmptyString => fill
    end.

(** An argument that is an integer or a text. *)
Inductive scalar : Type :=
| SInt (z : Z)
| SText (s : string).

(** [str(x)] for an optional scalar. *)
Definition scalar_str (x : option scalar) : string :=
  match x with
  | Some (SInt z) => int_str z
  | Some (SText s) => s
  | None => "None"
  end.

(** [met()]. *)
Definition met (cfg : Config) (rt : Runtime) : M DataFrame :=
  f <- get_fields ;;
  let field_names := fetch f "MetParams" "internal_name" in
  let dtypes := fetch_dtypes f "MetParams" "internal_name" in
  read_csv cfg (met_attributes_path rt)
           (mkOpts None None (Some field_names) (PerColumn dtypes) None).

Section Infile.

Variable cfg : Config.
Variable rt : Runtime.

(** [str(v)] for a cell, as the loop over a column sees it. *)
Definition cell_str (v : value) : string :=
  match v with
  | VInt z => int_str z
  | VFloat f => float_str rt f
  | VStr s => s
  | VBool b => if b then "True" else "False"
  | VNone => "None"
  end.

(** [int(x)]. *)
Definition py_int (x : option scalar) : Result Z :=
  match x with
  | Some (SInt z) => Ok z
  | Some (SText s) =>
      match int_of_text rt s with
      | Some z => Ok z
      | None => Raise (ValueError "invalid literal for int() with base 10")
      end
  | None => Raise (TypeError "int() argument must be a string or a real number")
  end.

(** [v == n] for a cell and an integer. *)
Definition value_eq_int (n : Z) (v : value) : bool :=
  match v with
  | VInt z => (z =? n)%Z
  | VFloat f => PrimFloat.eqb f (Z2float n)
  | VBool b => ((if b then 1 else 0) =? n)%Z
  | VStr _ | VNone => false
  end.

Record infile_args : Type := mkInfileArgs {
  in_class_num : option scalar;
  in_class_name : option string;
  in_region : option string;
  in_use_parent : bool;
  in_preprocessed : bool;
  in_path : option string
}.

(** The file read: [path] when given, else one of three templates. *)
Definition infile_path (a : infile_args) : string :=
  match in_path a with
  | Some p => p
  | None =>
      if in_use_parent a then
        pwc_scenario_path cfg [py_str (in_region a); "parent"]
      else if in_preprocessed a then
        preprocessed_path rt [scalar_str (in_class_num a); py_str (in_class_name a)]
      else
        pwc_scenario_path cfg [("r" ++ py_str (in_region a))%string;
                               scalar_str (in_class_num a);
                               py_str (in_class_name a)]
  end.

(** The function under the decorator. *)
Definition pwc_infile_def (a : infile_args) : M DataFrame :=
  let path := infile_path a in
  table <- read_csv cfg path (mkOpts None None None (PerColumn [("area", Int64)]) None) ;;
  table <- match in_region a with
           | Some region => ret (setitem_scalar table "region" (VStr region))
           | None =>
               regions <- lift (getattr table "region") ;;
               ret (setitem table "region"
                            (map (fun region => VStr (zfill 2 (cell_str region))) regions))
           end ;;
  if in_use_parent a then
    cdl <- lift (getattr table "cdl") ;;
    n <- lift (py_int (in_class_num a)) ;;
    ret (filter_rows (map (value_eq_int n) cdl) table)
  else ret table.

Definition pwc_infile : infile_args -> M DataFrame := test_path pwc_infile_def.

End Infile.

(** Columns that all have [n] cells. *)
Definition rectangular (n : nat) (cols : list (string * Series)) : Prop :=
  Forall (fun p => length (snd p) = n) cols.

(** The outcome of [read_csv] on a path, which no state of the module
    influences. *)
Definition read_result (cfg : Config) (path : string) (o : read_opts) : Result DataFrame :=
  (t <~ read_table cfg path o ;; read_csv_contract path o t)%result.

(** The table of one year of [combinations], or the exception its file
    raises. *)
Definition year_result (cfg : Config) (region : string) (nrows : option nat) (year : Z)
  : Result DataFrame :=
  (t <~ read_result cfg (combo_path cfg region year)
                    (mkOpts None None None (AllColumns UInt32) nrows) ;;
   t <~ select t combo_header ;;
   Ok (setitem_scalar t "year" (VInt (int16 year))))%result.

(** The three files of a state, in the order [soils] reads them. *)
Definition state_paths (cfg : Config) (state : string) : list string :=
  map (fun tk => condensed_soil_path cfg state (fst tk)) soil_tables.

(** All the files of [soils] for a list of states, in the order they are
    read: the valu table, then the three tables of each state. *)
Definition soil_paths (cfg : Config) (states : list string) : list string :=
  condensed_soil_path cfg "" "valu" :: flat_map (state_paths cfg) states.

(** The options [pwc_infile] reads its file with. *)
Definition infile_opts : read_opts :=
  mkOpts None None None (PerColumn [("area", Int64)]) None.

(** The options of a read restricted to the fields of an item. *)
Definition fields_opts (f : Fields) (item col : string) : read_opts :=
  mkOpts None None (Some (fetch f item col)) (PerColumn (fetch_dtypes f item col)) None.

(** The table [stacked] is the table [horizons] of a state with the
    column state, which holds the state on every row: the rows and the
    other columns of [horizons], as they are. *)
Definition tagged_with_state (state : string) (horizons stacked : DataFrame) : Prop :=
  nrows stacked = nrows horizons
  /\ lookup "state" (columns stacked) = Some (repeat (VStr state) (nrows horizons))
  /\ (forall c, c <> "state" -> lookup c (columns stacked) = lookup c (columns horizons))
  /\ (forall c, In c (names stacked) <-> In c (names horizons) \/ c = "state").

(** The table [joined] with every column that the mapping [m] knows under
    its new name, the others under their own. *)
Definition renamed_by (m : string -> option string) (joined : DataFrame) : DataFrame :=
  mkDF (nrows joined)
       (map (fun p => (match m (fst p) with Some c' => c' | None => fst p end, snd p))
            (columns joined)).

(** The options [combinations] reads the file of a year with. *)
Definition combo_opts (nrows_opt : option nat) : read_opts :=
  mkOpts None None None (AllColumns UInt32) nrows_opt.

(** The table [out] is the stack of the tables [files] read for the years
    [years], year after year: it holds the five columns of the header and
    the column year; it has the rows of all the files; each of the five
    columns is that column of the first file, then of the second, and so
    on, all cells unsigned integers of 32 bits; the column year holds, for
    each file in turn and on as many rows as the file has, the year brought
    into the 16 bit range [-2^15, 2^15), which is the year itself when it
    lies in that range; no file has more than [nrows] rows. *)
Definition stacked_years (nrows_opt : option nat) (years : list Z)
           (files : list DataFrame) (out : DataFrame) : Prop :=
  names out = ["gridcode"; "cdl"; "weather_grid"; "mukey"; "area"; "year"]
  /\ nrows out = list_sum (map nrows files)
  /\ (forall c, In c ["gridcode"; "cdl"; "weather_grid"; "mukey"; "area"] ->
        exists cols,
          Forall2 (fun file s => lookup c (columns file) = Some s) files cols
          /\ Forall (Forall is_uint32) cols
          /\ lookup c (columns out) = Some (concat cols))
  /\ lookup "year" (columns out)
     = Some (concat (map (fun yf => repeat (VInt ((fst yf + 2 ^ 15) mod 2 ^ 16 - 2 ^ 15)%Z)
                                          (nrows (snd yf)))
                         (combine years files)))
  /\ Forall (fun y => (- 2 ^ 15 <= y < 2 ^ 15)%Z ->
                      ((y + 2 ^ 15) mod 2 ^ 16 - 2 ^ 15)%Z = y) years
  /\ (forall n, nrows_opt = Some n -> Forall (fun file => nrows file <= n) files).

(** The table of some year. *)
Definition year_table_of (nrows_opt : option nat) (t : DataFrame) : Prop :=
  exists year, year_table nrows_opt year t.

(** The number of parts of a run identifier, as [str.split] counts them:
    none for a cell that is not a text. *)
Definition run_id_parts (v : value) : nat :=
  match split_cell "_" v with
  | Some l => length l
  | None => 0
  end.

(** The four columns that the adjustment of [crop] writes. *)
Definition harvest_columns : list string :=
  map (fun stage => ("harvest_" ++ stage)%string) crop_stages.


(** A computation reads the files [paths] in this order and no other: from
    any state it reads a first part of the list, and all of it when it
    returns. *)
Definition reads_in_order {A : Type} (paths : list string) (c : M A) : Prop :=
  forall w,
    exists done rest,
      paths = done ++ rest
      /\ reads (snd (c w)) = reads w ++ done
      /\ (forall a, fst (c w) = Ok a -> rest = []).

(** ** More of the example environment *)

Definition demo_runtime : Runtime :=
  mkRuntime "met.csv"
            (fun args => ("scenarios_" ++ String.concat "_" args ++ ".csv")%string)
            (fun f => if PrimFloat.is_nan f then "nan" else "0.0")
            (fun s => option_map Z.of_int (NilZero.int_of_string s)).

Definition demo_scenarios : DataFrame :=
  mkDF 3 [("scenario_id", texts ["a"; "b"; "c"]);
          ("region", ints [7; 10; 7]%Z);
          ("cdl", ints [1; 5; 1]%Z);
          ("area", ints [900; 1800; 2700]%Z)].

Definition demo_met : DataFrame :=
  mkDF 2 [("weather_grid", ints [10; 11]%Z);
          ("station", texts ["x"; "y"]);
          ("anetd", [VFloat 17; VFloat 20])].

Definition demo_valu : DataFrame :=
  mkDF 2 [("mukey", ints [100; 101]%Z); ("rootznemc", ints [150; 120]%Z)].

Definition demo_muaggatt : DataFrame :=
  mkDF 2 [("mukey", ints [100; 101]%Z); ("hydgrpdcd", texts ["A"; "B"])].

Definition demo_component : DataFrame :=
  mkDF 2 [("mukey", ints [100; 101]%Z); ("cokey", ints [1; 2]%Z)].

Definition demo_chorizon : DataFrame :=
  mkDF 2 [("cokey", ints [1; 2]%Z); ("hzdept_r", ints [0; 30]%Z)].

Definition demo_more_files : list (string * DataFrame) :=
  [("07_parent.txt", demo_scenarios);
   ("scenarios.csv", demo_scenarios);
   ("met.csv", demo_met);
   ("_valu.csv", demo_valu);
   ("IA_muaggatt.csv", demo_muaggatt);
   ("IA_component.csv", demo_component);
   ("IA_chorizon.csv", demo_chorizon);
   ("combos_07_2015.csv", demo_combos_2015);
   ("combos_07_2016.csv", demo_combos_2016);
   ("out.txt", demo_outfile)].

(** A field manager that knows the weather and the soil tables. *)
Definition demo_more_fields : Fields :=
  mkFields
    (fun item _ =>
       if String.eqb item "MetParams" then ["weather_grid"; "anetd"]
       else if String.eqb item "valu" then ["mukey"; "rootznemc"]
       else if String.eqb item "muaggatt" then ["mukey"; "hydgrpdcd"]
       else if String.eqb item "component" then ["mukey"; "cokey"]
       else if String.eqb item "chorizon" then ["cokey"; "hzdept_r"]
       else if String.eqb item "pwc_id_fields" then ["line_num"; "run_id"]
       else if String.eqb item "pwc_run_id" then ["scenario"; "rep"]
       else [])
    (fun item _ => if String.eqb item "MetParams" then [("anetd", Float64)] else [])
    (fun _ => None).

Definition demo_more_world : World := mkWorld [] demo_more_fields.

(** The example configuration with another table of states. *)
Definition with_states (cfg : Config) (states : list (string * list string)) : Config :=
  mkConfig states (pwc_durations cfg) (condensed_soil_path cfg) (combo_path cfg)
           (crop_group_path cfg) (crop_params_path cfg) (crop_dates_path cfg)
           (irrigation_path cfg) (gen_params_path cfg) (gdd_input_path cfg)
           (pwc_scenario_path cfg) (reconstituted_path cfg) (refresh_fields cfg)
           (read_table cfg) (pd_merge cfg).

(** A configuration with another join. *)
Definition with_merge (cfg : Config)
           (m : merge_how -> list string -> string * string ->
                DataFrame -> DataFrame -> Result DataFrame) : Config :=
  mkConfig (states_nhd cfg) (pwc_durations cfg) (condensed_soil_path cfg) (combo_path cfg)
           (crop_group_path cfg) (crop_params_path cfg) (crop_dates_path cfg)
           (irrigation_path cfg) (gen_params_path cfg) (gdd_input_path cfg)
           (pwc_scenario_path cfg) (reconstituted_path cfg) (refresh_fields cfg)
           (read_table cfg) m.

(** The join of two tables whose rows carry the same keys in the same
    order, and that share no other column: the columns of the left table,
    then those of the right one that the left one lacks. *)
Definition aligned_merge (how : merge_how) (on : list string) (suffixes : string * string)
           (a b : DataFrame) : Result DataFrame :=
  Ok (mkDF (nrows a)
           (columns a ++ filter (fun p => negb (has_name (fst p) (names a))) (columns b))).




(** Scenarios whose areas are not whole numbers. *)
Definition demo_scenarios_fraction : DataFrame :=
  mkDF 2 [("region", ints [7; 10]%Z); ("cdl", ints [1; 5]%Z);
          ("area", [VFloat 900.5; VFloat 1800])].

(** What [pwc_infile] makes of the example scenarios: read by their
    path, and as the parent file of region 07 for class 1. *)
Definition demo_scenarios_out : DataFrame :=
  mkDF 3 [("scenario_id", texts ["a"; "b"; "c"]);
          ("region", texts ["07"; "10"; "07"]);
          ("cdl", ints [1; 5; 1]%Z);
          ("area", ints [900; 1800; 2700]%Z)].

Definition demo_parent_out : DataFrame :=
  mkDF 2 [("scenario_id", texts ["a"; "c"]);
          ("region", texts ["07"; "07"]);
          ("cdl", ints [1; 1]%Z);
          ("area", ints [900; 2700]%Z)].

(** The two joins of the example tables of Iowa. *)
Definition demo_units : DataFrame :=
  mkDF 2 [("mukey", ints [100; 101]%Z); ("hydgrpdcd", texts ["A"; "B"]);
          ("cokey", ints [1; 2]%Z)].

Definition demo_horizons : DataFrame :=
  mkDF 2 [("mukey", ints [100; 101]%Z); ("hydgrpdcd", texts ["A"; "B"]);
          ("cokey", ints [1; 2]%Z); ("hzdept_r", ints [0; 30]%Z)].

(** The example soil tables of Iowa alone, whose rows are aligned. *)
Definition demo_soil_config : Config :=
  with_states (with_merge (demo_config demo_more_files) aligned_merge) [("07", ["IA"])].

(** A cell of a signed 64 bit column. *)
Definition is_int64 (v : value) : Prop :=
  exists z, v = VInt z /\ (- 2 ^ 63 <= z < 2 ^ 63)%Z.


Definition demo_parent_args : infile_args :=
  mkInfileArgs (Some (SInt 1)) None (Some "07") true false None.

Definition demo_path_args : infile_args :=
  mkInfileArgs None None None false false (Some "scenarios.csv").

(* ===================================================================== *)
(** * The monad                                                           *)
(* ===================================================================== *)

Lemma bind_ok {A B : Type} (c : M A) (k : A -> M B) (w w' : World) (a : A) :
  c w = (Ok a, w') -> bind c k w = k a w'.
Proof. intros H. unfold bind. rewrite H. reflexivity. Qed.

Lemma bind_raise {A B : Type} (c : M A) (k : A -> M B) (w w' : World) (e : exn) :
  c w = (Raise e, w') -> bind c k w = (Raise e, w').
Proof. intros H. unfold bind. rewrite H. reflexivity. Qed.

Lemma bind_ext {A B : Type} (c : M A) (k k' : A -> M B) (w : World) :
  (forall a w', c w = (Ok a, w') -> k a w' = k' a w') ->
  bind c k w = bind c k' w.
Proof.
  intros H. unfold bind. destruct (c w) as [[a | e] w'] eqn:E.
  - now apply H.
  - reflexivity.
Qed.

Lemma bind_assoc {A B C : Type} (c : M A) (k : A -> M B) (h : B -> M C) (w : World) :
  bind (bind c k) h w = bind c (fun a => bind (k a) h) w.
Proof.
  unfold bind. destruct (c w) as [[a | e] w']; reflexivity.
Qed.

(** Results and worlds of a computation, by cases. *)
Ltac run_step c :=
  let a := fresh "a" in
  let e := fresh "e" in
  let w := fresh "w" in
  let E := fresh "E" in
  destruct c as [[a | e] w] eqn:E.

(* ===================================================================== *)
(** * [test_path]                                                         *)
(* ===================================================================== *)

Lemma test_path_run {Args R : Type} (f : Args -> M R) (args : Args) (w : World) :
  test_path f args w = f args w.
Proof.
  unfold test_path. run_step (f args w).
  - reflexivity.
  - destruct (is_Exception e); reflexivity.
Qed.

(** C2.  The decorator [test_path] changes nothing: on every argument and
    in every world, the wrapped function returns what the function
    returns, raises the exception the function raises, and leaves the
    world as the function leaves it. *)
Theorem test_path_transparent :
  forall (Args R : Type) (f : Args -> M R) (args : Args) (w : World),
    test_path f args w = f args w
    /\ (forall r w', f args w = (Ok r, w') -> test_path f args w = (Ok r, w'))
    /\ (forall e w', f args w = (Raise e, w') -> test_path f args w = (Raise e, w')).
Proof.
  intros Args R f args w.
  pose proof (test_path_run f args w) as H.
  split; [exact H | split].
  - intros r w' E. rewrite H. exact E.
  - intros e w' E. rewrite H. exact E.
Qed.

(* ===================================================================== *)
(** * [gdd], grapes                                                       *)
(* ===================================================================== *)

(** C8.  With [grapes=True], [gdd] raises [FutureWarning] in the world it
    was called in: the list of files read has not grown, and no table is
    returned. *)
Theorem gdd_grapes_raises :
  forall (cfg : Config) (w : World),
    gdd cfg true w = (Raise (FutureWarning "Haven't implemented grapes yet"), w)
    /\ reads (snd (gdd cfg true w)) = reads w
    /\ (forall t, fst (gdd cfg true w) <> Ok t).
Proof.
  intros cfg w.
  assert (H : gdd cfg true w
              = (Raise (FutureWarning "Haven't implemented grapes yet"), w))
    by reflexivity.
  rewrite H. cbn. repeat split. intros t; discriminate.
Qed.

(* ===================================================================== *)
(** * Columns and names                                                   *)
(* ===================================================================== *)

Lemma has_name_In (c : string) (l : list string) :
  has_name c l = true <-> In c l.
Proof.
  unfold has_name. rewrite existsb_exists. split.
  - intros [x [Hx E]]. apply String.eqb_eq in E. now subst.
  - intros H. exists c. split; [exact H | apply String.eqb_refl].
Qed.

Lemma has_name_not_In (c : string) (l : list string) :
  has_name c l = false <-> ~ In c l.
Proof.
  rewrite <- has_name_In. destruct (has_name c l); split; congruence.
Qed.

Lemma lookup_In_names (c : string) (cols : list (string * Series)) (s : Series) :
  lookup c cols = Some s -> In c (map fst cols).
Proof.
  induction cols as [| [c' s'] cols IH]; simpl; [discriminate |].
  destruct (String.eqb_spec c c') as [-> | N]; intros H.
  - now left.
  - right. now apply IH.
Qed.

Lemma lookup_None_names (c : string) (cols : list (string * Series)) :
  lookup c cols = None <-> ~ In c (map fst cols).
Proof.
  induction cols as [| [c' s'] cols IH]; simpl.
  - tauto.
  - destruct (String.eqb_spec c c') as [-> | N].
    + split; [discriminate | intros H; exfalso; apply H; now left].
    + rewrite IH. split; intros H; [intros [E | I]; [congruence | tauto] | tauto].
Qed.

Lemma lookup_In (c : string) (cols : list (string * Series)) (s : Series) :
  lookup c cols = Some s -> In (c, s) cols.
Proof.
  induction cols as [| [c' s'] cols IH]; simpl; [discriminate |].
  destruct (String.eqb_spec c c') as [-> | N]; intros H.
  - left. congruence.
  - right. now apply IH.
Qed.

Lemma well_formed_lookup (df : DataFrame) (c : string) (s : Series) :
  well_formed df = true -> lookup c (columns df) = Some s -> length s = nrows df.
Proof.
  unfold well_formed. intros W L. apply lookup_In in L.
  rewrite forallb_forall in W. specialize (W _ L). now apply Nat.eqb_eq in W.
Qed.

Lemma lookup_app (c : string) (cols cols' : list (string * Series)) :
  lookup c (cols ++ cols') =
  match lookup c cols with Some s => Some s | None => lookup c cols' end.
Proof.
  induction cols as [| [c' s'] cols IH]; simpl; [reflexivity |].
  destruct (String.eqb c c'); [reflexivity | exact IH].
Qed.

Lemma lookup_replace_col (c c' : string) (s : Series) (cols : list (string * Series)) :
  lookup c (replace_col c' s cols) =
  if String.eqb c c' then match lookup c cols with Some _ => Some s | None => None end
  else lookup c cols.
Proof.
  induction cols as [| [c0 s0] cols IH]; simpl.
  - now destruct (String.eqb c c').
  - destruct (String.eqb c' c0) eqn:E0; simpl; rewrite IH;
      destruct (String.eqb c c0) eqn:E1; destruct (String.eqb c c') eqn:E2;
      try reflexivity;
      repeat match goal with
             | H : String.eqb _ _ = true |- _ => apply String.eqb_eq in H
             | H : String.eqb _ _ = false |- _ => apply String.eqb_neq in H
             end; congruence.
Qed.

(** Reading a column back after an assignment. *)
Lemma lookup_setitem (df : DataFrame) (c c' : string) (s : Series) :
  lookup c (columns (setitem df c' s)) =
  if String.eqb c c' then Some s else lookup c (columns df).
Proof.
  unfold setitem; simpl. destruct (has_name c' (names df)) eqn:H.
  - rewrite lookup_replace_col. destruct (String.eqb_spec c c') as [-> | N]; [| reflexivity].
    apply has_name_In in H. unfold names in H.
    destruct (lookup c' (columns df)) eqn:L; [reflexivity |].
    apply lookup_None_names in L. contradiction.
  - rewrite lookup_app. simpl. apply has_name_not_In in H. unfold names in H.
    destruct (String.eqb_spec c c') as [-> | N].
    + apply lookup_None_names in H. now rewrite H.
    + now destruct (lookup c (columns df)).
Qed.

Lemma names_replace_col (c : string) (s : Series) (cols : list (string * Series)) :
  map fst (replace_col c s cols) = map fst cols.
Proof.
  induction cols as [| [c0 s0] cols IH]; simpl; [reflexivity |].
  rewrite IH. now destruct (String.eqb c c0).
Qed.

Lemma names_setitem_new (df : DataFrame) (c : string) (s : Series) :
  ~ In c (names df) -> names (setitem df c s) = names df ++ [c].
Proof.
  intros H. apply has_name_not_In in H. unfold setitem, names at 1.
  cbn [columns]. rewrite H. unfold names. now rewrite map_app.
Qed.

Lemma names_setitem (df : DataFrame) (c : string) (s : Series) :
  names (setitem df c s) = if has_name c (names df) then names df else names df ++ [c].
Proof.
  unfold setitem, names at 1. cbn [columns].
  destruct (has_name c (names df)); [apply names_replace_col |].
  unfold names. now rewrite map_app.
Qed.

Lemma lookup_map_names (g : string -> Series) (c : string) (l : list string) :
  In c l -> lookup c (map (fun c => (c, g c)) l) = Some (g c).
Proof.
  induction l as [| c0 l IH]; simpl; [tauto |].
  destruct (String.eqb_spec c c0) as [-> | N]; [reflexivity |].
  intros [E | I]; [congruence | now apply IH].
Qed.

Lemma columns_by_lookup (d : string -> Series) (cols : list (string * Series)) :
  NoDup (map fst cols) ->
  map (fun c => (c, match lookup c cols with Some s => s | None => d c end))
      (map fst cols) = cols.
Proof.
  induction cols as [| [c0 s0] cols IH]; simpl; [reflexivity |].
  intros ND. inversion ND as [| x l NI ND']; subst.
  rewrite String.eqb_refl. f_equal.
  rewrite <- (IH ND') at 2.
  apply map_ext_in. intros c I.
  destruct (String.eqb_spec c c0) as [-> | N]; [contradiction | reflexivity].
Qed.

(** The rows selected by [select] keep the index and are the columns
    looked up, under the names asked for. *)
Lemma select_spec (df df' : DataFrame) (cols : list string) :
  select df cols = Ok df' ->
  names df' = cols /\ nrows df' = nrows df
  /\ (forall c s, lookup c (columns df') = Some s -> lookup c (columns df) = Some s).
Proof.
  unfold select.
  destruct (rmap _ cols) as [cs | e] eqn:E; simpl; [| discriminate].
  intros H. injection H as <-. unfold names; simpl.
  revert cs E. induction cols as [| c cols IH]; simpl; intros cs E.
  - injection E as <-. repeat split. intros c s; discriminate.
  - unfold getitem in E. destruct (lookup c (columns df)) as [s |] eqn:L; simpl in E;
      [| discriminate].
    destruct (rmap _ cols) as [cs' | e] eqn:E'; simpl in E; [| discriminate].
    injection E as <-. destruct (IH cs' eq_refl) as (N & _ & Lk). simpl.
    repeat split.
    + now rewrite N.
    + intros c1 s1. destruct (String.eqb_spec c1 c) as [-> | Ne].
      * intros H. congruence.
      * apply Lk.
Qed.

(* ===================================================================== *)
(** * Stacking frames                                                     *)
(* ===================================================================== *)

Lemma add_names_known (acc l : list string) :
  (forall c, In c l -> In c acc) -> add_names acc l = acc.
Proof.
  unfold add_names. induction l as [| c l IH]; simpl; intros H; [reflexivity |].
  assert (Hc : has_name c acc = true) by (apply has_name_In, H; now left).
  rewrite Hc. apply IH. intros c' I. apply H. now right.
Qed.

Lemma add_names_fresh (acc l : list string) :
  NoDup (acc ++ l) -> add_names acc l = acc ++ l.
Proof.
  unfold add_names. revert acc. induction l as [| c l IH]; simpl; intros acc ND.
  - now rewrite app_nil_r.
  - assert (Hc : has_name c acc = false).
    { apply has_name_not_In. intros I.
      apply NoDup_remove_2 in ND. apply ND. apply in_or_app. now left. }
    rewrite Hc. rewrite IH.
    + now rewrite <- app_assoc.
    + now rewrite <- app_assoc.
Qed.

Section SameColumns.

(** Frames that all carry the columns [L], in that order. *)
Variable L : list string.
Hypothesis L_NoDup : NoDup L.

Lemma union_names_same (t : DataFrame) (ts : list DataFrame) :
  Forall (fun t => names t = L) (t :: ts) -> union_names (t :: ts) = L.
Proof.
  intros F. pose proof (Forall_inv F) as Ht. pose proof (Forall_inv_tail F) as Hts.
  simpl in Ht. unfold union_names; simpl. rewrite Ht.
  rewrite (add_names_fresh [] L) by exact L_NoDup. simpl.
  clear Ht F. induction ts as [| t' ts IH]; simpl; [reflexivity |].
  pose proof (Forall_inv Hts) as Ht'. pose proof (Forall_inv_tail Hts) as Hts'.
  simpl in Ht'. rewrite Ht'. rewrite add_names_known by auto. now apply IH.
Qed.

Lemma concat_rows_same (t : DataFrame) (ts : list DataFrame) :
  Forall (fun t => names t = L) (t :: ts) ->
  concat_rows (t :: ts)
  = mkDF (list_sum (map nrows (t :: ts)))
         (map (fun c => (c, flat_map (column_or_nan c) (t :: ts))) L).
Proof.
  intros F. unfold concat_rows. now rewrite union_names_same.
Qed.

Lemma names_concat_rows_same (t : DataFrame) (ts : list DataFrame) :
  Forall (fun t => names t = L) (t :: ts) -> names (concat_rows (t :: ts)) = L.
Proof.
  intros F. rewrite concat_rows_same by exact F. unfold names; simpl.
  rewrite map_map. simpl. apply map_id.
Qed.

(** A frame stacked alone is itself. *)
Lemma concat_rows_single (t : DataFrame) :
  names t = L -> concat_rows [t] = t.
Proof.
  intros Ht. rewrite concat_rows_same by (constructor; auto).
  destruct t as [n cols]. unfold names in Ht; simpl in *. f_equal.
  - lia.
  - rewrite <- Ht. rewrite <- (columns_by_lookup (fun _ => repeat NaN n) cols) at 2
      by (rewrite Ht; exact L_NoDup).
    apply map_ext. intros c. unfold column_or_nan; simpl.
    now rewrite app_nil_r.
Qed.

(** Stacking a stack and one more frame stacks them all: the loop of
    [combinations] builds the stack of all its years. *)
Lemma concat_rows_snoc (t : DataFrame) (ts : list DataFrame) (t' : DataFrame) :
  Forall (fun t => names t = L) (t :: ts) -> names t' = L ->
  concat_rows [concat_rows (t :: ts); t'] = concat_rows ((t :: ts) ++ [t']).
Proof.
  intros F Ht'.
  assert (F' : Forall (fun t => names t = L) ((t :: ts) ++ [t'])).
  { apply Forall_app. split; [exact F | constructor; auto]. }
  rewrite (concat_rows_same (concat_rows (t :: ts)) [t']).
  2:{ constructor; [now apply names_concat_rows_same | constructor; auto]. }
  change ((t :: ts) ++ [t']) with (t :: (ts ++ [t'])) in *.
  rewrite (concat_rows_same t (ts ++ [t'])) by exact F'.
  f_equal.
  - cbn [map list_sum]. rewrite concat_rows_same by exact F.
    simpl. rewrite map_app, list_sum_app. simpl. lia.
  - apply map_ext_in. intros c I. f_equal.
    change (t :: ts ++ [t']) with ((t :: ts) ++ [t']).
    rewrite flat_map_app. cbn [flat_map]. f_equal.
    unfold column_or_nan at 1. rewrite concat_rows_same by exact F.
    cbn [columns]. now rewrite lookup_map_names.
Qed.

Lemma fold_stack_some (t : DataFrame) (ts ts' : list DataFrame) :
  Forall (fun t => names t = L) (t :: ts) ->
  Forall (fun t => names t = L) ts' ->
  fold_left stack_step ts' (Some (concat_rows (t :: ts)))
  = Some (concat_rows ((t :: ts) ++ ts')).
Proof.
  revert ts. induction ts' as [| t' ts' IH]; intros ts F F'.
  - simpl. now rewrite app_nil_r.
  - pose proof (Forall_inv F') as Ht'. pose proof (Forall_inv_tail F') as Hts'.
    simpl in Ht'. cbn [fold_left]. unfold stack_step at 2.
    rewrite concat_rows_snoc by assumption.
    change ((t :: ts) ++ [t']) with (t :: (ts ++ [t'])).
    rewrite IH.
    + simpl. now rewrite <- app_assoc.
    + change (t :: ts ++ [t']) with ((t :: ts) ++ [t']).
      apply Forall_app. split; [exact F | constructor; auto].
    + exact Hts'.
Qed.

Lemma fold_stack_none (t : DataFrame) (ts : list DataFrame) :
  Forall (fun t => names t = L) (t :: ts) ->
  fold_left stack_step (t :: ts) None = Some (concat_rows (t :: ts)).
Proof.
  intros F. pose proof (Forall_inv F) as Ht. pose proof (Forall_inv_tail F) as Hts.
  simpl in Ht. cbn [fold_left]. unfold stack_step at 2.
  rewrite <- (concat_rows_single t) at 1 by exact Ht.
  rewrite fold_stack_some; auto.
Qed.

End SameColumns.

(* ===================================================================== *)
(** * [read_csv]                                                          *)
(* ===================================================================== *)

Lemma rmap_Forall2 {A B : Type} (f : A -> Result B) (l : list A) (l' : list B) :
  rmap f l = Ok l' -> Forall2 (fun x y => f x = Ok y) l l'.
Proof.
  revert l'. induction l as [| x l IH]; simpl; intros l' H.
  - injection H as <-. constructor.
  - destruct (f x) as [y | e] eqn:E; simpl in H; [| discriminate].
    destruct (rmap f l) as [ys | e] eqn:E'; simpl in H; [| discriminate].
    injection H as <-. constructor; auto.
Qed.

Lemma rmap_length {A B : Type} (f : A -> Result B) (l : list A) (l' : list B) :
  rmap f l = Ok l' -> length l' = length l.
Proof.
  intros H. apply rmap_Forall2 in H. symmetry. eapply Forall2_length; eauto.
Qed.

(** A cell the parser accepts under a dtype is the cell [astype] gives. *)
Lemma parse_cell_cast (d : dtype) (v v' : value) :
  parse_cell d v = Ok v' -> cast d v = Ok v'.
Proof.
  assert (U : forall z, in_range UInt32 z = true -> uint32 z = z).
  { intros z H. cbn [in_range] in H. apply andb_prop in H. destruct H as [A B].
    unfold uint32, wrap_unsigned. apply Z.mod_small. lia. }
  assert (S : forall bits z, (0 < bits)%Z ->
                (- 2 ^ (bits - 1) <= z < 2 ^ (bits - 1))%Z -> wrap_signed bits z = z).
  { intros bits z Hb H. unfold wrap_signed.
    replace (2 ^ bits)%Z with (2 * 2 ^ (bits - 1))%Z
      by (rewrite <- Z.pow_succ_r by lia; f_equal; lia).
    rewrite Z.mod_small; lia. }
  assert (W : forall d z, is_integer_dtype d = true -> in_range d z = true ->
                cast d (VInt z) = Ok (VInt z)).
  { intros d0 z Hd H. destruct d0; try discriminate Hd; cbn [cast cast_int].
    - now rewrite U.
    - unfold int16. rewrite S; [reflexivity | lia |].
      cbn [in_range] in H. apply andb_prop in H. destruct H. change (16 - 1)%Z with 15%Z. lia.
    - unfold int32. rewrite S; [reflexivity | lia |].
      cbn [in_range] in H. apply andb_prop in H. destruct H. change (32 - 1)%Z with 31%Z. lia.
    - unfold int64. rewrite S; [reflexivity | lia |].
      cbn [in_range] in H. apply andb_prop in H. destruct H. change (64 - 1)%Z with 63%Z. lia. }
  unfold parse_cell. destruct (is_integer_dtype d) eqn:Hd; [| auto].
  destruct v as [z | f | s | b |]; auto.
  - destruct (in_range d z) eqn:R; [| discriminate].
    intros H. injection H as <-. now apply W.
  - destruct (float_trunc f) as [z |] eqn:T; [| discriminate].
    destruct (PrimFloat.eqb (Z2float z) f && in_range d z) eqn:R; [| discriminate].
    apply andb_prop in R. destruct R as [_ R].
    intros H. injection H as <-. pose proof (W d z Hd R) as C.
    destruct d; try discriminate Hd; cbn [cast cast_int] in *; rewrite T; exact C.
Qed.

Lemma parse_series_astype (d : dtype) (s s' : Series) :
  parse_series d s = Ok s' -> astype d s = Ok s'.
Proof.
  unfold parse_series, astype. revert s'.
  induction s as [| v s IH]; intros s' H; [exact H |].
  cbn [rmap] in *. destruct (parse_cell d v) as [v' |] eqn:P; [| discriminate].
  cbn [rbind] in H. destruct (rmap (parse_cell d) s) as [r |]; [| discriminate].
  cbn [rbind] in H. injection H as <-.
  rewrite (parse_cell_cast d v v' P), (IH r eq_refl). reflexivity.
Qed.

Lemma cast_uint32 (v v' : value) : cast UInt32 v = Ok v' -> is_uint32 v'.
Proof.
  assert (R : forall z, (0 <= uint32 z < 2 ^ 32)%Z).
  { intros z. unfold uint32, wrap_unsigned. apply Z.mod_pos_bound. lia. }
  destruct v as [z | f | s | b |]; simpl; intros H; try discriminate.
  - injection H as <-. exists (uint32 z). auto.
  - destruct (float_trunc f) as [z |]; [| discriminate].
    injection H as <-. exists (uint32 z). auto.
  - injection H as <-. exists (if b then 1 else 0)%Z. split; [reflexivity |].
    destruct b; lia.
Qed.

Lemma astype_uint32 (s s' : Series) : astype UInt32 s = Ok s' -> Forall is_uint32 s'.
Proof.
  intros H. apply rmap_Forall2 in H.
  induction H as [| v v' s s' Hv _ IH]; constructor; eauto using cast_uint32.
Qed.

Lemma apply_dtype_uint32 (t t' : DataFrame) :
  apply_dtype (AllColumns UInt32) t = Ok t' ->
  nrows t' = nrows t
  /\ (forall c s, In (c, s) (columns t') -> Forall is_uint32 s).
Proof.
  unfold apply_dtype.
  destruct (rmap _ (columns t)) as [cs | e] eqn:E; simpl; [| discriminate].
  intros H. injection H as <-. simpl. split; [reflexivity |].
  apply rmap_Forall2 in E.
  induction E as [| [c0 s0] [c1 s1] cols cols' H0 _ IH]; simpl.
  - tauto.
  - intros c s [Eq | I]; [| eauto].
    simpl in H0. destruct (parse_series UInt32 s0) as [s0' |] eqn:A; simpl in H0;
      [| discriminate].
    injection H0 as <- <-. injection Eq as <- <-.
    apply parse_series_astype in A. eapply astype_uint32; eauto.
Qed.

(** A read records its path, whatever its outcome. *)
Lemma read_csv_reads (cfg : Config) (path : string) (o : read_opts) (w : World) :
  snd (read_csv cfg path o w) = mkWorld (reads w ++ [path]) (fields w).
Proof.
  unfold read_csv. now destruct (read_table cfg path o).
Qed.

Lemma read_csv_Ok (cfg : Config) (path : string) (o : read_opts) (w w' : World)
      (t : DataFrame) :
  read_csv cfg path o w = (Ok t, w') ->
  w' = mkWorld (reads w ++ [path]) (fields w)
  /\ exists t0, read_table cfg path o = Ok t0 /\ read_csv_contract path o t0 = Ok t.
Proof.
  unfold read_csv. destruct (read_table cfg path o) as [t0 | e]; intros H.
  - injection H as H <-. split; [reflexivity |]. exists t0. auto.
  - discriminate.
Qed.

(** A read with [dtype=np.uint32] and [nrows] yields unsigned 32 bit
    cells and at most [nrows] rows. *)
Lemma read_csv_uint32 (path : string) (nrows_opt : option nat) (t0 t : DataFrame) :
  read_csv_contract path (mkOpts None None None (AllColumns UInt32) nrows_opt) t0 = Ok t ->
  (forall n, nrows_opt = Some n -> nrows t <= n)
  /\ (forall c s, In (c, s) (columns t) -> Forall is_uint32 s).
Proof.
  unfold read_csv_contract; simpl.
  destruct (negb (well_formed t0 && nodupb (names t0))); [discriminate |].
  intros H. apply apply_dtype_uint32 in H. destruct H as [N C]. split; [| exact C].
  intros n ->. rewrite N. simpl. apply Nat.le_min_l.
Qed.

(* ===================================================================== *)
(** * [combinations]                                                      *)
(* ===================================================================== *)

Lemma combo_columns_NoDup : NoDup (combo_header ++ ["year"]).
Proof.
  unfold combo_header. simpl.
  repeat (constructor; [simpl; intuition discriminate |]). constructor.
Qed.

Lemma year_combinations_table (cfg : Config) (region : string) (nrows_opt : option nat)
      (year : Z) (w w' : World) (t : DataFrame) :
  year_combinations cfg region nrows_opt year w = (Ok t, w') ->
  year_table nrows_opt year t /\ reads w' = reads w ++ [combo_path cfg region year].
Proof.
  unfold year_combinations, bind, lift, ret.
  run_step (read_csv cfg (combo_path cfg region year)
                     (mkOpts None None None (AllColumns UInt32) nrows_opt) w);
    [| discriminate].
  apply read_csv_Ok in E. destruct E as [-> [t0 [_ C]]].
  apply read_csv_uint32 in C. destruct C as [Hn Hc].
  destruct (select a combo_header) as [sel | e] eqn:S; [| discriminate].
  intros H. injection H as <- <-. simpl. split; [| reflexivity].
  apply select_spec in S. destruct S as (N & R & Lk).
  unfold year_table, setitem_scalar. repeat split.
  - rewrite names_setitem_new; [now rewrite N |].
    rewrite N. unfold combo_header. simpl. intuition discriminate.
  - intros n E. simpl. rewrite R. now apply Hn.
  - rewrite lookup_setitem. reflexivity.
  - intros c s I. rewrite lookup_setitem.
    destruct (String.eqb_spec c "year") as [-> | Ne].
    + exfalso. unfold combo_header in I. simpl in I. intuition discriminate.
    + intros L. apply Lk in L. apply lookup_In in L. eauto.
Qed.

Lemma map_m_Forall {A B : Type} (f : A -> M B) (P : B -> Prop) :
  (forall x w y w', f x w = (Ok y, w') -> P y) ->
  forall l w ys w', map_m f l w = (Ok ys, w') -> Forall P ys.
Proof.
  intros Hf. induction l as [| x l IH]; simpl; intros w ys w' H.
  - unfold ret in H. injection H as <- <-. constructor.
  - unfold bind in H. run_step (f x w); [| discriminate].
    run_step (map_m f l w0); [| discriminate].
    unfold ret in H. injection H as <- <-. constructor; eauto.
Qed.

(** The loop of [combinations], turn by turn: it reads the years in order
    and folds their tables into the accumulator. *)
Lemma combinations_loop (cfg : Config) (region : string) (nrows_opt : option nat)
      (years : list Z) (acc : option DataFrame) (w : World) :
  for_each years
    (fun year all_combos =>
       t <- read_csv cfg (combo_path cfg region year)
                     (mkOpts None None None (AllColumns UInt32) nrows_opt) ;;
       combos <- lift (select t combo_header) ;;
       let combos := setitem_scalar combos "year" (VInt (int16 year)) in
       ret (Some match all_combos with
                 | None => combos
                 | Some all_combos => concat_rows [all_combos; combos]
                 end))%io
    acc w
  = (ts <- map_m (year_combinations cfg region nrows_opt) years ;;
     ret (fold_left stack_step ts acc))%io w.
Proof.
  set (body := fun (year : Z) (all_combos : option DataFrame) => _).
  revert acc w. induction years as [| y years IH]; intros acc w.
  - reflexivity.
  - cbn [for_each map_m].
    assert (B : body y acc w
                = match year_combinations cfg region nrows_opt y w with
                  | (Ok t, w') => (Ok (stack_step acc t), w')
                  | (Raise e, w') => (Raise e, w')
                  end).
    { unfold body, year_combinations, bind, lift, ret.
      destruct (read_csv _ _ _ w) as [[a | e] w0]; [| reflexivity].
      destruct (select a combo_header) as [sel | e]; reflexivity. }
    unfold bind in *. rewrite B.
    destruct (year_combinations cfg region nrows_opt y w) as [[t | e] w0];
      [| reflexivity].
    rewrite IH.
    destruct (map_m _ years w0) as [[ts | e] w1]; reflexivity.
Qed.

(** C9.  Called with no year, [combinations] returns [None] in the world
    it was called in: no file has been read and the caller receives no
    table. *)
Theorem combinations_no_year :
  forall (cfg : Config) (region : string) (nrows_opt : option nat) (w : World),
    combinations cfg region [] nrows_opt w = (Ok None, w)
    /\ reads (snd (combinations cfg region [] nrows_opt w)) = reads w
    /\ (forall t, fst (combinations cfg region [] nrows_opt w) <> Ok (Some t)).
Proof.
  intros cfg region nrows_opt w.
  assert (H : combinations cfg region [] nrows_opt w = (Ok None, w)) by reflexivity.
  rewrite H. cbn. repeat split. intros t; discriminate.
Qed.

(* ===================================================================== *)
(** * [soils]                                                             *)
(* ===================================================================== *)

(** One turn of the loop over the states: the three tables of the state
    are read and joined in the order of the reference description. *)
Lemma soils_state_turn (cfg : Config) (state : string) (acc : list DataFrame)
      (w : World) :
  (state_table <-
     for_each soil_tables
       (fun tk state_table =>
          let table_name := fst tk in
          let key_field := snd tk in
          table <- ssurgo cfg state table_name ;;
          match state_table with
          | None => ret (Some table)
          | Some state_table =>
              m <- lift (pd_merge cfg Outer [key_field] default_suffixes
                                  state_table table) ;;
              ret (Some m)
          end)
       None ;;
   match state_table with
   | Some state_table =>
       ret (acc ++ [setitem_scalar state_table "state" (VStr state)])
   | None => raise (TypeError "'NoneType' object does not support item assignment")
   end)%io w
  = (t <- state_soils cfg state ;; ret (acc ++ [t]))%io w.
Proof.
  unfold state_soils. cbn [for_each soil_tables fst snd].
  unfold bind, lift, ret.
  destruct (ssurgo cfg state "muaggatt" w) as [[muaggatt | e] w1]; [| reflexivity].
  destruct (ssurgo cfg state "component" w1) as [[component | e] w2]; [| reflexivity].
  destruct (pd_merge cfg Outer ["mukey"] default_suffixes muaggatt component)
    as [units | e]; [| reflexivity].
  destruct (ssurgo cfg state "chorizon" w2) as [[chorizon | e] w3]; [| reflexivity].
  destruct (pd_merge cfg Outer ["cokey"] default_suffixes units chorizon)
    as [horizons | e]; reflexivity.
Qed.

Lemma soils_states_loop (cfg : Config) (states : list string) (acc : list DataFrame)
      (w : World) :
  for_each states
    (fun state state_tables =>
       state_table <-
         for_each soil_tables
           (fun tk state_table =>
              let table_name := fst tk in
              let key_field := snd tk in
              table <- ssurgo cfg state table_name ;;
              match state_table with
              | None => ret (Some table)
              | Some state_table =>
                  m <- lift (pd_merge cfg Outer [key_field] default_suffixes
                                      state_table table) ;;
                  ret (Some m)
              end)
           None ;;
       match state_table with
       | Some state_table =>
           ret (state_tables ++ [setitem_scalar state_table "state" (VStr state)])
       | None => raise (TypeError "'NoneType' object does not support item assignment")
       end)%io
    acc w
  = (ts <- map_m (state_soils cfg) states ;; ret (acc ++ ts))%io w.
Proof.
  set (body := fun (state : string) (state_tables : list DataFrame) => _).
  revert acc w. induction states as [| st states IH]; intros acc w.
  - cbn. unfold bind, ret. now rewrite app_nil_r.
  - cbn [for_each map_m].
    assert (B : body st acc w = (t <- state_soils cfg st ;; ret (acc ++ [t]))%io w)
      by apply soils_state_turn.
    unfold bind in *. rewrite B.
    destruct (state_soils cfg st w) as [[t | e] w1]; [| reflexivity].
    unfold ret at 1. rewrite IH.
    destruct (map_m (state_soils cfg) states w1) as [[ts | e] w2]; [| reflexivity].
    unfold ret. now rewrite <- app_assoc.
Qed.

(** The states [soils] works on: the given state when no region is given,
    the states of the region otherwise. *)
Lemma soils_runs_pipeline (cfg : Config) (mode : string) (region state : option string)
      (states : list string) (w : World) :
  match region, state with
  | None, Some st => Some [st]
  | Some r, _ => dict_get (states_nhd cfg) r
  | None, None => None
  end = Some states ->
  soils cfg mode region state w = joined_soils cfg states w.
Proof.
  intros R. unfold soils, joined_soils.
  apply bind_ext. intros [] w0 _.
  assert (S : (match region, state with
               | None, Some state => ret [state]
               | _, _ =>
                   match region with
                   | Some r =>
                       match dict_get (states_nhd cfg) r with
                       | Some l => ret l
                       | None => raise (KeyError r)
                       end
                   | None => raise (KeyError (py_str None))
                   end
               end) w0 = (Ok states, w0)).
  { destruct region as [r |]; [| destruct state as [st |]].
    - destruct state; rewrite R; reflexivity.
    - injection R as <-. reflexivity.
    - discriminate. }
  rewrite (bind_ok _ _ _ _ _ S).
  apply bind_ext. intros valu w1 _.
  unfold bind at 1. rewrite soils_states_loop.
  unfold bind at 1 2. unfold bind at 3.
  destruct (map_m (state_soils cfg) states w1) as [[ts | e] w2]; reflexivity.
Qed.

(** C10.  The argument [mode] does not reach the result of [soils]: two
    calls that differ in it only return the same table, or raise the same
    exception, and leave the same world. *)
Theorem soils_ignores_mode :
  forall (cfg : Config) (mode mode' : string) (region state : option string)
         (w : World),
    soils cfg mode region state w = soils cfg mode' region state w.
Proof.
  intros cfg mode mode' region state w.
  destruct region as [r |], state as [st |]; reflexivity.
Qed.

(* ===================================================================== *)
(** * [crop]: the adjustment of the harvest dates                         *)
(* ===================================================================== *)

Lemma series_gt_int (p h : list Z) :
  series_gt (map VInt p) (map VInt h) = Ok (zip_with Z.gtb p h).
Proof.
  revert h. induction p as [| x p IH]; intros [| y h]; simpl; try reflexivity.
  now rewrite IH.
Qed.

Lemma int64_day_offset (z : Z) : day_offset z -> int64 (z + 365) = (z + 365)%Z.
Proof.
  unfold day_offset, int64, wrap_signed. intros H.
  change (2 ^ (64 - 1))%Z with 9223372036854775808%Z.
  change (2 ^ 64)%Z with 18446744073709551616%Z.
  rewrite Z.mod_small; lia.
Qed.

(** The cells selected by the mask, once 365 is added, written back. *)
Lemma masked_add_365 (p h : list Z) :
  length p = length h -> Forall day_offset h ->
  exists selected,
    rmap (value_add_int int64 365) (keep (zip_with Z.gtb p h) (map VInt h)) = Ok selected
    /\ assign_mask (zip_with Z.gtb p h) selected (map VInt h)
       = map VInt (zip_with adjusted p h).
Proof.
  revert h. induction p as [| x p IH]; intros [| y h] L F; try discriminate.
  - exists []. split; reflexivity.
  - injection L as L. inversion F as [| ? ? Hy F']; subst.
    destruct (IH h L F') as [sel [R A]].
    simpl. unfold adjusted at 1. destruct (x >? y)%Z.
    + exists (VInt (y + 365) :: sel). simpl. rewrite int64_day_offset by exact Hy.
      rewrite R. simpl. split; [reflexivity | now rewrite A].
    + exists sel. split; [exact R | now rewrite A].
Qed.

(** One stage: the harvest column becomes the adjusted one. *)
Lemma adjust_stage_spec (stage : string) (df : DataFrame) (p h : list Z) :
  lookup ("plant_" ++ stage) (columns df) = Some (map VInt p) ->
  lookup ("harvest_" ++ stage) (columns df) = Some (map VInt h) ->
  length p = length h -> Forall day_offset h ->
  adjust_stage stage df
  = Ok (setitem df ("harvest_" ++ stage) (map VInt (zip_with adjusted p h))).
Proof.
  intros Lp Lh Len F. unfold adjust_stage, getitem.
  rewrite Lp, Lh. simpl. rewrite series_gt_int. simpl.
  destruct (masked_add_365 p h Len F) as [sel [R A]].
  rewrite R. simpl. now rewrite A.
Qed.

(** C4.  The adjustment step of [crop], on a table of crop dates whose
    plant and harvest columns hold day offsets: for each of the stages
    begin, end, begin_active and end_active and on every row, the harvest
    offset has grown by 365 when the plant offset was strictly greater, and
    is unchanged otherwise; the plant offsets are unchanged. *)
Theorem harvest_adjustment :
  forall (crop_dates : DataFrame) (plant harvest : string -> list Z),
    well_formed crop_dates = true ->
    (forall stage, In stage crop_stages ->
       lookup ("plant_" ++ stage) (columns crop_dates) = Some (map VInt (plant stage))
       /\ lookup ("harvest_" ++ stage) (columns crop_dates)
          = Some (map VInt (harvest stage))
       /\ Forall day_offset (harvest stage)) ->
    exists adjusted_dates,
      adjust_harvest crop_dates = Ok adjusted_dates
      /\ forall stage, In stage crop_stages ->
           lookup ("plant_" ++ stage) (columns adjusted_dates)
           = Some (map VInt (plant stage))
           /\ lookup ("harvest_" ++ stage) (columns adjusted_dates)
              = Some (map VInt (zip_with adjusted (plant stage) (harvest stage))).
Proof.
  intros crop_dates plant harvest W H0.
  assert (H : forall stage, In stage crop_stages ->
            lookup ("plant_" ++ stage) (columns crop_dates)
            = Some (map VInt (plant stage))
            /\ lookup ("harvest_" ++ stage) (columns crop_dates)
               = Some (map VInt (harvest stage))
            /\ length (plant stage) = length (harvest stage)
            /\ Forall day_offset (harvest stage)).
  { intros stage I. destruct (H0 stage I) as (P & Hv & F).
    repeat split; try assumption.
    apply (well_formed_lookup _ _ _ W) in P, Hv.
    rewrite length_map in P, Hv. congruence. }
  clear H0.
  destruct (H "begin") as (Pb & Hb & Lb & Fb); [simpl; tauto |].
  destruct (H "end") as (Pe & He & Le & Fe); [simpl; tauto |].
  destruct (H "begin_active") as (Pba & Hba & Lba & Fba); [simpl; tauto |].
  destruct (H "end_active") as (Pea & Hea & Lea & Fea); [simpl; tauto |].
  unfold adjust_harvest, crop_stages. cbn [rfor].
  rewrite (adjust_stage_spec "begin" _ _ _ Pb Hb Lb Fb). cbn [rbind].
  rewrite (adjust_stage_spec "end" _ (plant "end") (harvest "end"));
    [| rewrite lookup_setitem; assumption .. | assumption | assumption].
  cbn [rbind].
  rewrite (adjust_stage_spec "begin_active" _ (plant "begin_active")
                             (harvest "begin_active"));
    [| rewrite !lookup_setitem; assumption .. | assumption | assumption].
  cbn [rbind].
  rewrite (adjust_stage_spec "end_active" _ (plant "end_active")
                             (harvest "end_active"));
    [| rewrite !lookup_setitem; assumption .. | assumption | assumption].
  cbn [rbind]. eexists. split; [reflexivity |].
  intros stage [<- | [<- | [<- | [<- | []]]]]; split;
    rewrite !lookup_setitem; first [assumption | reflexivity].
Qed.

(* ===================================================================== *)
(** * [crop]: the conversion of the dates                                 *)
(* ===================================================================== *)

Lemma read_fields_world (cfg : Config) (path item col : string) (w : World) :
  snd (read_fields cfg path item col w) = mkWorld (reads w ++ [path]) (fields w).
Proof.
  unfold read_fields, bind, get_fields. apply read_csv_reads.
Qed.

(** The body of the date loop raises on every field and every table. *)
Lemma convert_date_raises (field : string) (crop_dates : DataFrame) (w : World) :
  convert_date field crop_dates w
  = (Raise (match lookup field (columns crop_dates) with
            | Some _ => NameError "date_fmt"
            | None => KeyError field
            end), w).
Proof.
  unfold convert_date, bind, lift, raise, getitem.
  now destruct (lookup field (columns crop_dates)).
Qed.

Lemma date_loop_raises (field : string) (l : list string) (crop_dates : DataFrame)
      (w : World) :
  for_each (field :: l) convert_date crop_dates w
  = (Raise (match lookup field (columns crop_dates) with
            | Some _ => NameError "date_fmt"
            | None => KeyError field
            end), w).
Proof.
  cbn [for_each]. unfold bind. now rewrite convert_date_raises.
Qed.

(** C3, on the code.  On every region, in every world where the field
    manager lists at least one date field, [crop] raises: either a table cannot be read, or
    the loop over the date fields raises on its first field, with
    [NameError] for [date_fmt] when the field is a column of the crop
    dates.  No table is returned. *)
Theorem crop_never_returns :
  forall (cfg : Config) (region : string) (w : World),
    fetch (refresh_fields cfg (fields w)) "date" "internal_name" <> [] ->
    exists e w', crop cfg region w = (Raise e, w').
Proof.
  intros cfg region w NE. unfold crop.
  unfold bind at 1. cbn [refresh].
  set (w0 := mkWorld (reads w) (refresh_fields cfg (fields w))).
  unfold bind at 1.
  destruct (read_fields cfg (crop_group_path cfg) "CropGroups" "internal_name" w0)
    as [[crop_index | e] w1] eqn:E1; [| eauto].
  unfold bind at 1.
  destruct (read_fields cfg (crop_params_path cfg) "CropParams" "external_name" w1)
    as [[crop_params | e] w2] eqn:E2; [| eauto].
  unfold bind at 1.
  destruct (read_fields cfg (crop_dates_path cfg) "CropDates" "internal_name" w2)
    as [[crop_dates | e] w3] eqn:E3; [| eauto].
  assert (F : fields w3 = refresh_fields cfg (fields w)).
  { apply (f_equal snd) in E1, E2, E3. rewrite read_fields_world in E1, E2, E3.
    simpl in E1, E2, E3. subst w3 w2 w1. reflexivity. }
  unfold bind at 1. cbn [get_fields]. unfold bind at 1. rewrite F.
  destruct (fetch (refresh_fields cfg (fields w)) "date" "internal_name")
    as [| field l]; [congruence |].
  rewrite date_loop_raises. eauto.
Qed.

(* ===================================================================== *)
(** * Strings                                                             *)
(* ===================================================================== *)

Lemma endswith_spec (s suf : string) :
  endswith s suf = true -> exists pre, s = (pre ++ suf)%string.
Proof.
  induction s as [| a s IH].
  - destruct suf; simpl; [| discriminate]. intros _. now exists EmptyString.
  - cbn [endswith]. destruct (String.eqb_spec (String a s) suf) as [E | N].
    + intros _. exists EmptyString. now rewrite E.
    + intros H. destruct (IH H) as [pre ->]. now exists (String a pre).
Qed.

(** On a name that ends in [temp_f], [rstrip('_f')] removes the two
    characters [_f] and nothing more: the [p] before them is not in the
    set. *)
Lemma rstrip_temp_f (pre : string) :
  rstrip "_f" (pre ++ "temp_f") = (pre ++ "temp")%string.
Proof.
  induction pre as [| a pre IH]; [reflexivity |].
  change (String a pre ++ "temp_f")%string with (String a (pre ++ "temp_f")).
  cbn [rstrip]. rewrite IH. now destruct pre.
Qed.

Lemma append_assoc (a b c : string) :
  ((a ++ b) ++ c)%string = (a ++ (b ++ c))%string.
Proof. induction a as [| x a IH]; simpl; [reflexivity | now rewrite IH]. Qed.

Lemma append_length (s t : string) :
  String.length (s ++ t) = String.length s + String.length t.
Proof. induction s as [| a s IH]; simpl; [reflexivity | now rewrite IH]. Qed.

Lemma append_inj_r (s s' t : string) :
  (s ++ t)%string = (s' ++ t)%string -> s = s'.
Proof.
  revert s'. induction s as [| a s IH]; intros [| a' s'] H; simpl in H.
  - reflexivity.
  - apply (f_equal String.length) in H. simpl in H. rewrite append_length in H. lia.
  - apply (f_equal String.length) in H. simpl in H. rewrite append_length in H. lia.
  - injection H as -> H. f_equal. now apply IH.
Qed.

Lemma temp_f_name (c : string) :
  endswith c "temp_f" = true -> c = (rstrip "_f" c ++ "_f")%string.
Proof.
  intros H. apply endswith_spec in H. destruct H as [pre ->].
  rewrite rstrip_temp_f. now rewrite append_assoc.
Qed.

Lemma rstrip_temp_f_inj (c c' : string) :
  endswith c "temp_f" = true -> endswith c' "temp_f" = true ->
  rstrip "_f" c = rstrip "_f" c' -> c = c'.
Proof.
  intros H H' E. rewrite (temp_f_name c H), (temp_f_name c' H'). now rewrite E.
Qed.

(* ===================================================================== *)
(** * [gdd]: conversion of the Fahrenheit columns                         *)
(* ===================================================================== *)

Lemma fahrenheit_to_celsius_numeric (s : Series) :
  forallb is_numeric s = true -> fahrenheit_to_celsius s = Ok (map celsius s).
Proof.
  unfold fahrenheit_to_celsius, series_float_op. intros H.
  assert (S : rmap (fun v => match to_float v with
                             | Some f => Ok (VFloat (f - 32)%float)
                             | None => Raise (TypeError "unsupported operand type(s)")
                             end) s
              = Ok (map (fun v => match to_float v with
                                  | Some f => VFloat (f - 32)%float
                                  | None => v
                                  end) s)).
  { induction s as [| v s IH]; simpl in *; [reflexivity |].
    apply andb_prop in H. destruct H as [Hv Hs]. unfold is_numeric in Hv.
    destruct (to_float v); [| discriminate]. simpl. now rewrite IH. }
  rewrite S. simpl. clear S.
  induction s as [| v s IH]; simpl in *; [reflexivity |].
  apply andb_prop in H. destruct H as [Hv Hs]. unfold is_numeric in Hv.
  unfold celsius at 1. destruct (to_float v); [| discriminate]. simpl.
  now rewrite IH.
Qed.

Lemma lookup_filter_names (q : string -> bool) (c : string)
      (cols : list (string * Series)) :
  lookup c (filter (fun p => q (fst p)) cols) = if q c then lookup c cols else None.
Proof.
  induction cols as [| [c0 s0] cols IH]; simpl.
  - now destruct (q c).
  - destruct (q c0) eqn:Q0; simpl; destruct (String.eqb_spec c c0) as [-> | N].
    + now rewrite Q0.
    + exact IH.
    + rewrite IH. now rewrite Q0.
    + exact IH.
Qed.

Lemma names_filter_incl (f : string * Series -> bool) (cols : list (string * Series))
      (c : string) :
  In c (map fst (filter f cols)) -> In c (map fst cols).
Proof.
  rewrite !in_map_iff. intros [p [E I]]. apply filter_In in I. exists p. tauto.
Qed.

Lemma remove_col_middle (c : string) (s : Series) (a b : list (string * Series)) :
  ~ In c (map fst a) -> remove_col c (a ++ (c, s) :: b) = a ++ b.
Proof.
  induction a as [| [c0 s0] a IH]; simpl; intros H.
  - now rewrite String.eqb_refl.
  - destruct (String.eqb_spec c c0) as [-> | N]; [tauto |].
    rewrite IH; tauto.
Qed.

Lemma lookup_middle (c : string) (s : Series) (a b : list (string * Series)) :
  ~ In c (map fst a) -> lookup c (a ++ (c, s) :: b) = Some s.
Proof.
  intros H. rewrite lookup_app. apply lookup_None_names in H. rewrite H.
  simpl. now rewrite String.eqb_refl.
Qed.

Lemma lookup_renamed (c : string) (s : Series) (l : list (string * Series)) :
  lookup c l = Some s -> endswith c "temp_f" = true ->
  lookup (rstrip "_f" c)
         (map (fun p => (rstrip "_f" (fst p), map celsius (snd p)))
              (filter is_temp_f l))
  = Some (map celsius s).
Proof.
  intros L T. induction l as [| [c0 s0] l IH]; [discriminate |].
  simpl in L. cbn [filter]. unfold is_temp_f at 1. cbn [fst].
  destruct (String.eqb_spec c c0) as [<- | N].
  - injection L as <-. rewrite T. simpl. now rewrite String.eqb_refl.
  - specialize (IH L).
    destruct (endswith c0 "temp_f") eqn:T0; [| exact IH].
    simpl. destruct (String.eqb_spec (rstrip "_f" c) (rstrip "_f" c0)) as [R | R].
    + exfalso. apply N. now apply rstrip_temp_f_inj.
    + exact IH.
Qed.

Section Conversion.

(** The columns of the table read from the file. *)
Variable cols : list (string * Series).
Hypothesis cols_NoDup : NoDup (map fst cols).
Hypothesis cols_numeric :
  forall p, In p cols -> is_temp_f p = true -> forallb is_numeric (snd p) = true.
Hypothesis cols_fresh :
  forall p, In p cols -> is_temp_f p = true ->
            ~ In (rstrip "_f" (fst p)) (map fst cols).

Lemma converted_names_fresh (pre rest : list (string * Series)) (p : string * Series) :
  cols = pre ++ p :: rest -> is_temp_f p = true ->
  ~ In (rstrip "_f" (fst p)) (map fst (kept pre ++ rest ++ converted pre)).
Proof.
  intros E T. rewrite !map_app, !in_app_iff.
  assert (Hp : In p cols) by (rewrite E; apply in_elt).
  pose proof (cols_fresh p Hp T) as Fr.
  intros [I | [I | I]].
  - apply Fr. apply names_filter_incl in I. rewrite E, map_app, in_app_iff. tauto.
  - apply Fr. rewrite E, map_app, in_app_iff. right. now right.
  - unfold converted in I. rewrite map_map in I. simpl in I.
    apply in_map_iff in I. destruct I as [p' [E' I']].
    apply filter_In in I'. destruct I' as [I' T'].
    assert (fst p' = fst p) by (apply rstrip_temp_f_inj; auto).
    rewrite E, map_app in cols_NoDup. simpl in cols_NoDup.
    apply NoDup_remove_2 in cols_NoDup. apply cols_NoDup.
    rewrite in_app_iff. left. rewrite <- H. now apply in_map.
Qed.

(** The loop of [gdd] after the columns [pre], before the columns
    [rest]. *)
Lemma gdd_loop (n : nat) (rest pre : list (string * Series)) :
  cols = pre ++ rest ->
  rfor (map fst rest) gdd_convert (mkDF n (kept pre ++ rest ++ converted pre))
  = Ok (mkDF n (kept cols ++ converted cols)).
Proof.
  revert pre. induction rest as [| [c s] rest IH]; intros pre E.
  - simpl. rewrite E, app_nil_r. reflexivity.
  - assert (Hp : In (c, s) cols) by (rewrite E; apply in_elt).
    assert (Nc : ~ In c (map fst (kept pre))).
    { intros I. apply names_filter_incl in I.
      rewrite E, map_app in cols_NoDup. simpl in cols_NoDup.
      apply NoDup_remove_2 in cols_NoDup. apply cols_NoDup.
      rewrite in_app_iff. now left. }
    assert (E' : cols = (pre ++ [(c, s)]) ++ rest)
      by (rewrite <- app_assoc; exact E).
    cbn [map rfor fst]. unfold gdd_convert at 1. rewrite <- app_comm_cons.
    destruct (endswith c "temp_f") eqn:T.
    + unfold pop, getitem. cbn [columns nrows].
      rewrite lookup_middle by exact Nc. cbn [rbind fst snd].
      rewrite fahrenheit_to_celsius_numeric by (apply (cols_numeric (c, s)); auto).
      cbn [rbind]. rewrite remove_col_middle by exact Nc.
      unfold setitem. cbn [columns nrows names].
      pose proof (converted_names_fresh pre rest (c, s) E T) as Fr.
      apply has_name_not_In in Fr. cbn [fst] in Fr.
      unfold names. cbn [columns]. rewrite Fr.
      specialize (IH (pre ++ [(c, s)]) E').
      unfold kept, converted in IH. rewrite !filter_app in IH. simpl in IH.
      unfold is_temp_f at 2 4 in IH. simpl in IH. rewrite T in IH. simpl in IH.
      rewrite app_nil_r, map_app in IH. simpl in IH.
      unfold kept, converted. rewrite <- IH. now rewrite <- !app_assoc.
    + cbn [rbind].
      specialize (IH (pre ++ [(c, s)]) E').
      unfold kept, converted in IH. rewrite !filter_app in IH. simpl in IH.
      unfold is_temp_f at 2 4 in IH. simpl in IH. rewrite T in IH. simpl in IH.
      rewrite app_nil_r in IH.
      unfold kept, converted. rewrite <- IH. now rewrite <- !app_assoc.
Qed.

Lemma gdd_loop_all (n : nat) :
  rfor (map fst cols) gdd_convert (mkDF n cols) = Ok (gdd_converted (mkDF n cols)).
Proof.
  pose proof (gdd_loop n cols [] eq_refl) as H. simpl in H.
  rewrite app_nil_r in H. exact H.
Qed.

(** The columns of the converted table, by name. *)
Lemma lookup_converted_kept (c : string) (s : Series) :
  lookup c cols = Some s -> endswith c "temp_f" = false ->
  lookup c (kept cols ++ converted cols) = Some s.
Proof.
  intros L T. rewrite lookup_app. unfold kept, is_temp_f.
  rewrite (lookup_filter_names (fun c => negb (endswith c "temp_f"))).
  now rewrite T, L.
Qed.

Lemma lookup_converted_new (c : string) (s : Series) :
  lookup c cols = Some s -> endswith c "temp_f" = true ->
  lookup (rstrip "_f" c) (kept cols ++ converted cols) = Some (map celsius s)
  /\ lookup c (kept cols ++ converted cols) = None.
Proof.
  intros L T.
  assert (Hp : In (c, s) cols) by now apply lookup_In.
  pose proof (cols_fresh (c, s) Hp T) as Fr. cbn [fst] in Fr.
  split.
  - rewrite lookup_app.
    assert (K : lookup (rstrip "_f" c) (kept cols) = None).
    { apply lookup_None_names. intros I. apply Fr.
      now apply names_filter_incl in I. }
    rewrite K. now apply lookup_renamed.
  - apply lookup_None_names. rewrite map_app, in_app_iff. intros [I | I].
    + apply in_map_iff in I. destruct I as [p [E I]]. apply filter_In in I.
      destruct I as [_ I]. unfold is_temp_f in I. rewrite E, T in I. discriminate.
    + unfold converted in I. rewrite map_map in I. simpl in I.
      apply in_map_iff in I. destruct I as [p [E I]]. apply filter_In in I.
      destruct I as [I T']. apply (in_map fst) in Hp. cbn [fst] in Hp.
      rewrite <- E in Hp. exact (cols_fresh p I T' Hp).
Qed.

Lemma converted_length : length (kept cols ++ converted cols) = length cols.
Proof.
  unfold kept, converted. rewrite length_app, length_map.
  clear. induction cols as [| p l IH]; simpl; [reflexivity |].
  destruct (is_temp_f p); simpl; lia.
Qed.

End Conversion.

(* ===================================================================== *)
(** * [gdd]: the rows dropped                                             *)
(* ===================================================================== *)

Lemma map_const_seq {A : Type} (x : A) (a n : nat) :
  map (fun _ => x) (seq a n) = repeat x n.
Proof.
  revert a. induction n as [| n IH]; intros a; simpl; [reflexivity |].
  now rewrite IH.
Qed.

Lemma zip_with_by_row {A B C : Type} (f : B -> C -> C) (g : A -> B) (d : A)
      (s : list A) (h : nat -> C) :
  zip_with f (map g s) (map h (seq 0 (length s)))
  = map (fun i => f (g (nth i s d)) (h i)) (seq 0 (length s)).
Proof.
  revert h. induction s as [| v s IH]; intros h; [reflexivity |].
  cbn [length]. rewrite <- cons_seq, <- seq_shift. cbn [map zip_with nth].
  rewrite !map_map. f_equal. apply (IH (fun i => h (S i))).
Qed.

(** The mask of [dropna], row by row. *)
Lemma complete_rows_by_row (n : nat) (cols : list Series) :
  Forall (fun s => length s = n) cols ->
  complete_rows n cols = map (row_complete cols) (seq 0 n).
Proof.
  unfold complete_rows. induction 1 as [| s cols Hs _ IH]; simpl.
  - symmetry. apply (map_const_seq true).
  - rewrite IH. subst n. apply (zip_with_by_row andb notna NaN).
Qed.

Lemma nodupb_NoDup (l : list string) : nodupb l = true -> NoDup l.
Proof.
  induction l as [| c l IH]; simpl; [constructor |].
  intros H. apply andb_prop in H. destruct H as [H1 H2].
  constructor; [| auto]. apply has_name_not_In. now destruct (has_name c l).
Qed.

(** A table read with the default options is the table the parser built;
    it is rectangular and its column names are distinct. *)
Lemma read_csv_default (cfg : Config) (path : string) (w w' : World) (t : DataFrame) :
  read_csv cfg path default_opts w = (Ok t, w') ->
  read_table cfg path default_opts = Ok t
  /\ well_formed t = true /\ NoDup (names t)
  /\ w' = mkWorld (reads w ++ [path]) (fields w).
Proof.
  intros H. apply read_csv_Ok in H. destruct H as [-> [t0 [R C]]].
  unfold read_csv_contract in C. simpl in C.
  destruct (well_formed t0 && nodupb (names t0)) eqn:W; simpl in C; [| discriminate].
  injection C as <-. apply andb_prop in W. destruct W as [W N].
  repeat split; auto using nodupb_NoDup.
Qed.

Lemma rmap_getitem_present (df : DataFrame) (l : list string) :
  (forall c, In c l -> In c (names df)) ->
  exists cols, rmap (getitem df) l = Ok cols
               /\ Forall2 (fun c s => lookup c (columns df) = Some s) l cols.
Proof.
  induction l as [| c l IH]; intros H.
  - exists []. split; [reflexivity | constructor].
  - destruct IH as [cols [R F]]; [intros; apply H; now right |].
    destruct (lookup c (columns df)) as [s |] eqn:L.
    + exists (s :: cols). simpl. unfold getitem at 1. rewrite L. simpl. rewrite R.
      split; [reflexivity | now constructor].
    + exfalso. apply lookup_None_names in L. apply L. apply H. now left.
Qed.

Lemma lookups_length (df : DataFrame) (l : list string) (cols : list Series) (n : nat) :
  (forall c s, lookup c (columns df) = Some s -> length s = n) ->
  Forall2 (fun c s => lookup c (columns df) = Some s) l cols ->
  Forall (fun s => length s = n) cols.
Proof.
  intros H F. induction F as [| c s l cols Hc _ IH]; constructor; eauto.
Qed.

Lemma gdd_converted_length (t : DataFrame) :
  well_formed t = true ->
  forall c s, lookup c (columns (gdd_converted t)) = Some s -> length s = nrows t.
Proof.
  unfold well_formed. rewrite forallb_forall. intros W c s L.
  apply lookup_In in L. unfold gdd_converted in L. cbn [columns] in L.
  apply in_app_iff in L. destruct L as [I | I].
  - apply filter_In in I. destruct I as [I _].
    specialize (W _ I). now apply Nat.eqb_eq in W.
  - apply in_map_iff in I. destruct I as [[c0 s0] [E I]]. injection E as _ <-.
    apply filter_In in I. destruct I as [I _]. rewrite length_map.
    specialize (W _ I). now apply Nat.eqb_eq in W.
Qed.

(** C6, amended.  When the table read from the file has numeric cells in
    its columns named [...temp_f], no column that already bears the name
    such a column takes, and the four growing degree day columns once the
    columns are renamed, [gdd] returns: each column named [...temp_f] has
    become a column of the name without [_f] holding (v - 32) * (5 / 9) for
    each cell v, the other columns are as read, and exactly the rows with a
    missing cell in emergence_gdd, maxcover_gdd, emergence_base_temp or
    maxcover_base_temp are gone. *)
Theorem gdd_converts_and_drops :
  forall (cfg : Config) (w w' : World) (t : DataFrame),
    read_csv cfg (gdd_input_path cfg) default_opts w = (Ok t, w') ->
    (forall c s, In (c, s) (columns t) -> endswith c "temp_f" = true ->
                 forallb is_numeric s = true) ->
    (forall c, In c (names t) -> endswith c "temp_f" = true ->
               ~ In (rstrip "_f" c) (names t)) ->
    (forall c, In c gdd_subset -> In c (names (gdd_converted t))) ->
    exists out, gdd cfg false w = (Ok out, w') /\ gdd_statement t (Ok out).
Proof.
  intros cfg w w' [n cols] R Hnum Hfresh Hsub.
  destruct (read_csv_default _ _ _ _ _ R) as (_ & W & ND & _).
  unfold names in ND, Hfresh. cbn [columns] in *.
  assert (Hnum' : forall p, In p cols -> is_temp_f p = true ->
                            forallb is_numeric (snd p) = true).
  { intros [c s] I T. exact (Hnum c s I T). }
  assert (Hfresh' : forall p, In p cols -> is_temp_f p = true ->
                              ~ In (rstrip "_f" (fst p)) (map fst cols)).
  { intros [c s] I T. apply (Hfresh c); [now apply (in_map fst) in I | exact T]. }
  set (mid := gdd_converted (mkDF n cols)).
  destruct (rmap_getitem_present mid gdd_subset Hsub) as [cols4 [R4 F4]].
  assert (L4 : Forall (fun s => length s = n) cols4).
  { apply (lookups_length mid gdd_subset); [| exact F4].
    intros c s L. now apply (gdd_converted_length (mkDF n cols) W c s). }
  exists (filter_rows (map (row_complete cols4) (seq 0 n)) mid). split.
  - unfold gdd. cbn [negb]. unfold bind at 1. unfold bind at 1. rewrite R.
    unfold lift, names. cbn [columns].
    rewrite (gdd_loop_all cols ND Hnum' Hfresh' n).
    unfold dropna. fold mid. rewrite R4. cbn [rbind].
    unfold mid at 1. cbn [nrows gdd_converted].
    now rewrite (complete_rows_by_row n cols4 L4).
  - exists mid, cols4. unfold mid at 1 2 3 4 5. cbn [nrows columns gdd_converted].
    split; [reflexivity |]. split; [| split; [| split; [| split]]].
    + intros stem s L T.
      rewrite (append_inj_r stem (rstrip "_f" (stem ++ "_f")) "_f") at 1
        by now apply temp_f_name.
      now apply lookup_converted_new.
    + intros c s L T. now apply lookup_converted_kept.
    + apply converted_length.
    + exact R4.
    + reflexivity.
Qed.

(* ===================================================================== *)
(** * Reshaping                                                           *)
(* ===================================================================== *)

Lemma lookup_remove_col_other (c c' : string) (cols : list (string * Series)) :
  c <> c' -> lookup c (remove_col c' cols) = lookup c cols.
Proof.
  intros N. induction cols as [| [c0 s0] cols IH]; simpl; [reflexivity |].
  destruct (String.eqb_spec c' c0) as [-> | N0]; simpl.
  - destruct (String.eqb_spec c c0); [congruence | reflexivity].
  - now rewrite IH.
Qed.

Lemma lookup_remove_col_same (c : string) (cols : list (string * Series)) :
  NoDup (map fst cols) -> lookup c (remove_col c cols) = None.
Proof.
  induction cols as [| [c0 s0] cols IH]; simpl; intros ND; [reflexivity |].
  inversion ND as [| ? ? NI ND']; subst.
  destruct (String.eqb_spec c c0) as [-> | N0]; simpl.
  - now apply lookup_None_names.
  - destruct (String.eqb_spec c c0); [congruence | auto].
Qed.

Lemma remove_col_length (c : string) (n : nat) (cols : list (string * Series)) :
  Forall (fun p => length (snd p) = n) cols ->
  Forall (fun p => length (snd p) = n) (remove_col c cols).
Proof.
  induction 1 as [| [c0 s0] cols H F IH]; simpl; [constructor |].
  destruct (String.eqb c c0); [assumption | now constructor].
Qed.

Lemma replace_col_length (c : string) (s : Series) (n : nat)
      (cols : list (string * Series)) :
  length s = n ->
  Forall (fun p => length (snd p) = n) cols ->
  Forall (fun p => length (snd p) = n) (replace_col c s cols).
Proof.
  intros Hs. induction 1 as [| [c0 s0] cols H _ IH]; simpl; constructor; auto.
  now destruct (String.eqb c c0).
Qed.

Lemma names_remove_col (c : string) (cols : list (string * Series)) :
  map fst (remove_col c cols) = remove_col_name c (map fst cols).
Proof.
  induction cols as [| [c0 s0] cols IH]; simpl; [reflexivity |].
  destruct (String.eqb c c0); simpl; [reflexivity | now rewrite IH].
Qed.

Lemma pad_full (n : nat) (cols : list (string * Series)) :
  Forall (fun p => length (snd p) = n) cols ->
  map (fun p => (fst p, pad n (snd p))) cols = cols.
Proof.
  induction 1 as [| [c s] cols H _ IH]; simpl; [reflexivity |].
  rewrite IH. unfold pad. simpl in H. rewrite H, Nat.sub_diag. simpl.
  now rewrite app_nil_r.
Qed.

Lemma lookup_combine (names : list string) (cols : list Series) (j : nat)
      (c : string) (s : Series) :
  NoDup names -> nth_error names j = Some c -> nth_error cols j = Some s ->
  lookup c (combine names cols) = Some s.
Proof.
  revert cols j. induction names as [| c0 names IH]; intros cols j ND Hc Hs.
  - destruct j; discriminate.
  - inversion ND as [| ? ? NI ND']; subst.
    destruct cols as [| s0 cols]; [destruct j; discriminate |].
    destruct j as [| j]; simpl in *.
    + injection Hc as ->. injection Hs as ->. now rewrite String.eqb_refl.
    + destruct (String.eqb_spec c c0) as [-> | _].
      * exfalso. apply NI. eapply nth_error_In; eauto.
      * eapply IH; eauto.
Qed.

Lemma names_combine (names : list string) (cols : list Series) :
  length names = length cols -> map fst (combine names cols) = names.
Proof.
  revert cols. induction names as [| c names IH]; intros [| s cols] H;
    simpl in *; try discriminate; [reflexivity |].
  f_equal. apply IH. lia.
Qed.

Lemma combine_length_all (names : list string) (cols : list Series) (n : nat) :
  Forall (fun s => length s = n) cols ->
  Forall (fun p => length (snd p) = n) (combine names cols).
Proof.
  intros F. revert names. induction F as [| s cols H _ IH]; intros [| c names];
    simpl; constructor; auto.
Qed.

Lemma tile_length (k : nat) (s : Series) : length (tile k s) = length s * k.
Proof.
  unfold tile. induction k as [| k IH]; simpl; [lia |].
  rewrite length_app, IH. lia.
Qed.

Lemma lookup_map_snd (g : Series -> Series) (c : string) (cols : list (string * Series)) :
  lookup c (map (fun p => (fst p, g (snd p))) cols) = option_map g (lookup c cols).
Proof.
  induction cols as [| [c0 s0] cols IH]; simpl; [reflexivity |].
  destruct (String.eqb c c0); [reflexivity | exact IH].
Qed.

Lemma names_map_snd (g : Series -> Series) (cols : list (string * Series)) :
  map fst (map (fun p => (fst p, g (snd p))) cols) = map fst cols.
Proof.
  induction cols as [| [c s] cols IH]; simpl; [reflexivity | now rewrite IH].
Qed.

Lemma rmap_named_lookup (df : DataFrame) (ids : list string) :
  (forall c, In c ids -> In c (names df)) ->
  exists idcols,
    rmap (fun c => s <~ getitem df c ;; Ok (c, s))%result ids = Ok idcols
    /\ map fst idcols = ids
    /\ (forall c, In c ids -> lookup c idcols = lookup c (columns df))
    /\ Forall (fun p => lookup (fst p) (columns df) = Some (snd p)) idcols.
Proof.
  induction ids as [| c ids IH]; intros H.
  - exists []. repeat split; [intros c [] | constructor].
  - destruct IH as [idcols [R [N [L F]]]]; [intros; apply H; now right |].
    destruct (lookup c (columns df)) as [s |] eqn:Lc.
    + exists ((c, s) :: idcols). simpl. unfold getitem at 1. rewrite Lc. simpl.
      rewrite R. simpl. split; [reflexivity |]. split; [now rewrite N |].
      split; [| now constructor].
      intros c' [<- | I].
      * now rewrite String.eqb_refl.
      * destruct (String.eqb_spec c' c) as [-> | _]; [now rewrite Lc | auto].
    + exfalso. apply lookup_None_names in Lc. apply Lc. apply H. now left.
Qed.

Lemma flat_map_repeat_length {A B : Type} (f : A -> B) (n : nat) (l : list A) :
  length (flat_map (fun d => repeat (f d) n) l) = n * length l.
Proof.
  induction l as [| d l IH]; simpl; [lia |].
  rewrite length_app, repeat_length, IH. lia.
Qed.

Lemma concat_uniform_length (n : nat) (l : list Series) :
  Forall (fun s => length s = n) l -> length (concat l) = n * length l.
Proof.
  induction 1 as [| s l H _ IH]; simpl; [lia |].
  rewrite length_app, H, IH. lia.
Qed.

(** [melt] on a frame that has the columns asked for: the result, column
    by column. *)
Lemma melt_spec (df : DataFrame) (ids vals : list string) (var value : string) :
  well_formed df = true ->
  ~ In value (names df) -> ~ In var ids -> var <> value ->
  (forall c, In c ids -> In c (names df)) ->
  (forall c, In c vals -> In c (names df)) ->
  exists out valcols,
    melt df ids vals var value = Ok out
    /\ nrows out = nrows df * length vals
    /\ Forall (fun p => length (snd p) = nrows df * length vals) (columns out)
    /\ (forall c, In c ids ->
          lookup c (columns out)
          = option_map (tile (length vals)) (lookup c (columns df)))
    /\ (forall c, ~ In c ids -> c <> var -> c <> value -> lookup c (columns out) = None)
    /\ lookup var (columns out)
       = Some (flat_map (fun v => repeat (VStr v) (nrows df)) vals)
    /\ Forall2 (fun d s => lookup d (columns df) = Some s) vals valcols
    /\ lookup value (columns out) = Some (concat valcols).
Proof.
  intros W Hvalue Hvar Hvv Hids Hvals.
  destruct (rmap_named_lookup df ids Hids) as [idcols [Rid [Nid [Lid Fid]]]].
  destruct (rmap_getitem_present df vals Hvals) as [valcols [Rval Fval]].
  assert (Lv : Forall (fun s => length s = nrows df) valcols).
  { apply (lookups_length df vals); [| exact Fval].
    intros c s. now apply well_formed_lookup. }
  assert (Nt : forall c, ~ In c ids ->
                 lookup c (map (fun p => (fst p, tile (length vals) (snd p))) idcols)
                 = None).
  { intros c NI. apply lookup_None_names. now rewrite names_map_snd, Nid. }
  eexists. exists valcols. unfold melt.
  apply has_name_not_In in Hvalue. rewrite Hvalue, Rid, Rval. cbn [rbind].
  split; [reflexivity |]. cbn [nrows columns].
  split; [reflexivity |]. split; [| split; [| split; [| split; [| split]]]].
  - apply Forall_app. split.
    + apply Forall_forall. intros [c s] I. apply in_map_iff in I.
      destruct I as [[c0 s0] [E I]]. injection E as <- <-. simpl.
      rewrite tile_length. f_equal.
      rewrite Forall_forall in Fid. specialize (Fid _ I).
      now apply (well_formed_lookup df c0 s0 W).
    + repeat constructor; simpl.
      * rewrite flat_map_repeat_length. reflexivity.
      * rewrite (concat_uniform_length (nrows df)) by exact Lv.
        apply Forall2_length in Fval. now rewrite Fval.
  - intros c I. rewrite lookup_app, lookup_map_snd, (Lid c I).
    destruct (lookup c (columns df)) as [s |] eqn:L; [reflexivity |].
    exfalso. apply lookup_None_names in L. auto.
  - intros c NI Nv Nval. rewrite lookup_app, (Nt c NI). simpl.
    destruct (String.eqb_spec c var); [congruence |].
    destruct (String.eqb_spec c value); [congruence | reflexivity].
  - rewrite lookup_app, (Nt var Hvar). simpl. now rewrite String.eqb_refl.
  - exact Fval.
  - rewrite lookup_app, Nt.
    + simpl. destruct (String.eqb_spec value var); [congruence |].
      now rewrite String.eqb_refl.
    + intros I. apply has_name_not_In in Hvalue. apply Hvalue. now apply Hids.
Qed.

(* ===================================================================== *)
(** * [pwc_outfile]                                                       *)
(* ===================================================================== *)

Lemma list_max_reached {A : Type} (f : A -> nat) (m : nat) (l : list A) :
  Forall (fun x => f x <= m) l -> Exists (fun x => f x = m) l ->
  list_max (map f l) = m.
Proof.
  intros F E. apply Nat.le_antisymm.
  - apply list_max_le. now apply Forall_map.
  - clear F. induction E as [x l Hx | x l _ IH]; simpl; lia.
Qed.

(** Identifiers of at most [m] parts, one of them of [m] parts, give [m]
    columns, the [j]-th holding the [j]-th part of each identifier, or
    [None] where the identifier is shorter. *)
Lemma str_split_columns (ids : list string) (m : nat) :
  Forall (fun r => length (split "_" r) <= m) ids ->
  Exists (fun r => length (split "_" r) = m) ids ->
  str_split_expand "_" (map VStr ids)
  = Ok (map (fun j => map (fun r => part j (Some (split "_" r))) ids) (seq 0 m)).
Proof.
  intros F E. unfold str_split_expand.
  assert (A : has_str_accessor (map VStr ids) = true)
    by (destruct E; reflexivity).
  rewrite A, !map_map. cbn [split_cell].
  rewrite (list_max_reached (fun r => length (split "_" r)) m ids F E).
  f_equal. apply map_ext. intros j. now rewrite map_map.
Qed.

Lemma astype_int32 (lines : list Z) :
  astype Int32 (map VInt lines) = Ok (map VInt (map int32 lines)).
Proof.
  unfold astype. induction lines as [| z l IH]; simpl; [reflexivity |].
  now rewrite IH.
Qed.

Lemma int32_line_number (z : Z) : line_number z -> int32 (int32 z + -1) = (z - 1)%Z.
Proof.
  unfold line_number, int32, wrap_signed. intros H.
  change (2 ^ (32 - 1))%Z with 2147483648%Z in *.
  change (2 ^ 32)%Z with 4294967296%Z in *.
  change (2 ^ 31)%Z with 2147483648%Z in *.
  rewrite (Z.mod_small (z + _)) by lia. rewrite Z.mod_small; lia.
Qed.

Lemma decrement_lines (lines : list Z) :
  Forall line_number lines ->
  rmap (value_add_int int32 (-1)) (map VInt (map int32 lines))
  = Ok (map (fun z => VInt (z - 1)) lines).
Proof.
  induction 1 as [| z l H _ IH]; simpl; [reflexivity |].
  rewrite IH. simpl. now rewrite int32_line_number.
Qed.

Lemma map_length_all {A : Type} (f : nat -> A -> value) (l : list A) (js : list nat) :
  Forall (fun s => length s = length l) (map (fun j => map (f j) l) js).
Proof.
  apply Forall_forall. intros s I. apply in_map_iff in I.
  destruct I as [j [<- _]]. apply length_map.
Qed.

Lemma read_csv_named (cfg : Config) (path : string) (header : list string)
      (delimiter : option string) (w w' : World) (t : DataFrame) :
  read_csv cfg path (mkOpts (Some header) delimiter None InferDtype None) w = (Ok t, w') ->
  names t = header /\ well_formed t = true /\ NoDup (names t).
Proof.
  intros H. apply read_csv_Ok in H. destruct H as [_ [t0 [_ C]]].
  unfold read_csv_contract in C. cbn [opt_names opt_usecols opt_nrows opt_dtype] in C.
  destruct (well_formed t0 && nodupb (names t0)) eqn:W; simpl in C; [| discriminate].
  unfold list_eqb in C. destruct (list_eq_dec string_dec (names t0) header) as [E | N];
    simpl in C; [| discriminate].
  injection C as <-. apply andb_prop in W. destruct W as [W N].
  auto using nodupb_NoDup.
Qed.

Lemma in_remove_col_name (c r : string) (l : list string) :
  NoDup l -> (In c (remove_col_name r l) <-> In c l /\ c <> r).
Proof.
  induction l as [| c0 l IH]; simpl; intros ND; [tauto |].
  inversion ND as [| ? ? NI ND']; subst.
  destruct (String.eqb_spec r c0) as [-> | N]; simpl.
  - split.
    + intros I. split; [tauto | intros ->; contradiction].
    + intros [[E | I] Ne]; [congruence | exact I].
  - rewrite (IH ND'). split.
    + intros [E | [I Ne]]; [subst c; split; [tauto | congruence] | tauto].
    + tauto.
Qed.

Lemma NoDup_app_disjoint {A : Type} (l l' : list A) :
  NoDup (l ++ l') -> forall a, In a l -> ~ In a l'.
Proof.
  induction l as [| x l IH]; simpl; intros ND a I; [contradiction |].
  inversion ND as [| ? ? NI ND']; subst. destruct I as [-> | I].
  - intros I'. apply NI. apply in_or_app. now right.
  - now apply IH.
Qed.

Lemma Forall2_impl_In {A B : Type} (P Q : A -> B -> Prop) (l : list A) (l' : list B) :
  (forall x y, In x l -> P x y -> Q x y) -> Forall2 P l l' -> Forall2 Q l l'.
Proof.
  intros H F. induction F as [| x y l l' Hxy _ IH]; constructor.
  - apply H; [now left | exact Hxy].
  - apply IH. intros x' y' I. apply H. now right.
Qed.

Lemma nth_error_map_seq {A : Type} (g : nat -> A) (m j : nat) :
  j < m -> nth_error (map g (seq 0 m)) j = Some (g j).
Proof.
  intros H. rewrite nth_error_map, nth_error_seq.
  destruct (Nat.ltb_spec j m); [reflexivity | lia].
Qed.

(** On a table read under the rebuilt header, with line numbers of 32
    bits and run identifiers of at most, and once exactly, as many parts as
    there are names for them, [pwc_outfile] returns the long form. *)
Lemma pwc_outfile_melted :
  forall (cfg : Config) (a : outfile_args) (w w' : World) (t : DataFrame)
         (lines : list Z) (ids : list string),
    let id_fields := fetch (fields w) "pwc_id_fields" "internal_name" in
    let run_fields := fetch (fields w) "pwc_run_id" "internal_name" in
    let durations := pwc_durations cfg in
    arg_preprocessed a = false ->
    read_csv cfg (outfile_path cfg a)
             (mkOpts (Some (id_fields ++ durations)) (Some "\s+") None InferDtype None) w
    = (Ok t, w') ->
    In "line_num" id_fields -> In "run_id" id_fields ->
    lookup "line_num" (columns t) = Some (map VInt lines) ->
    Forall line_number lines ->
    lookup "run_id" (columns t) = Some (map VStr ids) ->
    Forall (fun r => length (split "_" r) <= S (length run_fields)) ids ->
    Exists (fun r => length (split "_" r) = S (length run_fields)) ids ->
    NoDup (("bunk" :: run_fields) ++ id_fields ++ durations) ->
    ~ In "duration" (("bunk" :: run_fields) ++ id_fields) ->
    ~ In "conc" (("bunk" :: run_fields) ++ id_fields ++ durations) ->
    exists out,
      pwc_outfile cfg a w = (Ok out, w')
      /\ names t = id_fields ++ durations
      /\ long_form_by_split run_fields durations lines ids t out.
Proof.
  intros cfg a w w' [n cols] lines ids idf rf D Hpre R Iln Irid Lln Fln Lrid Fsplit
         Esplit ND Hdur Hconc.
  destruct (read_csv_named _ _ _ _ _ _ _ R) as (Nt & W & NDt).
  unfold names in Nt, NDt. cbn [columns nrows] in *.
  assert (Wc : Forall (fun p => length (snd p) = n) cols).
  { unfold well_formed in W. cbn [columns nrows] in W. rewrite forallb_forall in W.
    apply Forall_forall. intros p I. now apply Nat.eqb_eq, W. }
  assert (NDh : NoDup (idf ++ D)) by (apply NoDup_app_remove_l in ND; exact ND).
  assert (Hrl : "run_id" <> "line_num") by discriminate.
  (* the line numbers *)
  set (ln := map (fun z => VInt (z - 1)) lines).
  assert (Hlen_ln : length ln = n).
  { unfold ln. rewrite length_map.
    rewrite <- (length_map VInt). apply (well_formed_lookup (mkDF n cols) _ _ W Lln). }
  set (cols1 := replace_col "line_num" ln cols).
  assert (S1 : columns (setitem (mkDF n cols) "line_num" ln) = cols1).
  { unfold setitem, names. cbn [columns].
    assert (H : has_name "line_num" (map fst cols) = true).
    { apply has_name_In. rewrite Nt. apply in_or_app. now left. }
    now rewrite H. }
  (* the run identifiers *)
  set (cols2 := remove_col "run_id" cols1).
  assert (L1rid : lookup "run_id" cols1 = Some (map VStr ids)).
  { unfold cols1. rewrite lookup_replace_col. exact Lrid. }
  assert (Hlen_ids : length ids = n).
  { rewrite <- (length_map VStr). apply (well_formed_lookup (mkDF n cols) _ _ W Lrid). }
  set (datacols := map (fun j => map (fun r => part j (Some (split "_" r))) ids)
                       (seq 0 (S (length rf)))).
  assert (Ld : length ("bunk" :: rf) = length datacols).
  { unfold datacols. rewrite length_map, length_seq. reflexivity. }
  set (data := combine ("bunk" :: rf) datacols).
  assert (Wd : Forall (fun p => length (snd p) = n) data).
  { apply combine_length_all. unfold datacols. rewrite <- Hlen_ids.
    apply (map_length_all (fun j r => part j (Some (split "_" r)))). }
  assert (W2 : Forall (fun p => length (snd p) = n) cols2).
  { apply remove_col_length, replace_col_length; assumption. }
  set (t3 := mkDF n (data ++ cols2)).
  assert (N3 : forall c, In c (names t3)
                         <-> In c ("bunk" :: rf) \/ (In c (idf ++ D) /\ c <> "run_id")).
  { intros c. unfold t3, names, data, cols2, cols1. cbn [columns].
    rewrite map_app, in_app_iff, names_combine by exact Ld.
    rewrite names_remove_col, names_replace_col, Nt.
    now rewrite (in_remove_col_name c "run_id" (idf ++ D) NDh). }
  assert (Dfresh : forall c, In c (idf ++ D) -> ~ In c ("bunk" :: rf)).
  { intros c I I'. exact (NoDup_app_disjoint _ _ ND c I' I). }
  assert (L3data : forall j c, nth_error ("bunk" :: rf) j = Some c ->
             lookup c (columns t3)
             = Some (map (fun r => part j (Some (split "_" r))) ids)).
  { intros j c Hj. unfold t3. cbn [columns]. rewrite lookup_app.
    assert (Hlt : j < S (length rf)).
    { change (S (length rf)) with (length ("bunk" :: rf)).
      apply nth_error_Some. rewrite Hj. discriminate. }
    unfold data, datacols.
    rewrite (lookup_combine _ _ j c _ (NoDup_app_remove_r _ _ ND) Hj
                                          (nth_error_map_seq _ _ _ Hlt)).
    reflexivity. }
  assert (L3old : forall c, In c (idf ++ D) ->
             lookup c (columns t3) = lookup c cols2).
  { intros c I. unfold t3. cbn [columns]. rewrite lookup_app.
    assert (Nd : lookup c data = None).
    { apply lookup_None_names. unfold data. rewrite names_combine by exact Ld.
      now apply Dfresh. }
    now rewrite Nd. }
  (* the frame that is melted *)
  assert (W3 : well_formed t3 = true).
  { unfold well_formed, t3. cbn [columns nrows]. apply forallb_forall.
    intros p I. apply Nat.eqb_eq. apply in_app_iff in I.
    destruct I as [I | I]; [rewrite Forall_forall in Wd | rewrite Forall_forall in W2];
      auto. }
  set (idv := filter (fun c => negb (has_name c D)) (names t3)).
  assert (Hidv : forall c, In c idv <-> In c (names t3) /\ ~ In c D).
  { intros c. unfold idv. rewrite filter_In.
    destruct (has_name c D) eqn:H; simpl.
    - apply has_name_In in H. split; [intros [_ F]; discriminate | tauto].
    - apply has_name_not_In in H. tauto. }
  assert (HD : forall d, In d D -> In d (idf ++ D) /\ d <> "run_id" /\ d <> "line_num").
  { intros d I. split; [apply in_or_app; now right |].
    split; intros ->; [exact (NoDup_app_disjoint _ _ NDh _ Irid I)
                      | exact (NoDup_app_disjoint _ _ NDh _ Iln I)]. }
  destruct (melt_spec t3 idv D "duration" "conc" W3) as
    [out [vals (Rm & Nout & Fout & Lid & Lnone & Ldur & Fvals & Lconc)]].
  { rewrite N3. intros [I | [I _]]; apply Hconc; apply in_or_app; [now left | now right]. }
  { rewrite Hidv, N3. intros [[I | [I _]] ND']; apply Hdur.
    - apply in_or_app. now left.
    - apply in_or_app. right. apply in_app_iff in I. tauto. }
  { discriminate. }
  { intros c I. now apply Hidv in I. }
  { intros d I. apply N3. right. destruct (HD d I). tauto. }
  exists out. split; [| split; [now rewrite <- Nt |]].
  - unfold pwc_outfile. rewrite test_path_run. unfold pwc_outfile_def.
    unfold bind at 1. cbn [get_fields]. rewrite Hpre. cbn [negb].
    fold idf rf D. unfold bind at 1. rewrite R.
    unfold bind at 1. unfold lift at 1. unfold getattr. cbn [columns].
    rewrite Lln. unfold bind at 1. unfold lift at 1. rewrite astype_int32.
    unfold bind at 1. unfold lift at 1. rewrite (decrement_lines lines Fln).
    fold ln. unfold bind at 1. unfold lift at 1. unfold pop, getitem.
    rewrite S1, L1rid. cbn [rbind fst snd nrows]. fold cols2.
    unfold bind at 1. unfold lift at 1.
    rewrite (str_split_columns ids (S (length rf)) Fsplit Esplit). fold datacols.
    unfold bind at 1. unfold lift at 1. unfold set_columns.
    match goal with
    | |- context [Nat.eqb ?x ?y] =>
        replace (Nat.eqb x y) with true by (symmetry; apply Nat.eqb_eq; exact Ld)
    end.
    fold data.
    unfold lift, concat_cols. cbn [map nrows flat_map columns].
    change (nrows (setitem (mkDF n cols) "line_num" ln)) with n.
    change (list_max [n; n]) with (Nat.max n (Nat.max n 0)).
    rewrite Nat.max_0_r, Nat.max_id, app_nil_r.
    change (combine ("bunk" :: rf) datacols) with data.
    rewrite (pad_full n data Wd), (pad_full n cols2 W2).
    change (mkDF n (data ++ cols2)) with t3.
    change (filter (fun c => negb (has_name c D)) (names t3)) with idv.
    now rewrite Rm.
  - unfold long_form_by_split. cbn [nrows columns].
    assert (Nn : nrows t3 = n) by reflexivity. rewrite Nn in *.
    split; [exact Nout |]. split; [exact Fout |].
    split; [| split; [| split; [| split]]].
    + rewrite Lid.
      * rewrite (L3old "line_num") by (apply in_or_app; now left).
        unfold cols2. rewrite lookup_remove_col_other by (intros E; now apply Hrl).
        unfold cols1. rewrite lookup_replace_col, Lln. reflexivity.
      * apply Hidv. split.
        -- apply N3. right. split; [apply in_or_app; now left | discriminate].
        -- intros I. destruct (HD _ I) as (_ & _ & F). now apply F.
    + intros j c Hj. rewrite Lid.
      * now rewrite (L3data j c Hj).
      * apply Hidv. assert (Ic : In c ("bunk" :: rf)) by (eapply nth_error_In; eauto).
        split; [apply N3; now left |].
        intros I. apply (Dfresh c); [apply in_or_app; now right | exact Ic].
    + apply Lnone.
      * rewrite Hidv, N3. intros [[I | [_ F]] _]; [| now apply F].
        apply (Dfresh "run_id"); [apply in_or_app; now left | exact I].
      * intros E. apply Hdur. rewrite <- E. apply in_or_app. right. exact Irid.
      * intros E. apply Hconc. rewrite <- E. apply in_or_app. right.
        apply in_or_app. now left.
    + exact Ldur.
    + exists vals. split; [| exact Lconc].
      refine (Forall2_impl_In _ _ _ _ _ Fvals).
      intros d s I L. cbn beta in L. destruct (HD d I) as (Id & Nr & Nl).
      rewrite (L3old d Id) in L. unfold cols2 in L.
      rewrite lookup_remove_col_other in L by exact Nr.
      unfold cols1 in L. rewrite lookup_replace_col in L.
      destruct (String.eqb_spec d "line_num"); [contradiction | exact L].
Qed.


(** ** The parts of a run identifier *)

Lemma split_no_underscore (p : string) :
  ~ In "_"%char (list_ascii_of_string p) -> split "_" p = [p].
Proof.
  induction p as [| c p IH]; intros N; [reflexivity |].
  cbn [list_ascii_of_string In] in N. cbn [split].
  destruct (Ascii.eqb_spec c "_") as [-> | _]; [tauto |].
  rewrite IH by tauto. reflexivity.
Qed.

Lemma split_first_part (p rest : string) :
  ~ In "_"%char (list_ascii_of_string p) ->
  split "_" (p ++ String "_" rest) = p :: split "_" rest.
Proof.
  induction p as [| c p IH]; intros N; [reflexivity |].
  cbn [list_ascii_of_string In] in N.
  change (String c p ++ String "_" rest)%string with (String c (p ++ String "_" rest)).
  cbn [split]. destruct (Ascii.eqb_spec c "_") as [-> | _]; [tauto |].
  rewrite IH by tauto. reflexivity.
Qed.

Lemma split_concat (p : string) (ps : list string) :
  Forall (fun p => ~ In "_"%char (list_ascii_of_string p)) (p :: ps) ->
  split "_" (String.concat "_" (p :: ps)) = p :: ps.
Proof.
  revert p. induction ps as [| q qs IH]; intros p F.
  - cbn [String.concat]. apply split_no_underscore. exact (Forall_inv F).
  - change (String.concat "_" (p :: q :: qs))
      with (p ++ String "_" (String.concat "_" (q :: qs)))%string.
    rewrite split_first_part by exact (Forall_inv F).
    now rewrite (IH q (Forall_inv_tail F)).
Qed.

(** A run identifier has one list of parts, the one [split] computes. *)
Lemma run_id_split_unique (id : string) (ps : list string) :
  run_id_split id ps -> split "_" id = ps.
Proof.
  intros (NE & <- & F). destruct ps as [| p ps]; [congruence |].
  now apply split_concat.
Qed.

Lemma run_ids_split (ids : list string) (parts : list (list string)) :
  Forall2 run_id_split ids parts -> parts = map (split "_") ids.
Proof.
  induction 1 as [| id ps ids parts H _ IH]; [reflexivity |].
  cbn [map]. now rewrite (run_id_split_unique id ps H), IH.
Qed.

(** C1, amended.  On an output file that is not preprocessed, read
    under the header [pwc_outfile] builds itself (the identifier fields,
    among them line_num and run_id, followed by the durations), whose line
    numbers are integers of 32 bits, whose run identifiers are texts of at
    most as many parts as the names bunk and the run identifier fields,
    one of them of exactly as many, and where these names, the identifier
    fields and the durations are distinct and leave the names duration and
    conc free, [pwc_outfile] returns the long form of the table: the line
    number less one, the parts of the run identifier in the column bunk and
    the run identifier fields, and for each row read and each duration one
    row holding the duration and its concentration in the columns duration
    and conc, which makes (rows read) x (number of durations) rows. *)
Theorem pwc_outfile_long_form :
  forall (cfg : Config) (a : outfile_args) (w w' : World) (t : DataFrame)
         (lines : list Z) (ids : list string) (parts : list (list string)),
    let id_fields := fetch (fields w) "pwc_id_fields" "internal_name" in
    let run_fields := fetch (fields w) "pwc_run_id" "internal_name" in
    let durations := pwc_durations cfg in
    arg_preprocessed a = false ->
    read_csv cfg (outfile_path cfg a)
             (mkOpts (Some (id_fields ++ durations)) (Some "\s+") None InferDtype None) w
    = (Ok t, w') ->
    In "line_num" id_fields -> In "run_id" id_fields ->
    lookup "line_num" (columns t) = Some (map VInt lines) ->
    Forall line_number lines ->
    lookup "run_id" (columns t) = Some (map VStr ids) ->
    Forall2 run_id_split ids parts ->
    Forall (fun ps => length ps <= S (length run_fields)) parts ->
    Exists (fun ps => length ps = S (length run_fields)) parts ->
    NoDup (("bunk" :: run_fields) ++ id_fields ++ durations) ->
    ~ In "duration" (("bunk" :: run_fields) ++ id_fields) ->
    ~ In "conc" (("bunk" :: run_fields) ++ id_fields ++ durations) ->
    exists out,
      pwc_outfile cfg a w = (Ok out, w')
      /\ names t = id_fields ++ durations
      /\ pwc_long_form run_fields durations lines parts t out
      /\ pwc_outfile_statement durations t (Ok out).
Proof.
  intros cfg a w w' t lines ids parts idf rf D Hpre R Iln Irid Lln Fln Lrid Fparts
         Fle Eeq ND Hdur Hconc.
  apply run_ids_split in Fparts. subst parts.
  rewrite Forall_map in Fle. rewrite Exists_map in Eeq.
  destruct (pwc_outfile_melted cfg a w w' t lines ids Hpre R Iln Irid Lln Fln Lrid
                               Fle Eeq ND Hdur Hconc)
    as (out & Run & Nt & Nout & Fout & Lline & Lparts & Lrun & Ldur & vals & Fvals & Lconc).
  exists out. split; [exact Run |]. split; [exact Nt |]. split.
  - unfold pwc_long_form. split; [exact Nout |]. split; [exact Fout |].
    split; [exact Lline |]. split; [| split; [exact Lrun |]].
    + intros j c Hj. rewrite (Lparts j c Hj). unfold tile.
      do 3 f_equal. rewrite map_map. reflexivity.
    + split; [rewrite Ldur; f_equal; apply flat_map_concat_map |].
      exists vals. auto.
  - exists out. split; [reflexivity |].
    split; [exact (lookup_In_names _ _ _ Ldur) |].
    split; [exact (lookup_In_names _ _ _ Lconc) | exact Nout].
Qed.

(* ===================================================================== *)
(** * The functions on the example environment                            *)
(* ===================================================================== *)

(** [pwc_outfile] on the example output file: two rows and two durations
    give four rows. *)
Lemma pwc_outfile_long_form_example :
  exists out,
    pwc_outfile (demo_config demo_files) demo_outfile_args demo_world
    = (Ok out, mkWorld ["out.txt"] demo_fields)
    /\ names demo_outfile = ["line_num"; "run_id"] ++ ["1-day"; "365-day"]
    /\ pwc_long_form ["scenario"; "rep"] ["1-day"; "365-day"] [2; 3]%Z
                     [["r07"; "101"; "a"]; ["r07"; "102"; "b"]] demo_outfile out
    /\ pwc_outfile_statement ["1-day"; "365-day"] demo_outfile (Ok out).
Proof.
  apply (pwc_outfile_long_form (demo_config demo_files) demo_outfile_args demo_world
                               (mkWorld ["out.txt"] demo_fields) demo_outfile
                               [2; 3]%Z ["r07_101_a"; "r07_102_b"]
                               [["r07"; "101"; "a"]; ["r07"; "102"; "b"]]).
  - reflexivity.
  - reflexivity.
  - simpl; tauto.
  - simpl; tauto.
  - reflexivity.
  - repeat constructor; unfold line_number; lia.
  - reflexivity.
  - repeat constructor; try discriminate; simpl; intuition discriminate.
  - repeat constructor.
  - left. reflexivity.
  - repeat (constructor; [simpl; intuition discriminate |]). constructor.
  - simpl; intuition discriminate.
  - simpl; intuition discriminate.
Defined.

(** What the call returns on the example file. *)
Lemma pwc_outfile_example_table :
  fst (pwc_outfile (demo_config demo_files) demo_outfile_args demo_world)
  = Ok (mkDF 4 [("bunk", texts ["r07"; "r07"; "r07"; "r07"]);
                ("scenario", texts ["101"; "102"; "101"; "102"]);
                ("rep", texts ["a"; "b"; "a"; "b"]);
                ("line_num", ints [1; 2; 1; 2]%Z);
                ("duration", texts ["1-day"; "1-day"; "365-day"; "365-day"]);
                ("conc", [VFloat 0.5; VFloat 0.25; VFloat 0.125; VFloat 0.0625])]).
Proof. vm_compute. reflexivity. Qed.

(** C1, as stated for every output file that is not preprocessed, fails
    on a file whose run identifiers have two parts where the field manager
    lists two run identifier fields, three names with bunk: the two columns
    of the split cannot take three names, [pwc_outfile] raises
    [ValueError] and returns no table. *)
Lemma pwc_outfile_short_run_id :
  fst (pwc_outfile (demo_config [("out.txt", demo_outfile_short)]) demo_outfile_args
                   demo_world)
  = Raise (ValueError "Length mismatch")
  /\ ~ pwc_outfile_statement
       ["1-day"; "365-day"] demo_outfile_short
       (fst (pwc_outfile (demo_config [("out.txt", demo_outfile_short)]) demo_outfile_args
                         demo_world)).
Proof.
  assert (E : fst (pwc_outfile (demo_config [("out.txt", demo_outfile_short)])
                               demo_outfile_args demo_world)
              = Raise (ValueError "Length mismatch")) by (vm_compute; reflexivity).
  split; [exact E |]. rewrite E. intros (out & H & _). discriminate H.
Qed.

(** The adjustment on the example crop dates: corn is left as it is,
    winter wheat is harvested 365 days later. *)
Lemma harvest_adjustment_example :
  exists adjusted_dates,
    adjust_harvest demo_crop_dates = Ok adjusted_dates
    /\ forall stage, In stage crop_stages ->
         lookup ("plant_" ++ stage) (columns adjusted_dates)
         = Some (map VInt (demo_plant stage))
         /\ lookup ("harvest_" ++ stage) (columns adjusted_dates)
            = Some (map VInt (zip_with adjusted (demo_plant stage) (demo_harvest stage))).
Proof.
  apply (harvest_adjustment demo_crop_dates demo_plant demo_harvest).
  - reflexivity.
  - intros stage [<- | [<- | [<- | [<- | []]]]];
      (split; [reflexivity | split; [reflexivity |]]);
      repeat constructor; unfold day_offset; lia.
Defined.

(** [gdd] on the example table: two Fahrenheit columns, one row with a
    missing value. *)
Lemma gdd_converts_and_drops_example :
  exists out,
    gdd (demo_config demo_files) false demo_world
    = (Ok out, mkWorld ["gdd.csv"] demo_fields)
    /\ gdd_statement demo_gdd (Ok out).
Proof.
  apply (gdd_converts_and_drops (demo_config demo_files) demo_world
                                (mkWorld ["gdd.csv"] demo_fields) demo_gdd).
  - reflexivity.
  - intros c s [E | [E | [E | [E | [E | []]]]]]; injection E as <- <-;
      intros T; first [discriminate T | reflexivity].
  - intros c [<- | [<- | [<- | [<- | [<- | []]]]]] T;
      first [discriminate T | simpl; intuition discriminate].
  - intros c [<- | [<- | [<- | [<- | []]]]]; simpl; tauto.
Defined.

(** C6, as stated, fails on a table that holds a base temperature in both
    units: [gdd] returns, and the Celsius column of the file has been
    overwritten by the converted Fahrenheit column, while the statement
    asks for both the converted column and the untouched one under the
    same name. *)
Lemma gdd_overwrites_celsius_column :
  fst (gdd (demo_config [("gdd.csv", demo_gdd_both_units)]) false demo_world)
  = Ok (mkDF 2 [("emergence_gdd", [VFloat 100; VFloat 90]);
                ("maxcover_gdd", [VFloat 700; VFloat 600]);
                ("emergence_base_temp", [VFloat 10; VFloat 20]);
                ("maxcover_base_temp", [VInt 3; VInt 4])])
  /\ ~ gdd_statement
       demo_gdd_both_units
       (fst (gdd (demo_config [("gdd.csv", demo_gdd_both_units)]) false demo_world)).
Proof.
  split; [vm_compute; reflexivity |].
  intros (mid & cols & _ & Hconv & Hkept & _).
  destruct (Hconv "emergence_base_temp" (ints [50; 68]%Z) eq_refl eq_refl) as [L _].
  rewrite (Hkept "emergence_base_temp" (ints [1; 2]%Z) eq_refl eq_refl) in L.
  discriminate L.
Qed.

(** Without the other two conditions [gdd] raises: on a table that lacks
    one of the four columns, and on a Fahrenheit column that holds text. *)
Lemma gdd_example_missing_column :
  fst (gdd (demo_config [("gdd.csv", demo_gdd_no_maxcover)]) false demo_world)
  = Raise (KeyError "maxcover_gdd").
Proof. vm_compute. reflexivity. Qed.

Lemma gdd_example_text_column :
  fst (gdd (demo_config [("gdd.csv", demo_gdd_text)]) false demo_world)
  = Raise (TypeError "unsupported operand type(s)").
Proof. vm_compute. reflexivity. Qed.

(** [crop] on the example environment: the three tables are read, then
    the first date field raises [NameError]. *)
Lemma crop_never_returns_example :
  exists e w', crop (demo_config demo_files) "07" demo_world = (Raise e, w').
Proof.
  apply (crop_never_returns (demo_config demo_files) "07" demo_world).
  discriminate.
Defined.

Lemma crop_example_NameError :
  fst (crop (demo_config demo_files) "07" demo_world) = Raise (NameError "date_fmt")
  /\ reads (snd (crop (demo_config demo_files) "07" demo_world))
     = ["crop_groups.csv"; "crop_params.csv"; "crop_dates.csv"].
Proof. split; vm_compute; reflexivity. Qed.

(* ===================================================================== *)
(** * Tables as [read_csv] returns them                                   *)
(* ===================================================================== *)

Lemma read_csv_run (cfg : Config) (path : string) (o : read_opts) (w : World) :
  read_csv cfg path o w
  = (read_result cfg path o, mkWorld (reads w ++ [path]) (fields w)).
Proof.
  unfold read_csv, read_result. now destruct (read_table cfg path o).
Qed.

Lemma well_formed_rectangular (df : DataFrame) :
  well_formed df = true <-> rectangular (nrows df) (columns df).
Proof.
  unfold well_formed, rectangular. rewrite forallb_forall, Forall_forall.
  split; intros H p I; specialize (H p I); now apply Nat.eqb_eq.
Qed.

Lemma NoDup_names_filter (f : string * Series -> bool) (cols : list (string * Series)) :
  NoDup (map fst cols) -> NoDup (map fst (filter f cols)).
Proof.
  induction cols as [| p cols IH]; simpl; intros ND; [constructor |].
  inversion ND as [| ? ? NI ND']; subst.
  destruct (f p); simpl; [| auto].
  constructor; [| auto]. intros I. apply NI. now apply names_filter_incl in I.
Qed.

Lemma apply_usecols_spec (u : option (list string)) (t t' : DataFrame) :
  apply_usecols u t = Ok t' ->
  nrows t' = nrows t
  /\ (forall p, In p (columns t') -> In p (columns t))
  /\ (NoDup (names t) -> NoDup (names t'))
  /\ (forall c, In c (names t') <->
                In c (names t) /\ match u with Some l => In c l | None => True end)
  /\ match u with Some l => forall c, In c l -> In c (names t) | None => True end.
Proof.
  unfold apply_usecols. destruct u as [l |].
  - destruct (forallb _ l) eqn:A; [| discriminate].
    intros H. injection H as <-. cbn [nrows columns]. unfold names. cbn [columns].
    split; [reflexivity |].
    split; [intros p I; now apply filter_In in I |].
    split; [apply NoDup_names_filter |]. split.
    + intros c. split.
      * intros I. apply in_map_iff in I. destruct I as [p [<- I]].
        apply filter_In in I. destruct I as [I Il].
        split; [now apply in_map | now apply has_name_In].
      * intros [I Il]. apply in_map_iff in I. destruct I as [p [<- I]].
        apply in_map. apply filter_In. split; [exact I | now apply has_name_In].
    + intros c I. rewrite forallb_forall in A. now apply has_name_In, A.
  - intros H. injection H as <-. repeat split; tauto.
Qed.

Lemma head_spec (n : nat) (t : DataFrame) :
  rectangular (nrows t) (columns t) ->
  rectangular (nrows (head n t)) (columns (head n t))
  /\ names (head n t) = names t.
Proof.
  intros R. unfold head, names, rectangular in *. cbn [nrows columns]. split.
  - apply Forall_forall. intros p I. apply in_map_iff in I.
    destruct I as [[c s] [<- I]]. rewrite Forall_forall in R. specialize (R _ I).
    simpl in *. rewrite length_firstn. now rewrite R.
  - rewrite map_map. reflexivity.
Qed.

Lemma apply_dtype_spec (d : dtype_spec) (t t' : DataFrame) :
  apply_dtype d t = Ok t' ->
  nrows t' = nrows t /\ names t' = names t
  /\ (rectangular (nrows t) (columns t) -> rectangular (nrows t') (columns t')).
Proof.
  assert (G : forall (f : string * Series -> Result (string * Series)) cols cs,
             (forall p q, f p = Ok q -> fst q = fst p /\ length (snd q) = length (snd p)) ->
             rmap f cols = Ok cs ->
             map fst cs = map fst cols
             /\ forall n, rectangular n cols -> rectangular n cs).
  { intros f cols cs Hf R. apply rmap_Forall2 in R.
    induction R as [| p q cols cs Hpq _ [IHn IHr]]; [split; [reflexivity | auto] |].
    destruct (Hf _ _ Hpq) as [Hn Hl]. split.
    - simpl. now rewrite Hn, IHn.
    - intros n Rn. unfold rectangular in *.
      pose proof (Forall_inv Rn) as Hp. pose proof (Forall_inv_tail Rn) as Rn'.
      constructor; [exact (eq_trans Hl Hp) | auto]. }
  unfold apply_dtype. destruct d as [| d | m].
  - intros H. injection H as <-. auto.
  - destruct (rmap _ (columns t)) as [cs |] eqn:R; simpl; [| discriminate].
    intros H. injection H as <-. cbn [nrows columns]. unfold names. cbn [columns].
    apply G in R.
    + destruct R as [Rn Rr]. auto.
    + intros [c s] q Hq. simpl in Hq.
      destruct (parse_series d s) as [s' |] eqn:A; simpl in Hq; [| discriminate].
      injection Hq as <-. simpl. split; [reflexivity |].
      now apply rmap_length in A.
  - destruct (rmap _ (columns t)) as [cs |] eqn:R; simpl; [| discriminate].
    intros H. injection H as <-. cbn [nrows columns]. unfold names. cbn [columns].
    apply G in R.
    + destruct R as [Rn Rr]. auto.
    + intros [c s] q Hq. simpl in Hq. destruct (dict_get m c) as [d |].
      * destruct (parse_series d s) as [s' |] eqn:A; simpl in Hq; [| discriminate].
        injection Hq as <-. simpl. split; [reflexivity |].
        now apply rmap_length in A.
      * injection Hq as <-. auto.
Qed.

(** Every table [read_csv] returns is rectangular, with distinct column
    names. *)
Lemma read_result_well_formed (cfg : Config) (path : string) (o : read_opts)
      (t : DataFrame) :
  read_result cfg path o = Ok t -> well_formed t = true /\ NoDup (names t).
Proof.
  unfold read_result. destruct (read_table cfg path o) as [t0 |]; [| discriminate].
  cbn [rbind]. unfold read_csv_contract.
  destruct (well_formed t0 && nodupb (names t0)) eqn:W; cbn [negb]; [| discriminate].
  apply andb_prop in W. destruct W as [W N]. apply nodupb_NoDup in N.
  apply well_formed_rectangular in W.
  destruct (match opt_names o with Some h => negb (list_eqb (names t0) h) | None => false end);
    [discriminate |].
  destruct (apply_usecols (opt_usecols o) t0) as [t1 |] eqn:U; [| discriminate].
  cbn [rbind]. apply apply_usecols_spec in U. destruct U as (Un & Ui & Ud & _).
  assert (R1 : rectangular (nrows t1) (columns t1)).
  { unfold rectangular in *. rewrite Un. apply Forall_forall. intros p I.
    rewrite Forall_forall in W. auto. }
  intros D. apply apply_dtype_spec in D. destruct D as (Dn & Dnames & Dr).
  destruct (opt_nrows o) as [n |].
  - destruct (head_spec n t1 R1) as [Hr Hn]. split.
    + apply well_formed_rectangular. auto.
    + rewrite Dnames, Hn. auto.
  - split.
    + apply well_formed_rectangular. auto.
    + rewrite Dnames. auto.
Qed.

(* ===================================================================== *)
(** * Row masks                                                           *)
(* ===================================================================== *)

Lemma keep_repeat (mask : list bool) (v : value) (n : nat) :
  length mask = n -> keep mask (repeat v n) = repeat v (count_true mask).
Proof.
  revert n. induction mask as [| b mask IH]; intros n H; [reflexivity |].
  destruct n as [| n]; [discriminate |]. injection H as H.
  cbn [repeat keep]. unfold count_true in *. destruct b; cbn [filter length repeat].
  - now rewrite IH.
  - now apply IH.
Qed.

Lemma keep_map_filter (f : value -> bool) (s : Series) :
  keep (map f s) s = filter f s.
Proof.
  induction s as [| v s IH]; [reflexivity |].
  cbn [map keep filter]. destruct (f v); now rewrite IH.
Qed.

Lemma count_true_map (f : value -> bool) (s : Series) :
  count_true (map f s) = length (filter f s).
Proof.
  unfold count_true. induction s as [| v s IH]; [reflexivity |].
  cbn [map filter]. destruct (f v); cbn [length]; now rewrite IH.
Qed.

Lemma keep_Forall (P : value -> Prop) (mask : list bool) (s : Series) :
  Forall P s -> Forall P (keep mask s).
Proof.
  intros F. revert mask. induction F as [| v s Hv _ IH]; intros mask.
  - destruct mask; constructor.
  - destruct mask as [| [] mask]; cbn [keep]; [constructor | constructor; auto | auto].
Qed.

Lemma lookup_filter_rows (mask : list bool) (df : DataFrame) (c : string) :
  lookup c (columns (filter_rows mask df)) = option_map (keep mask) (lookup c (columns df)).
Proof. unfold filter_rows. cbn [columns]. apply lookup_map_snd. Qed.

Lemma getattr_Ok (df : DataFrame) (c : string) (s : Series) :
  getattr df c = Ok s <-> lookup c (columns df) = Some s.
Proof.
  unfold getattr. destruct (lookup c (columns df)); split; intros H;
    first [discriminate | now injection H as <- | idtac].
Qed.

(* ===================================================================== *)
(** * [zfill]                                                             *)
(* ===================================================================== *)




(* ===================================================================== *)
(** * [pwc_infile]                                                        *)
(* ===================================================================== *)

(** One file is read, whatever follows; what follows has no effect on the
    state. *)
Lemma pwc_infile_run (cfg : Config) (rt : Runtime) (a : infile_args) (w : World) :
  pwc_infile cfg rt a w
  = ((table <~ read_result cfg (infile_path cfg rt a) infile_opts ;;
      table <~ match in_region a with
               | Some region => Ok (setitem_scalar table "region" (VStr region))
               | None =>
                   regions <~ getattr table "region" ;;
                   Ok (setitem table "region"
                               (map (fun region => VStr (zfill 2 (cell_str rt region)))
                                    regions))
               end ;;
      if in_use_parent a then
        cdl <~ getattr table "cdl" ;;
        n <~ py_int rt (in_class_num a) ;;
        Ok (filter_rows (map (value_eq_int n) cdl) table)
      else Ok table)%result,
     mkWorld (reads w ++ [infile_path cfg rt a]) (fields w)).
Proof.
  unfold pwc_infile. rewrite test_path_run. unfold pwc_infile_def.
  unfold bind at 1. fold infile_opts. rewrite read_csv_run.
  destruct (read_result cfg (infile_path cfg rt a) infile_opts) as [table | e];
    [| reflexivity].
  cbn [rbind]. unfold bind, lift, ret.
  destruct (in_region a) as [region |].
  - cbn [rbind]. destruct (in_use_parent a); [| reflexivity].
    destruct (getattr _ "cdl"); [| reflexivity].
    destruct (py_int rt (in_class_num a)); reflexivity.
  - destruct (getattr table "region") as [regions |]; [| reflexivity].
    cbn [rbind]. destruct (in_use_parent a); [| reflexivity].
    destruct (getattr _ "cdl"); [| reflexivity].
    destruct (py_int rt (in_class_num a)); reflexivity.
Qed.

(** X1.  When a region is passed, every row of the table [pwc_infile]
    returns holds that region in the column region, whatever the file
    holds there, also after the rows of a class have been selected with
    [use_parent]. *)
Theorem pwc_infile_region_given :
  forall (cfg : Config) (rt : Runtime) (a : infile_args) (region : string)
         (w w' : World) (out : DataFrame),
    in_region a = Some region ->
    pwc_infile cfg rt a w = (Ok out, w') ->
    lookup "region" (columns out) = Some (repeat (VStr region) (nrows out)).
Proof.
  intros cfg rt a region w w' out Hr H. rewrite pwc_infile_run in H.
  injection H as H _. rewrite Hr in H.
  destruct (read_result cfg (infile_path cfg rt a) infile_opts) as [table |] eqn:R;
    [| discriminate].
  cbn [rbind] in H. apply read_result_well_formed in R. destruct R as [W _].
  set (table1 := setitem_scalar table "region" (VStr region)) in *.
  assert (L : lookup "region" (columns table1) = Some (repeat (VStr region) (nrows table))).
  { unfold table1, setitem_scalar. now rewrite lookup_setitem. }
  destruct (in_use_parent a).
  - destruct (getattr table1 "cdl") as [cdl |] eqn:C; [| discriminate].
    cbn [rbind] in H. destruct (py_int rt (in_class_num a)) as [n |]; [| discriminate].
    injection H as <-. rewrite lookup_filter_rows, L. cbn [option_map nrows filter_rows].
    f_equal. apply keep_repeat. rewrite length_map.
    apply getattr_Ok in C. unfold table1, setitem_scalar in C.
    rewrite lookup_setitem in C. cbn [String.eqb Ascii.eqb Bool.eqb] in C.
    exact (well_formed_lookup table _ _ W C).
  - injection H as <-. exact L.
Qed.


(** X3.  With [use_parent], the table [pwc_infile] returns holds only
    rows of the class asked for: [class_num] denotes an integer, every
    cell of the column cdl equals it, and the table has as many rows as
    that column. *)
Theorem pwc_infile_parent_class :
  forall (cfg : Config) (rt : Runtime) (a : infile_args) (w w' : World)
         (out : DataFrame),
    in_use_parent a = true ->
    pwc_infile cfg rt a w = (Ok out, w') ->
    exists n cdl,
      py_int rt (in_class_num a) = Ok n
      /\ lookup "cdl" (columns out) = Some cdl
      /\ Forall (fun v => value_eq_int n v = true) cdl
      /\ nrows out = length cdl.
Proof.
  intros cfg rt a w w' out Hp H. rewrite pwc_infile_run in H.
  injection H as H _. rewrite Hp in H.
  destruct (read_result cfg (infile_path cfg rt a) infile_opts) as [table |];
    [| discriminate].
  cbn [rbind] in H.
  destruct (match in_region a with Some _ => _ | None => _ end) as [table1 |];
    [| discriminate].
  cbn [rbind] in H. destruct (getattr table1 "cdl") as [cdl |] eqn:C; [| discriminate].
  cbn [rbind] in H. destruct (py_int rt (in_class_num a)) as [n |]; [| discriminate].
  injection H as <-. apply getattr_Ok in C.
  exists n, (filter (value_eq_int n) cdl).
  split; [reflexivity |]. split; [| split].
  - rewrite lookup_filter_rows, C. cbn [option_map]. now rewrite keep_map_filter.
  - apply Forall_forall. intros v I. now apply filter_In in I.
  - cbn [filter_rows nrows]. apply count_true_map.
Qed.

(** X4.  With [use_parent] and no [class_num] (its default),
    [pwc_infile] never returns a table: when the file can be read and
    holds the columns, converting [None] to an integer raises. *)
Theorem pwc_infile_parent_needs_class :
  forall (cfg : Config) (rt : Runtime) (a : infile_args) (w : World),
    in_use_parent a = true -> in_class_num a = None ->
    exists e, pwc_infile cfg rt a w
              = (Raise e, mkWorld (reads w ++ [infile_path cfg rt a]) (fields w)).
Proof.
  intros cfg rt a w Hp Hc. rewrite pwc_infile_run, Hp, Hc.
  destruct (read_result cfg (infile_path cfg rt a) infile_opts) as [table | e];
    [| now exists e].
  cbn [rbind].
  destruct (match in_region a with Some _ => _ | None => _ end) as [table1 | e];
    [| now exists e].
  cbn [rbind]. destruct (getattr table1 "cdl") as [cdl | e]; [| now exists e].
  cbn [rbind py_int]. eauto.
Qed.

(** X5.  When no region is passed and the file has no column region,
    [pwc_infile] raises [AttributeError] after the file has been read. *)
Theorem pwc_infile_region_missing :
  forall (cfg : Config) (rt : Runtime) (a : infile_args) (w : World)
         (table : DataFrame),
    in_region a = None ->
    read_result cfg (infile_path cfg rt a) infile_opts = Ok table ->
    ~ In "region" (names table) ->
    pwc_infile cfg rt a w
    = (Raise (AttributeError "region"),
       mkWorld (reads w ++ [infile_path cfg rt a]) (fields w)).
Proof.
  intros cfg rt a w table Hr R N. rewrite pwc_infile_run, Hr, R. cbn [rbind].
  apply lookup_None_names in N. unfold getattr. now rewrite N.
Qed.

(** X6.  With [use_parent], the arguments [class_name] and
    [preprocessed] have no effect on what [pwc_infile] reads and
    returns. *)
Theorem pwc_infile_parent_ignores :
  forall (cfg : Config) (rt : Runtime) (class_num : option scalar)
         (class_name class_name' : option string) (region : option string)
         (preprocessed preprocessed' : bool) (path : option string) (w : World),
    pwc_infile cfg rt (mkInfileArgs class_num class_name region true preprocessed path) w
    = pwc_infile cfg rt (mkInfileArgs class_num class_name' region true preprocessed' path) w.
Proof.
  intros. rewrite !pwc_infile_run. reflexivity.
Qed.

(** The parent file of region 07, class 1: two of its three rows. *)
Lemma pwc_infile_region_given_example :
  lookup "region" (columns demo_parent_out)
  = Some (repeat (VStr "07") (nrows demo_parent_out)).
Proof.
  apply (pwc_infile_region_given (demo_config demo_more_files) demo_runtime
                                 demo_parent_args "07" demo_more_world
                                 (mkWorld ["07_parent.txt"] demo_more_fields)
                                 demo_parent_out);
    reflexivity.
Defined.


Lemma pwc_infile_parent_class_example :
  exists n cdl,
    py_int demo_runtime (Some (SInt 1)) = Ok n
    /\ lookup "cdl" (columns demo_parent_out) = Some cdl
    /\ Forall (fun v => value_eq_int n v = true) cdl
    /\ nrows demo_parent_out = length cdl.
Proof.
  apply (pwc_infile_parent_class (demo_config demo_more_files) demo_runtime
                                 demo_parent_args demo_more_world
                                 (mkWorld ["07_parent.txt"] demo_more_fields)
                                 demo_parent_out);
    reflexivity.
Defined.

Lemma pwc_infile_parent_needs_class_example :
  exists e,
    pwc_infile (demo_config demo_more_files) demo_runtime
               (mkInfileArgs None None (Some "07") true false None) demo_more_world
    = (Raise e, mkWorld ["07_parent.txt"] demo_more_fields).
Proof.
  apply (pwc_infile_parent_needs_class
           (demo_config demo_more_files) demo_runtime
           (mkInfileArgs None None (Some "07") true false None) demo_more_world);
    reflexivity.
Defined.

(** A table of combinations has no column region. *)
Lemma pwc_infile_region_missing_example :
  pwc_infile (demo_config demo_more_files) demo_runtime
             (mkInfileArgs None None None false false (Some "combos_07_2015.csv"))
             demo_more_world
  = (Raise (AttributeError "region"), mkWorld ["combos_07_2015.csv"] demo_more_fields).
Proof.
  apply (pwc_infile_region_missing
           (demo_config demo_more_files) demo_runtime
           (mkInfileArgs None None None false false (Some "combos_07_2015.csv"))
           demo_more_world demo_combos_2015).
  - reflexivity.
  - reflexivity.
  - simpl. intuition discriminate.
Defined.

(* ===================================================================== *)
(** * Files read, in order                                                *)
(* ===================================================================== *)

Lemma reads_in_order_ret {A : Type} (a : A) : reads_in_order [] (ret a).
Proof.
  intros w. exists [], []. cbn. rewrite app_nil_r. auto.
Qed.

Lemma reads_in_order_lift {A : Type} (r : Result A) : reads_in_order [] (lift r).
Proof.
  intros w. exists [], []. cbn. rewrite app_nil_r. auto.
Qed.

Lemma reads_in_order_raise {A : Type} (e : exn) (paths : list string) :
  reads_in_order paths (@raise A e).
Proof.
  intros w. exists [], paths. cbn. rewrite app_nil_r.
  split; [reflexivity |]. split; [reflexivity | discriminate].
Qed.

Lemma reads_in_order_get_fields : reads_in_order [] get_fields.
Proof.
  intros w. exists [], []. cbn. rewrite app_nil_r. auto.
Qed.

Lemma reads_in_order_refresh (cfg : Config) : reads_in_order [] (refresh cfg).
Proof.
  intros w. exists [], []. cbn. rewrite app_nil_r. auto.
Qed.

Lemma reads_in_order_read_csv (cfg : Config) (path : string) (o : read_opts) :
  reads_in_order [path] (read_csv cfg path o).
Proof.
  intros w. exists [path], []. rewrite read_csv_run. cbn. auto.
Qed.

Lemma reads_in_order_bind {A B : Type} (p p' : list string) (c : M A) (k : A -> M B) :
  reads_in_order p c -> (forall a, reads_in_order p' (k a)) ->
  reads_in_order (p ++ p') (bind c k).
Proof.
  intros Hc Hk w. destruct (Hc w) as (d & r & E & R & F).
  unfold bind. destruct (c w) as [[a | e] w1]; cbn [fst snd] in *.
  - specialize (F a eq_refl). subst r. rewrite app_nil_r in E. subst d.
    destruct (Hk a w1) as (d' & r' & E' & R' & F').
    exists (p ++ d'), r'. split; [now rewrite E', app_assoc |].
    split; [now rewrite R', R, app_assoc | exact F'].
  - exists d, (r ++ p'). split; [now rewrite E, app_assoc |].
    split; [exact R | discriminate].
Qed.

Lemma reads_in_order_map_m {A B : Type} (g : A -> list string) (f : A -> M B)
      (l : list A) :
  (forall x, reads_in_order (g x) (f x)) -> reads_in_order (flat_map g l) (map_m f l).
Proof.
  intros H. induction l as [| x l IH]; cbn [flat_map map_m].
  - apply reads_in_order_ret.
  - apply reads_in_order_bind; [apply H |]. intros y.
    rewrite <- (app_nil_r (flat_map g l)).
    apply reads_in_order_bind; [exact IH |]. intros ys. apply reads_in_order_ret.
Qed.

Lemma reads_in_order_ext {A : Type} (p : list string) (c c' : M A) :
  (forall w, c w = c' w) -> reads_in_order p c' -> reads_in_order p c.
Proof.
  intros E H w. rewrite E. apply H.
Qed.

(* ===================================================================== *)
(** * Reads restricted to the fields of an item: [met] and [ssurgo]       *)
(* ===================================================================== *)

Lemma read_result_usecols (cfg : Config) (path : string) (u : list string)
      (d : dtype_spec) (t : DataFrame) :
  read_result cfg path (mkOpts None None (Some u) d None) = Ok t ->
  forall c, In c (names t) <-> In c u.
Proof.
  unfold read_result. destruct (read_table cfg path _) as [t0 |]; [| discriminate].
  cbn [rbind]. unfold read_csv_contract.
  cbn [opt_names opt_usecols opt_nrows opt_dtype].
  destruct (negb (well_formed t0 && nodupb (names t0))); [discriminate |].
  destruct (apply_usecols (Some u) t0) as [t1 |] eqn:U; [| discriminate].
  cbn [rbind]. apply apply_usecols_spec in U. destruct U as (_ & _ & _ & Un & Uall).
  intros D c. apply apply_dtype_spec in D. destruct D as (_ & -> & _).
  rewrite Un. split; [tauto | auto].
Qed.

Lemma met_run (cfg : Config) (rt : Runtime) (w : World) :
  met cfg rt w
  = (read_result cfg (met_attributes_path rt)
                 (fields_opts (fields w) "MetParams" "internal_name"),
     mkWorld (reads w ++ [met_attributes_path rt]) (fields w)).
Proof.
  unfold met, bind, get_fields. now rewrite read_csv_run.
Qed.

Lemma ssurgo_run (cfg : Config) (state name : string) (w : World) :
  ssurgo cfg state name w
  = (read_result cfg (condensed_soil_path cfg state name)
                 (fields_opts (fields w) name "external_name"),
     mkWorld (reads w ++ [condensed_soil_path cfg state name]) (fields w)).
Proof.
  unfold ssurgo, bind, get_fields. now rewrite read_csv_run.
Qed.

(** X7.  The table [met] returns holds exactly the columns the field
    manager lists for the item MetParams, each once, all of the same
    length; one file has been read, that of the weather attributes, and
    the field manager is as it was. *)
Theorem met_columns :
  forall (cfg : Config) (rt : Runtime) (w w' : World) (out : DataFrame),
    met cfg rt w = (Ok out, w') ->
    (forall c, In c (names out) <-> In c (fetch (fields w) "MetParams" "internal_name"))
    /\ NoDup (names out)
    /\ well_formed out = true
    /\ w' = mkWorld (reads w ++ [met_attributes_path rt]) (fields w).
Proof.
  intros cfg rt w w' out H. rewrite met_run in H. injection H as R <-.
  split; [exact (read_result_usecols _ _ _ _ _ R) |].
  apply read_result_well_formed in R. tauto.
Qed.

(** X8.  [ssurgo] reads the file of the state and table it is asked
    for, and nothing else, whether it returns or raises; the table it
    returns holds exactly the columns the field manager lists for that
    table under their external names, each once. *)
Theorem ssurgo_columns :
  forall (cfg : Config) (state name : string) (w : World),
    snd (ssurgo cfg state name w)
    = mkWorld (reads w ++ [condensed_soil_path cfg state name]) (fields w)
    /\ (forall out, fst (ssurgo cfg state name w) = Ok out ->
          (forall c, In c (names out) <-> In c (fetch (fields w) name "external_name"))
          /\ NoDup (names out)
          /\ well_formed out = true).
Proof.
  intros cfg state name w. rewrite ssurgo_run. cbn [fst snd].
  split; [reflexivity |]. intros out R.
  split; [exact (read_result_usecols _ _ _ _ _ R) |].
  apply read_result_well_formed in R. tauto.
Qed.

(* ===================================================================== *)
(** * [soils]: the region, and the files read                             *)
(* ===================================================================== *)

Lemma reads_in_order_ssurgo (cfg : Config) (state name : string) :
  reads_in_order [condensed_soil_path cfg state name] (ssurgo cfg state name).
Proof.
  intros w. exists [condensed_soil_path cfg state name], [].
  rewrite ssurgo_run. cbn. auto.
Qed.

Lemma reads_in_order_state_soils (cfg : Config) (state : string) :
  reads_in_order (state_paths cfg state) (state_soils cfg state).
Proof.
  change (state_paths cfg state)
    with ([condensed_soil_path cfg state "muaggatt"]
          ++ [condensed_soil_path cfg state "component"]
          ++ []
          ++ [condensed_soil_path cfg state "chorizon"]
          ++ [] ++ []).
  unfold state_soils.
  apply reads_in_order_bind; [apply reads_in_order_ssurgo | intros muaggatt].
  apply reads_in_order_bind; [apply reads_in_order_ssurgo | intros component].
  apply reads_in_order_bind; [apply reads_in_order_lift | intros units].
  apply reads_in_order_bind; [apply reads_in_order_ssurgo | intros chorizon].
  apply reads_in_order_bind; [apply reads_in_order_lift | intros horizons].
  apply reads_in_order_ret.
Qed.

Lemma reads_in_order_joined_soils (cfg : Config) (states : list string) :
  reads_in_order (soil_paths cfg states) (joined_soils cfg states).
Proof.
  unfold soil_paths.
  replace (condensed_soil_path cfg "" "valu" :: flat_map (state_paths cfg) states)
    with ([] ++ [condensed_soil_path cfg "" "valu"]
          ++ flat_map (state_paths cfg) states ++ [] ++ [] ++ [] ++ [])
    by (cbn [app]; now rewrite app_nil_r).
  unfold joined_soils.
  apply reads_in_order_bind; [apply reads_in_order_refresh | intros _].
  apply reads_in_order_bind; [apply reads_in_order_ssurgo | intros valu].
  apply reads_in_order_bind;
    [apply reads_in_order_map_m, reads_in_order_state_soils | intros tables].
  apply reads_in_order_bind; [apply reads_in_order_lift | intros stacked].
  apply reads_in_order_bind; [apply reads_in_order_lift | intros joined].
  apply reads_in_order_bind; [apply reads_in_order_get_fields | intros f].
  apply reads_in_order_ret.
Qed.

Lemma in_add_names (c : string) (acc l : list string) :
  In c (add_names acc l) <-> In c acc \/ In c l.
Proof.
  unfold add_names. revert acc. induction l as [| x l IH]; intros acc; cbn [fold_left].
  - simpl. tauto.
  - rewrite IH. destruct (has_name x acc) eqn:H.
    + apply has_name_In in H. simpl. split; [tauto |].
      intros [I | [<- | I]]; tauto.
    + rewrite in_app_iff. simpl. tauto.
Qed.

(** The stack of one table has the rows and the columns of the table. *)
Lemma concat_rows_one (t : DataFrame) :
  nrows (concat_rows [t]) = nrows t
  /\ (forall c, lookup c (columns (concat_rows [t])) = lookup c (columns t))
  /\ (forall c, In c (names (concat_rows [t])) <-> In c (names t)).
Proof.
  assert (U : forall c, In c (union_names [t]) <-> In c (names t)).
  { intros c. unfold union_names. cbn [fold_left]. rewrite in_add_names. simpl. tauto. }
  unfold concat_rows. cbn [nrows columns map list_sum]. split; [apply Nat.add_0_r |].
  split.
  - intros c. destruct (lookup c (columns t)) as [s |] eqn:L.
    + rewrite (lookup_map_names (fun c => flat_map (column_or_nan c) [t]) c)
        by (apply U; exact (lookup_In_names _ _ _ L)).
      cbn [flat_map]. unfold column_or_nan. now rewrite L, app_nil_r.
    + apply lookup_None_names. rewrite map_map. cbn [fst]. rewrite map_id.
      rewrite U. now apply lookup_None_names.
  - intros c. unfold names. cbn [columns]. rewrite map_map. cbn [fst]. rewrite map_id.
    apply U.
Qed.

Lemma tagged_stack (state : string) (horizons : DataFrame) :
  tagged_with_state state horizons
                    (concat_rows [setitem_scalar horizons "state" (VStr state)]).
Proof.
  destruct (concat_rows_one (setitem_scalar horizons "state" (VStr state)))
    as (Hn & Hl & Hi).
  unfold tagged_with_state. split; [exact Hn |].
  split; [rewrite Hl; unfold setitem_scalar; now rewrite lookup_setitem |].
  split.
  - intros c Ne. rewrite Hl. unfold setitem_scalar. rewrite lookup_setitem.
    destruct (String.eqb_spec c "state"); [contradiction | reflexivity].
  - intros c. rewrite Hi. unfold setitem_scalar. rewrite names_setitem.
    destruct (has_name "state" (names horizons)) eqn:H.
    + apply has_name_In in H. split; [tauto |]. intros [I | ->]; assumption.
    + rewrite in_app_iff. simpl. split; [intros [I | [E | []]]; auto | ].
      intros [I | E]; auto.
Qed.

(** C7.  With a state and no region, [soils] works on that one state.
    When the valu table and the three tables of the state can be read and
    the two joins of the state succeed (muaggatt with component on mukey,
    the result with chorizon on cokey, both outer joins), the outcome of
    the call is that of the inner join on mukey of the state table, tagged
    with the state in the column state, with the valu table, its columns
    renamed by [fields.convert]; the four files have been read, valu
    first, and no other.  And when the call returns a table, these reads
    and joins are how it was built. *)
Theorem soils_one_state :
  forall (cfg : Config) (mode state : string) (w : World),
    let f := refresh_fields cfg (fields w) in
    let read := fun st name =>
                  read_result cfg (condensed_soil_path cfg st name)
                              (fields_opts f name "external_name") in
    let w' := mkWorld (reads w ++ [condensed_soil_path cfg "" "valu";
                                   condensed_soil_path cfg state "muaggatt";
                                   condensed_soil_path cfg state "component";
                                   condensed_soil_path cfg state "chorizon"]) f in
    (forall valu muaggatt component chorizon units horizons,
        read "" "valu" = Ok valu ->
        read state "muaggatt" = Ok muaggatt ->
        read state "component" = Ok component ->
        pd_merge cfg Outer ["mukey"] ("_x", "_y") muaggatt component = Ok units ->
        read state "chorizon" = Ok chorizon ->
        pd_merge cfg Outer ["cokey"] ("_x", "_y") units chorizon = Ok horizons ->
        exists stacked,
          tagged_with_state state horizons stacked
          /\ soils cfg mode None (Some state) w
             = (match pd_merge cfg Inner ["mukey"] ("_x", "_y") stacked valu with
                | Ok joined => Ok (renamed_by (convert f) joined)
                | Raise e => Raise e
                end, w'))
    /\ (forall out w1,
          soils cfg mode None (Some state) w = (Ok out, w1) ->
          exists valu muaggatt component chorizon units horizons stacked joined,
            read "" "valu" = Ok valu
            /\ read state "muaggatt" = Ok muaggatt
            /\ read state "component" = Ok component
            /\ pd_merge cfg Outer ["mukey"] ("_x", "_y") muaggatt component = Ok units
            /\ read state "chorizon" = Ok chorizon
            /\ pd_merge cfg Outer ["cokey"] ("_x", "_y") units chorizon = Ok horizons
            /\ tagged_with_state state horizons stacked
            /\ pd_merge cfg Inner ["mukey"] ("_x", "_y") stacked valu = Ok joined
            /\ out = renamed_by (convert f) joined
            /\ w1 = w').
Proof.
  intros cfg mode state w f read w'.
  assert (E : soils cfg mode None (Some state) w = joined_soils cfg [state] w)
    by now apply soils_runs_pipeline.
  rewrite E. clear E.
  assert (W : forall a b c d,
             (((reads w ++ [a]) ++ [b]) ++ [c]) ++ [d] = reads w ++ [a; b; c; d])
    by (intros; now rewrite <- !app_assoc).
  unfold joined_soils, state_soils. cbn [map_m].
  unfold bind, refresh, lift, ret, get_fields. rewrite !ssurgo_run. cbn [fields reads].
  fold f. change default_suffixes with ("_x", "_y").
  fold (read "" "valu") (read state "muaggatt") (read state "component")
       (read state "chorizon").
  split.
  - intros valu muaggatt component chorizon units horizons Rv Rm Rc M1 Rh M2.
    rewrite Rv, Rm, Rc, M1, Rh, M2. cbn [pd_concat]. rewrite W.
    exists (concat_rows [setitem_scalar horizons "state" (VStr state)]).
    split; [apply tagged_stack |].
    destruct (pd_merge cfg Inner ["mukey"] ("_x", "_y") _ valu); reflexivity.
  - intros out w1 H.
    destruct (read "" "valu") as [valu |]; [| discriminate].
    destruct (read state "muaggatt") as [muaggatt |]; [| discriminate].
    destruct (read state "component") as [component |]; [| discriminate].
    destruct (pd_merge cfg Outer ["mukey"] ("_x", "_y") muaggatt component)
      as [units |] eqn:M1; [| discriminate].
    destruct (read state "chorizon") as [chorizon |]; [| discriminate].
    destruct (pd_merge cfg Outer ["cokey"] ("_x", "_y") units chorizon)
      as [horizons |] eqn:M2; [| discriminate].
    cbn [pd_concat] in H. rewrite W in H.
    destruct (pd_merge cfg Inner ["mukey"] ("_x", "_y")
                       (concat_rows [setitem_scalar horizons "state" (VStr state)]) valu)
      as [joined |] eqn:M3; [| discriminate].
    injection H as <- <-.
    exists valu, muaggatt, component, chorizon, units, horizons,
      (concat_rows [setitem_scalar horizons "state" (VStr state)]), joined.
    repeat (split; [first [reflexivity | assumption | apply tagged_stack] |]).
    reflexivity.
Qed.

Lemma soils_region_runs (cfg : Config) (mode region : string) (state : option string)
      (states : list string) (w : World) :
  dict_get (states_nhd cfg) region = Some states ->
  soils cfg mode (Some region) state w = joined_soils cfg states w.
Proof.
  intros H. apply soils_runs_pipeline. now destruct state.
Qed.

(** Iowa in the example, with aligned tables. *)
Lemma soils_one_state_example :
  exists stacked,
    tagged_with_state "IA" demo_horizons stacked
    /\ soils demo_soil_config "pwc" None (Some "IA") demo_more_world
       = (match pd_merge demo_soil_config Inner ["mukey"] ("_x", "_y") stacked demo_valu with
          | Ok joined => Ok (renamed_by (convert demo_more_fields) joined)
          | Raise e => Raise e
          end,
          mkWorld ["_valu.csv"; "IA_muaggatt.csv"; "IA_component.csv"; "IA_chorizon.csv"]
                  demo_more_fields).
Proof.
  apply (proj1 (soils_one_state demo_soil_config "pwc" "IA" demo_more_world)
               demo_valu demo_muaggatt demo_component demo_chorizon
               demo_units demo_horizons);
    reflexivity.
Defined.

(** The table that call returns. *)
Lemma soils_one_state_example_table :
  fst (soils demo_soil_config "pwc" None (Some "IA") demo_more_world)
  = Ok (mkDF 2 [("mukey", ints [100; 101]%Z); ("hydgrpdcd", texts ["A"; "B"]);
                ("cokey", ints [1; 2]%Z); ("hzdept_r", ints [0; 30]%Z);
                ("state", texts ["IA"; "IA"]); ("rootznemc", ints [150; 120]%Z)]).
Proof. vm_compute. reflexivity. Qed.

(** X9.  When a region is passed to [soils], the argument [state] is
    not looked at: the states are those of the region. *)
Theorem soils_region_over_state :
  forall (cfg : Config) (mode region : string) (state state' : option string)
         (w : World),
    soils cfg mode (Some region) state w = soils cfg mode (Some region) state' w.
Proof.
  intros cfg mode region state state' w. unfold soils.
  destruct state, state'; reflexivity.
Qed.

(** X10.  A region that the table of states does not know makes [soils]
    raise [KeyError] before any file is read; the field manager has been
    refreshed by then. *)
Theorem soils_unknown_region :
  forall (cfg : Config) (mode region : string) (state : option string) (w : World),
    dict_get (states_nhd cfg) region = None ->
    soils cfg mode (Some region) state w
    = (Raise (KeyError region), mkWorld (reads w) (refresh_fields cfg (fields w))).
Proof.
  intros cfg mode region state w H. unfold soils, bind, refresh, raise.
  destruct state; now rewrite H.
Qed.

(** X11.  Called with neither a region nor a state, [soils] looks up
    [None] in the table of states and raises [KeyError] before any file is
    read. *)
Theorem soils_no_region_no_state :
  forall (cfg : Config) (mode : string) (w : World),
    soils cfg mode None None w
    = (Raise (KeyError "None"), mkWorld (reads w) (refresh_fields cfg (fields w))).
Proof.
  intros cfg mode w. unfold soils, bind, refresh, raise. reflexivity.
Qed.

(** X12.  For a region without states [soils] never returns: it reads
    the valu table and nothing else, and when that table can be read the
    concatenation of no state table raises [ValueError]. *)
Theorem soils_no_states :
  forall (cfg : Config) (mode region : string) (state : option string) (w : World),
    dict_get (states_nhd cfg) region = Some [] ->
    exists e,
      soils cfg mode (Some region) state w
      = (Raise e, mkWorld (reads w ++ [condensed_soil_path cfg "" "valu"])
                          (refresh_fields cfg (fields w)))
      /\ (forall valu,
            read_result cfg (condensed_soil_path cfg "" "valu")
                        (fields_opts (refresh_fields cfg (fields w)) "valu" "external_name")
            = Ok valu ->
            e = ValueError "No objects to concatenate").
Proof.
  intros cfg mode region state w H.
  rewrite (soils_region_runs cfg mode region state [] w H).
  unfold joined_soils, bind, refresh. rewrite ssurgo_run. cbn [fields reads].
  destruct (read_result _ _ _) as [valu | e].
  - cbn. eexists. split; [reflexivity | reflexivity].
  - exists e. split; [reflexivity | discriminate].
Qed.

(** X13.  [soils] on a region reads the valu table first, then for each
    state of the region, in the order of the table of states, the tables
    muaggatt, component and chorizon, and no other file; when it returns
    it has read them all. *)
Theorem soils_read_order :
  forall (cfg : Config) (mode region : string) (state : option string)
         (states : list string),
    dict_get (states_nhd cfg) region = Some states ->
    reads_in_order (soil_paths cfg states) (soils cfg mode (Some region) state).
Proof.
  intros cfg mode region state states H.
  apply (reads_in_order_ext _ _ (joined_soils cfg states)).
  - intros w. now apply soils_region_runs.
  - apply reads_in_order_joined_soils.
Qed.

Lemma soils_unknown_region_example :
  soils (demo_config demo_more_files) "pwc" (Some "18") (Some "CA") demo_more_world
  = (Raise (KeyError "18"), mkWorld [] demo_more_fields).
Proof.
  apply (soils_unknown_region (demo_config demo_more_files) "pwc" "18" (Some "CA")
                              demo_more_world).
  reflexivity.
Defined.

Lemma soils_no_states_example :
  exists e,
    soils (with_states (demo_config demo_more_files) [("00", [])]) "pwc" (Some "00") None
          demo_more_world
    = (Raise e, mkWorld ["_valu.csv"] demo_more_fields)
    /\ (forall valu,
          read_result (with_states (demo_config demo_more_files) [("00", [])])
                      "_valu.csv" (fields_opts demo_more_fields "valu" "external_name")
          = Ok valu ->
          e = ValueError "No objects to concatenate").
Proof.
  apply (soils_no_states (with_states (demo_config demo_more_files) [("00", [])])
                         "pwc" "00" None demo_more_world).
  reflexivity.
Defined.

(** Iowa alone, with aligned tables: the call returns, and the four files
    have been read. *)
Lemma soils_read_order_example :
  exists done rest,
    ["_valu.csv"; "IA_muaggatt.csv"; "IA_component.csv"; "IA_chorizon.csv"] = done ++ rest
    /\ reads (snd (soils demo_soil_config "pwc" (Some "07") None demo_more_world))
       = [] ++ done
    /\ (forall a, fst (soils demo_soil_config "pwc" (Some "07") None demo_more_world) = Ok a ->
                  rest = []).
Proof.
  apply (soils_read_order demo_soil_config "pwc" "07" None ["IA"] eq_refl demo_more_world).
Defined.

(** What that call returns and what it has read. *)
Lemma soils_example_returns :
  exists out,
    soils demo_soil_config "pwc" (Some "07") None demo_more_world
    = (Ok out, mkWorld ["_valu.csv"; "IA_muaggatt.csv"; "IA_component.csv";
                        "IA_chorizon.csv"] demo_more_fields)
    /\ names out = ["mukey"; "hydgrpdcd"; "cokey"; "hzdept_r"; "state"; "rootznemc"].
Proof.
  eexists. split; [vm_compute; reflexivity | reflexivity].
Qed.

(** Under a join that raises, the call stops after the second table of the
    first state. *)
Lemma soils_example_join_raises :
  soils (demo_config demo_more_files) "pwc" (Some "07") None demo_more_world
  = (Raise (ValueError "no join in this example"),
     mkWorld ["_valu.csv"; "IA_muaggatt.csv"; "IA_component.csv"] demo_more_fields).
Proof. vm_compute. reflexivity. Qed.

(* ===================================================================== *)
(** * [combinations]: failure, columns and rows                           *)
(* ===================================================================== *)

Lemma year_combinations_run (cfg : Config) (region : string) (nrows_opt : option nat)
      (year : Z) (w : World) :
  year_combinations cfg region nrows_opt year w
  = (year_result cfg region nrows_opt year,
     mkWorld (reads w ++ [combo_path cfg region year]) (fields w)).
Proof.
  unfold year_combinations, year_result, bind, lift, ret. rewrite read_csv_run.
  destruct (read_result _ _ _) as [t |]; [| reflexivity].
  cbn [rbind]. destruct (select t combo_header); reflexivity.
Qed.

Lemma map_m_years_Ok (cfg : Config) (region : string) (nrows_opt : option nat)
      (years : list Z) (ts : list DataFrame) (w w' : World) :
  map_m (year_combinations cfg region nrows_opt) years w = (Ok ts, w') ->
  w' = mkWorld (reads w ++ map (combo_path cfg region) years) (fields w)
  /\ Forall2 (fun y t => year_result cfg region nrows_opt y = Ok t) years ts.
Proof.
  revert ts w. induction years as [| y years IH]; intros ts w; cbn [map_m map].
  - unfold ret. intros H. injection H as <- <-. rewrite app_nil_r.
    split; [now destruct w | constructor].
  - unfold bind at 1. rewrite year_combinations_run.
    destruct (year_result cfg region nrows_opt y) as [t |] eqn:Y; [| discriminate].
    unfold bind at 1.
    destruct (map_m _ years _) as [[ts' | e] w1] eqn:E; [| discriminate].
    unfold ret. intros H. injection H as <- <-.
    apply IH in E. destruct E as [-> F]. cbn [reads fields].
    split; [now rewrite <- app_assoc | now constructor].
Qed.

Lemma map_m_years_run (cfg : Config) (region : string) (nrows_opt : option nat)
      (years : list Z) (w : World) :
  Forall (fun y => exists t, year_result cfg region nrows_opt y = Ok t) years ->
  exists ts,
    map_m (year_combinations cfg region nrows_opt) years w
    = (Ok ts, mkWorld (reads w ++ map (combo_path cfg region) years) (fields w)).
Proof.
  intros F. revert w. induction F as [| y years [t Y] _ IH]; intros w; cbn [map_m map].
  - exists []. unfold ret. rewrite app_nil_r. now destruct w.
  - unfold bind at 1. rewrite year_combinations_run, Y.
    destruct (IH (mkWorld (reads w ++ [combo_path cfg region y]) (fields w))) as [ts E].
    unfold bind at 1. rewrite E. exists (t :: ts). unfold ret. cbn [reads fields].
    now rewrite <- app_assoc.
Qed.

Lemma map_m_years_fail (cfg : Config) (region : string) (nrows_opt : option nat)
      (pre : list Z) (y : Z) (post : list Z) (e : exn) (w : World) :
  Forall (fun y => exists t, year_result cfg region nrows_opt y = Ok t) pre ->
  year_result cfg region nrows_opt y = Raise e ->
  map_m (year_combinations cfg region nrows_opt) (pre ++ y :: post) w
  = (Raise e, mkWorld (reads w ++ map (combo_path cfg region) (pre ++ [y])) (fields w)).
Proof.
  intros F Y. revert w. induction F as [| y0 pre [t Y0] _ IH]; intros w;
    cbn [app map_m map].
  - unfold bind at 1. now rewrite year_combinations_run, Y.
  - unfold bind at 1. rewrite year_combinations_run, Y0.
    unfold bind at 1. rewrite IH. cbn [reads fields]. now rewrite <- app_assoc.
Qed.

Lemma year_result_table (cfg : Config) (region : string) (nrows_opt : option nat)
      (year : Z) (t : DataFrame) :
  year_result cfg region nrows_opt year = Ok t -> year_table nrows_opt year t.
Proof.
  intros H.
  apply (year_combinations_table cfg region nrows_opt year (mkWorld [] (mkFields
           (fun _ _ => []) (fun _ _ => []) (fun _ => None)))
           (mkWorld ([] ++ [combo_path cfg region year]) (mkFields
           (fun _ _ => []) (fun _ _ => []) (fun _ => None))) t).
  now rewrite year_combinations_run, H.
Qed.

Lemma list_sum_bound (n : nat) (l : list nat) :
  Forall (fun x => x <= n) l -> list_sum l <= n * length l.
Proof.
  induction 1 as [| x l H _ IH]; simpl; [lia |].
  rewrite Nat.mul_succ_r. lia.
Qed.

Lemma fold_stack_Some (ts : list DataFrame) (t : DataFrame) :
  exists out, fold_left stack_step ts (Some t) = Some out.
Proof.
  revert t. induction ts as [| t' ts IH]; intros t; cbn [fold_left]; [eauto |].
  unfold stack_step at 2. apply IH.
Qed.

(** The table of a year against the file of the year. *)
Lemma year_result_file (cfg : Config) (region : string) (nrows_opt : option nat)
      (year : Z) (t : DataFrame) :
  year_result cfg region nrows_opt year = Ok t ->
  exists file,
    read_result cfg (combo_path cfg region year) (combo_opts nrows_opt) = Ok file
    /\ names t = combo_header ++ ["year"]
    /\ nrows t = nrows file
    /\ (forall n, nrows_opt = Some n -> nrows file <= n)
    /\ lookup "year" (columns t) = Some (repeat (VInt (int16 year)) (nrows file))
    /\ (forall c, In c combo_header ->
          exists s, lookup c (columns file) = Some s
                    /\ column_or_nan c t = s /\ Forall is_uint32 s).
Proof.
  intros H. pose proof (year_result_table _ _ _ _ _ H) as (N & B & Y & U).
  unfold year_result in H. fold (combo_opts nrows_opt) in H.
  destruct (read_result cfg (combo_path cfg region year) (combo_opts nrows_opt))
    as [file |]; [| discriminate].
  cbn [rbind] in H. destruct (select file combo_header) as [sel |] eqn:S; [| discriminate].
  cbn [rbind] in H. injection H as <-. exists file.
  apply select_spec in S. destruct S as (Ns & Rs & Ls).
  assert (Rt : nrows (setitem_scalar sel "year" (VInt (int16 year))) = nrows file)
    by exact Rs.
  split; [reflexivity |]. split; [exact N |]. split; [exact Rt |].
  split; [intros n E; rewrite <- Rt; now apply B |].
  split; [rewrite <- Rt; exact Y |].
  intros c I.
  assert (Ne : String.eqb c "year" = false).
  { apply String.eqb_neq. intros ->. unfold combo_header in I. simpl in I.
    intuition discriminate. }
  destruct (lookup c (columns sel)) as [s |] eqn:L.
  - exists s. split; [now apply Ls |].
    assert (Lt : lookup c (columns (setitem_scalar sel "year" (VInt (int16 year))))
                 = Some s).
    { unfold setitem_scalar. now rewrite lookup_setitem, Ne. }
    split; [unfold column_or_nan; now rewrite Lt | exact (U c s I Lt)].
  - apply lookup_None_names in L. exfalso. apply L. fold (names sel). now rewrite Ns.
Qed.

(** The tables of the years against the files of the years. *)
Lemma year_results_files (cfg : Config) (region : string) (nrows_opt : option nat)
      (years : list Z) (ts : list DataFrame) :
  Forall2 (fun y t => year_result cfg region nrows_opt y = Ok t) years ts ->
  exists files,
    Forall2 (fun y file => read_result cfg (combo_path cfg region y) (combo_opts nrows_opt)
                           = Ok file) years files
    /\ Forall (fun t => names t = combo_header ++ ["year"]) ts
    /\ map nrows ts = map nrows files
    /\ (forall n, nrows_opt = Some n -> Forall (fun file => nrows file <= n) files)
    /\ map (column_or_nan "year") ts
       = map (fun yf => repeat (VInt (int16 (fst yf))) (nrows (snd yf)))
             (combine years files)
    /\ (forall c, In c combo_header ->
          Forall2 (fun file s => lookup c (columns file) = Some s)
                  files (map (column_or_nan c) ts)
          /\ Forall (Forall is_uint32) (map (column_or_nan c) ts)).
Proof.
  induction 1 as [| y t years ts Y _ (files & Fr & Fn & Mn & Fb & My & Fc)].
  - exists []. split; [constructor |]. split; [constructor |].
    split; [reflexivity |]. split; [intros n _; constructor |].
    split; [reflexivity |]. intros c _. split; constructor.
  - apply year_result_file in Y. destruct Y as (file & R & N & Rn & B & Ly & Lc).
    exists (file :: files). split; [now constructor |]. split; [now constructor |].
    split; [cbn [map]; now rewrite Rn, Mn |].
    split; [intros n E; constructor; [now apply B | now apply Fb] |].
    split.
    + cbn [map combine fst snd]. rewrite <- My. f_equal.
      unfold column_or_nan. now rewrite Ly.
    + intros c I. destruct (Lc c I) as (s & Ls & Cs & Us).
      destruct (Fc c I) as [F2 FU]. cbn [map]. rewrite Cs.
      split; constructor; assumption.
Qed.

(** C5.  For a non empty list of years: [combinations] returns a table
    whenever the file of every year can be read as unsigned 32 bit
    integers and holds the five columns of the header, having read the
    files in the order of the years; and a table it returns is the stack,
    in the order of the years, of the tables read for the years, each
    restricted to the columns gridcode, cdl, weather_grid, mukey and area,
    with the column year holding that year as a 16 bit integer on the rows
    of its file, and with at most [nrows] rows of each file. *)
Theorem combinations_stacks_years :
  forall (cfg : Config) (region : string) (years : list Z) (nrows_opt : option nat)
         (w : World),
    years <> [] ->
    (forall files,
        Forall2 (fun y file => read_result cfg (combo_path cfg region y)
                                           (combo_opts nrows_opt) = Ok file)
                years files ->
        Forall (fun file => forall c, In c combo_header -> In c (names file)) files ->
        exists out,
          combinations cfg region years nrows_opt w
          = (Ok (Some out),
             mkWorld (reads w ++ map (combo_path cfg region) years) (fields w)))
    /\ (forall out w',
          combinations cfg region years nrows_opt w = (Ok (Some out), w') ->
          exists files,
            Forall2 (fun y file => read_result cfg (combo_path cfg region y)
                                               (combo_opts nrows_opt) = Ok file)
                    years files
            /\ stacked_years nrows_opt years files out).
Proof.
  intros cfg region years nrows_opt w NE. split.
  - intros files Fr Fh.
    assert (F : Forall (fun y => exists t, year_result cfg region nrows_opt y = Ok t) years).
    { clear NE. induction Fr as [| y file years files R _ IH]; constructor.
      - unfold year_result. fold (combo_opts nrows_opt). rewrite R. cbn [rbind].
        destruct (rmap_named_lookup file combo_header (Forall_inv Fh))
          as (idcols & S & _).
        unfold select. rewrite S. cbn [rbind]. eauto.
      - apply IH. exact (Forall_inv_tail Fh). }
    destruct (map_m_years_run cfg region nrows_opt years w F) as [ts E].
    unfold combinations. rewrite combinations_loop. unfold bind. rewrite E. unfold ret.
    apply map_m_years_Ok in E. destruct E as [_ F2]. apply Forall2_length in F2.
    destruct ts as [| t ts].
    + destruct years; [congruence | discriminate].
    + cbn [fold_left]. unfold stack_step at 2.
      destruct (fold_stack_Some ts t) as [out ->]. eauto.
  - intros out w' H.
    unfold combinations in H. rewrite combinations_loop in H. unfold bind, ret in H.
    destruct (map_m _ years w) as [[ts | e] w1] eqn:E; [| discriminate].
    injection H as H _. apply map_m_years_Ok in E. destruct E as [_ F].
    apply year_results_files in F.
    destruct F as (files & Fr & Fn & Mn & Fb & My & Fc).
    exists files. split; [exact Fr |].
    destruct ts as [| t ts]; [discriminate |].
    rewrite (fold_stack_none _ combo_columns_NoDup t ts Fn) in H. injection H as <-.
    rewrite (concat_rows_same _ combo_columns_NoDup t ts Fn).
    unfold stacked_years, names. cbn [nrows columns].
    split; [rewrite map_map; cbn [fst]; now rewrite map_id |].
    split; [now rewrite Mn |].
    split; [| split; [| split; [| exact Fb]]].
    + intros c I. destruct (Fc c I) as [F2 FU].
      exists (map (column_or_nan c) (t :: ts)).
      split; [exact F2 |]. split; [exact FU |].
      rewrite (lookup_map_names (fun c => flat_map (column_or_nan c) (t :: ts)) c)
        by (apply in_or_app; now left).
      f_equal. apply flat_map_concat_map.
    + rewrite (lookup_map_names (fun c => flat_map (column_or_nan c) (t :: ts)) "year")
        by (apply in_or_app; right; now left).
      f_equal. etransitivity; [apply flat_map_concat_map |]. f_equal. exact My.
    + apply Forall_forall. intros y _ Hy.
      change (2 ^ 15)%Z with 32768%Z in *. change (2 ^ 16)%Z with 65536%Z.
      rewrite Z.mod_small; lia.
Qed.

(** Two years of the example region, two rows of each at most: the four
    rows of the stack. *)
Lemma combinations_stacks_years_example :
  (forall files,
      Forall2 (fun y file => read_result (demo_config demo_files)
                                         (combo_path (demo_config demo_files) "07" y)
                                         (combo_opts (Some 2)) = Ok file)
              [2015; 2016]%Z files ->
      Forall (fun file => forall c, In c combo_header -> In c (names file)) files ->
      exists out,
        combinations (demo_config demo_files) "07" [2015; 2016]%Z (Some 2) demo_world
        = (Ok (Some out),
           mkWorld (reads demo_world
                    ++ map (combo_path (demo_config demo_files) "07") [2015; 2016]%Z)
                   (fields demo_world)))
  /\ (forall out w',
        combinations (demo_config demo_files) "07" [2015; 2016]%Z (Some 2) demo_world
        = (Ok (Some out), w') ->
        exists files,
          Forall2 (fun y file => read_result (demo_config demo_files)
                                             (combo_path (demo_config demo_files) "07" y)
                                             (combo_opts (Some 2)) = Ok file)
                  [2015; 2016]%Z files
          /\ stacked_years (Some 2) [2015; 2016]%Z files out).
Proof.
  apply (combinations_stacks_years (demo_config demo_files) "07" [2015; 2016]%Z
                                   (Some 2) demo_world).
  discriminate.
Defined.

(** What the call returns on the example: the first two rows of 2015,
    then the two rows of 2016. *)
Lemma combinations_example_table :
  fst (combinations (demo_config demo_files) "07" [2015; 2016]%Z (Some 2) demo_world)
  = Ok (Some (mkDF 4 [("gridcode", ints [1; 2; 1; 2]%Z);
                      ("cdl", ints [1; 5; 5; 5]%Z);
                      ("weather_grid", ints [10; 10; 10; 10]%Z);
                      ("mukey", ints [100; 101; 100; 101]%Z);
                      ("area", ints [900; 1800; 900; 1800]%Z);
                      ("year", ints [2015; 2015; 2016; 2016]%Z)])).
Proof. vm_compute. reflexivity. Qed.

(** X14.  [combinations] stops at the first year whose table cannot be
    built: when the years before [y] read well and [y] raises, the call
    raises that exception, having read the files of the years up to [y],
    in order, and none of the later years. *)
Theorem combinations_fails_fast :
  forall (cfg : Config) (region : string) (pre : list Z) (y : Z) (post : list Z)
         (nrows_opt : option nat) (e : exn) (w : World),
    Forall (fun y => exists t, year_result cfg region nrows_opt y = Ok t) pre ->
    year_result cfg region nrows_opt y = Raise e ->
    combinations cfg region (pre ++ y :: post) nrows_opt w
    = (Raise e,
       mkWorld (reads w ++ map (combo_path cfg region) (pre ++ [y])) (fields w)).
Proof.
  intros cfg region pre y post nrows_opt e w F Y.
  unfold combinations. rewrite combinations_loop. unfold bind.
  now rewrite (map_m_years_fail cfg region nrows_opt pre y post e w F Y).
Qed.

(** X15.  A table that [combinations] returns holds the five columns
    of the header and the column year, in this order, whatever other
    columns the files hold; with [nrows] it has at most [nrows] rows for
    each year; the files of all the years have been read, in the order of
    the years. *)
Theorem combinations_columns_and_rows :
  forall (cfg : Config) (region : string) (years : list Z) (nrows_opt : option nat)
         (w w' : World) (out : DataFrame),
    combinations cfg region years nrows_opt w = (Ok (Some out), w') ->
    names out = combo_header ++ ["year"]
    /\ (forall n, nrows_opt = Some n -> nrows out <= n * length years)
    /\ w' = mkWorld (reads w ++ map (combo_path cfg region) years) (fields w).
Proof.
  intros cfg region years nrows_opt w w' out H.
  unfold combinations in H. rewrite combinations_loop in H. unfold bind, ret in H.
  destruct (map_m _ years w) as [[ts | e] w1] eqn:E; [| discriminate].
  injection H as H <-. apply map_m_years_Ok in E. destruct E as [-> F].
  assert (T : Forall (year_table_of nrows_opt) ts).
  { clear H. induction F as [| y t years ts Y _ IH]; constructor; [| exact IH].
    exists y. now apply year_result_table in Y. }
  assert (L : length ts = length years) by (symmetry; exact (Forall2_length F)).
  destruct ts as [| t ts]; [discriminate |].
  assert (N : Forall (fun t => names t = combo_header ++ ["year"]) (t :: ts)).
  { apply Forall_forall. intros t' I. rewrite Forall_forall in T.
    destruct (T t' I) as [y (Hn & _)]. exact Hn. }
  rewrite (fold_stack_none _ combo_columns_NoDup t ts N) in H. injection H as <-.
  split; [exact (names_concat_rows_same _ combo_columns_NoDup t ts N) |].
  split; [| reflexivity].
  intros n Hn. unfold concat_rows. cbn [nrows]. rewrite <- L, <- (length_map nrows).
  apply list_sum_bound. apply Forall_map. apply Forall_forall. intros t' I.
  rewrite Forall_forall in T. destruct (T t' I) as [y (_ & Hb & _)]. now apply Hb.
Qed.

(** The example region has no file for 2017: the call stops there and
    does not read the file of 2016. *)
Lemma combinations_fails_fast_example :
  combinations (demo_config demo_more_files) "07" [2015; 2017; 2016]%Z None demo_more_world
  = (Raise (FileNotFoundError "combos_07_year.csv"),
     mkWorld ["combos_07_2015.csv"; "combos_07_year.csv"] demo_more_fields).
Proof.
  apply (combinations_fails_fast (demo_config demo_more_files) "07" [2015%Z] 2017%Z
                                 [2016%Z] None
                                 (FileNotFoundError "combos_07_year.csv") demo_more_world).
  - repeat constructor. eexists. reflexivity.
  - reflexivity.
Defined.

(** Two years, two rows of each at most: four rows, six columns, the
    column watershed of the files is gone. *)
Lemma combinations_columns_and_rows_example :
  exists out,
    combinations (demo_config demo_more_files) "07" [2015; 2016]%Z (Some 2) demo_more_world
    = (Ok (Some out), mkWorld ["combos_07_2015.csv"; "combos_07_2016.csv"] demo_more_fields)
    /\ nrows out = 4
    /\ names out = combo_header ++ ["year"]
    /\ (forall n, Some 2 = Some n -> nrows out <= n * 2).
Proof.
  eexists. split; [reflexivity |]. split; [reflexivity |].
  refine (let H := combinations_columns_and_rows
                     (demo_config demo_more_files) "07" [2015; 2016]%Z (Some 2)
                     demo_more_world
                     (mkWorld ["combos_07_2015.csv"; "combos_07_2016.csv"] demo_more_fields)
                     _ eq_refl in _).
  destruct H as (Hn & Hr & _). split; [exact Hn | exact Hr].
Defined.

(** The example weather file: the column station is not a field of
    MetParams and is left out. *)
Lemma met_columns_example :
  exists out,
    met (demo_config demo_more_files) demo_runtime demo_more_world
    = (Ok out, mkWorld ["met.csv"] demo_more_fields)
    /\ names out = ["weather_grid"; "anetd"]
    /\ (forall c, In c (names out) <-> In c ["weather_grid"; "anetd"])
    /\ NoDup (names out)
    /\ well_formed out = true
    /\ mkWorld ["met.csv"] demo_more_fields = mkWorld ([] ++ ["met.csv"]) demo_more_fields.
Proof.
  exists (mkDF 2 [("weather_grid", ints [10; 11]%Z); ("anetd", [VFloat 17; VFloat 20])]).
  split; [reflexivity |]. split; [reflexivity |].
  apply (met_columns (demo_config demo_more_files) demo_runtime demo_more_world
                     (mkWorld ["met.csv"] demo_more_fields)).
  reflexivity.
Defined.

(* ===================================================================== *)
(** * [gdd]: what every returned table satisfies                          *)
(* ===================================================================== *)

Lemma rstrip_idem (chars s : string) :
  rstrip chars (rstrip chars s) = rstrip chars s.
Proof.
  induction s as [| a s IH]; [reflexivity |].
  cbn [rstrip]. destruct (rstrip chars s) as [| b r] eqn:R.
  - destruct (in_chars a chars) eqn:I; [reflexivity |].
    cbn [rstrip]. now rewrite I.
  - change (rstrip chars (String a (String b r)))
      with (match rstrip chars (String b r) with
            | EmptyString => if in_chars a chars then EmptyString else String a EmptyString
            | String c r' => String a (String c r')
            end).
    now rewrite IH.
Qed.

(** What [rstrip] leaves ends neither in [_] nor in [f]. *)
Lemma stripped_not_temp_f (c : string) :
  endswith (rstrip "_f" c) "temp_f" = false.
Proof.
  destruct (endswith (rstrip "_f" c) "temp_f") eqn:E; [| reflexivity].
  apply temp_f_name in E. rewrite rstrip_idem in E.
  apply (f_equal String.length) in E. rewrite append_length in E.
  cbn [String.length] in E. lia.
Qed.

Lemma NoDup_remove_col_name (c : string) (l : list string) :
  NoDup l -> NoDup (remove_col_name c l).
Proof.
  induction l as [| c0 l IH]; simpl; intros ND; [constructor |].
  pose proof (NoDup_cons_iff c0 l) as [K _]. destruct (K ND) as [NI ND'].
  destruct (String.eqb c c0); [exact ND' |].
  constructor; [| auto]. intros I. apply NI.
  now apply (in_remove_col_name c0 c l ND') in I.
Qed.

Lemma NoDup_snoc (l : list string) (c : string) :
  NoDup l -> ~ In c l -> NoDup (l ++ [c]).
Proof.
  intros ND NI. induction ND as [| x l Hx _ IH]; simpl.
  - constructor; [tauto | constructor].
  - constructor.
    + rewrite in_app_iff. simpl. intros [I | [E | []]]; [tauto |].
      apply NI. now left.
    + apply IH. intros I. apply NI. now right.
Qed.

(** One turn of the conversion loop: the names stay distinct, and a
    Fahrenheit name in the table afterwards was there before and is not the
    one of this turn. *)
Lemma gdd_convert_names (col : string) (t t' : DataFrame) :
  NoDup (names t) -> gdd_convert col t = Ok t' ->
  NoDup (names t')
  /\ (forall c, In c (names t') -> endswith c "temp_f" = true ->
                In c (names t) /\ c <> col).
Proof.
  intros ND H. unfold gdd_convert in H.
  destruct (endswith col "temp_f") eqn:T.
  - unfold pop in H. destruct (getitem t col) as [s |]; [| discriminate].
    cbn [rbind fst snd] in H.
    destruct (fahrenheit_to_celsius s) as [s' |]; [| discriminate].
    cbn [rbind] in H. injection H as <-.
    set (t1 := mkDF (nrows t) (remove_col col (columns t))).
    assert (N1 : names t1 = remove_col_name col (names t)).
    { unfold t1, names. cbn [columns]. apply names_remove_col. }
    assert (ND1 : NoDup (names t1)) by (rewrite N1; now apply NoDup_remove_col_name).
    rewrite names_setitem.
    destruct (has_name (rstrip "_f" col) (names t1)) eqn:Hn.
    + split; [exact ND1 |]. intros c I _. rewrite N1 in I.
      now apply in_remove_col_name in I.
    + apply has_name_not_In in Hn. split; [now apply NoDup_snoc |].
      intros c I Tc. apply in_app_iff in I. destruct I as [I | [<- | []]].
      * rewrite N1 in I. now apply in_remove_col_name in I.
      * rewrite (stripped_not_temp_f col) in Tc. discriminate.
  - injection H as <-. split; [exact ND |]. intros c I Tc.
    split; [exact I |]. intros ->. congruence.
Qed.

Lemma gdd_loop_names (l : list string) (t t' : DataFrame) :
  NoDup (names t) ->
  (forall c, In c (names t) -> endswith c "temp_f" = true -> In c l) ->
  rfor l gdd_convert t = Ok t' ->
  forall c, In c (names t') -> endswith c "temp_f" = false.
Proof.
  revert t. induction l as [| col l IH]; intros t ND Hl H; cbn [rfor] in H.
  - injection H as <-. intros c I. destruct (endswith c "temp_f") eqn:T; [| reflexivity].
    destruct (Hl c I T).
  - destruct (gdd_convert col t) as [t1 |] eqn:G; [| discriminate].
    cbn [rbind] in H. destruct (gdd_convert_names col t t1 ND G) as [ND1 K].
    apply (IH t1 ND1); [| exact H].
    intros c I T. destruct (K c I T) as [I0 Ne].
    destruct (Hl c I0 T) as [E | I']; [congruence | exact I'].
Qed.

Lemma dropna_names (t t' : DataFrame) (subset : list string) :
  dropna t subset = Ok t' -> names t' = names t.
Proof.
  unfold dropna. destruct (rmap (getitem t) subset) as [cols |]; [| discriminate].
  cbn [rbind]. intros H. injection H as <-. unfold filter_rows, names. cbn [columns].
  apply names_map_snd.
Qed.

Lemma keep_and_l (P : value -> Prop) (m1 m2 : list bool) (s : Series) :
  Forall P (keep m1 s) -> Forall P (keep (zip_with andb m1 m2) s).
Proof.
  revert m2 s. induction m1 as [| b m1 IH]; intros m2 s F; [constructor |].
  destruct m2 as [| b2 m2]; [constructor |].
  destruct s as [| v s]; [constructor |].
  cbn [zip_with keep] in *. destruct b; cbn [andb].
  - pose proof (Forall_inv F) as Hv. pose proof (Forall_inv_tail F) as F'.
    destruct b2; [constructor |]; auto.
  - auto.
Qed.

Lemma keep_and_r (P : value -> Prop) (m1 m2 : list bool) (s : Series) :
  Forall P (keep m2 s) -> Forall P (keep (zip_with andb m1 m2) s).
Proof.
  revert m1 s. induction m2 as [| b2 m2 IH]; intros m1 s F.
  - destruct m1; constructor.
  - destruct m1 as [| b m1]; [constructor |].
    destruct s as [| v s]; [constructor |].
    cbn [zip_with keep] in *. destruct b2.
    + pose proof (Forall_inv F) as Hv. pose proof (Forall_inv_tail F) as F'.
      destruct b; cbn [andb]; [constructor |]; auto.
    + rewrite andb_false_r. auto.
Qed.

(** The rows [dropna] keeps have no missing cell in any of the columns it
    looks at. *)
Lemma complete_rows_keep (n : nat) (cols : list Series) (s : Series) :
  In s cols -> Forall (fun v => isna v = false) (keep (complete_rows n cols) s).
Proof.
  unfold complete_rows. induction cols as [| s0 cols IH]; intros I; [destruct I |].
  cbn [fold_right]. destruct I as [-> | I].
  - apply keep_and_l. rewrite keep_map_filter. apply Forall_forall.
    intros v Iv. apply filter_In in Iv. destruct Iv as [_ Nv].
    unfold notna in Nv. now destruct (isna v).
  - apply keep_and_r. now apply IH.
Qed.

Lemma dropna_complete (t out : DataFrame) (subset : list string) :
  dropna t subset = Ok out ->
  forall c, In c subset ->
    exists s, lookup c (columns out) = Some s /\ Forall (fun v => isna v = false) s.
Proof.
  unfold dropna. destruct (rmap (getitem t) subset) as [cols |] eqn:R; [| discriminate].
  cbn [rbind]. intros H c I. injection H as <-.
  apply rmap_Forall2 in R.
  assert (K : exists s, In s cols /\ lookup c (columns t) = Some s).
  { clear - R I. induction R as [| c0 s0 l cols H0 _ IH]; [destruct I |].
    destruct I as [-> | I].
    - exists s0. split; [now left |]. unfold getitem in H0.
      destruct (lookup c (columns t)); [now injection H0 as -> | discriminate].
    - destruct (IH I) as [s [Is L]]. exists s. split; [now right | exact L]. }
  destruct K as [s [Is L]]. exists (keep (complete_rows (nrows t) cols) s).
  split; [rewrite lookup_filter_rows, L; reflexivity | now apply complete_rows_keep].
Qed.

(** What [gdd] does before it returns: the file is read with the default
    options, the loop runs over the names of the table read, the rows
    are dropped. *)
Lemma gdd_Ok (cfg : Config) (grapes : bool) (w w' : World) (out : DataFrame) :
  gdd cfg grapes w = (Ok out, w') ->
  exists t table,
    grapes = false
    /\ read_result cfg (gdd_input_path cfg) default_opts = Ok t
    /\ rfor (names t) gdd_convert t = Ok table
    /\ dropna table gdd_subset = Ok out
    /\ w' = mkWorld (reads w ++ [gdd_input_path cfg]) (fields w).
Proof.
  unfold gdd. destruct grapes; cbn [negb]; [discriminate |].
  unfold bind, lift. rewrite read_csv_run.
  destruct (read_result cfg (gdd_input_path cfg) default_opts) as [t |] eqn:R;
    [| discriminate].
  destruct (rfor (names t) gdd_convert t) as [table |] eqn:L; [| discriminate].
  destruct (dropna table gdd_subset) as [out' |] eqn:D; [| discriminate].
  intros H. injection H as <- <-. exists t, table. auto.
Qed.

(** X16.  No column of a table that [gdd] returns has a name that ends
    in temp_f: every Fahrenheit column of the file has been replaced. *)
Theorem gdd_no_fahrenheit_left :
  forall (cfg : Config) (grapes : bool) (w w' : World) (out : DataFrame),
    gdd cfg grapes w = (Ok out, w') ->
    forall c, In c (names out) -> endswith c "temp_f" = false.
Proof.
  intros cfg grapes w w' out H c I.
  apply gdd_Ok in H. destruct H as (t & table & _ & R & L & D & _).
  apply read_result_well_formed in R. destruct R as [_ ND].
  rewrite (dropna_names _ _ _ D) in I.
  exact (gdd_loop_names (names t) t table ND (fun c I _ => I) L c I).
Qed.

(** X17.  A table that [gdd] returns holds the four growing degree day
    columns, and none of their cells is missing. *)
Theorem gdd_rows_complete :
  forall (cfg : Config) (grapes : bool) (w w' : World) (out : DataFrame),
    gdd cfg grapes w = (Ok out, w') ->
    forall c, In c gdd_subset ->
      exists s, lookup c (columns out) = Some s
                /\ Forall (fun v => isna v = false) s.
Proof.
  intros cfg grapes w w' out H c I.
  apply gdd_Ok in H. destruct H as (t & table & _ & _ & _ & D & _).
  exact (dropna_complete table out gdd_subset D c I).
Qed.

(** The example table: two Fahrenheit columns come back in Celsius, the
    row without an emergence value is gone. *)
Lemma gdd_no_fahrenheit_left_example :
  exists out,
    gdd (demo_config demo_files) false demo_world
    = (Ok out, mkWorld ["gdd.csv"] demo_fields)
    /\ names out = ["crop"; "emergence_gdd"; "maxcover_gdd";
                    "emergence_base_temp"; "maxcover_base_temp"]
    /\ forall c, In c (names out) -> endswith c "temp_f" = false.
Proof.
  eexists. split; [reflexivity |]. split; [reflexivity |].
  apply (gdd_no_fahrenheit_left (demo_config demo_files) false demo_world
                                (mkWorld ["gdd.csv"] demo_fields)).
  reflexivity.
Defined.

Lemma gdd_rows_complete_example :
  exists out,
    gdd (demo_config demo_files) false demo_world
    = (Ok out, mkWorld ["gdd.csv"] demo_fields)
    /\ nrows out = 2
    /\ forall c, In c gdd_subset ->
         exists s, lookup c (columns out) = Some s
                   /\ Forall (fun v => isna v = false) s.
Proof.
  eexists. split; [reflexivity |]. split; [reflexivity |].
  apply (gdd_rows_complete (demo_config demo_files) false demo_world
                           (mkWorld ["gdd.csv"] demo_fields)).
  reflexivity.
Defined.

(* ===================================================================== *)
(** * [crop]: what the adjustment leaves alone, and where the call stops  *)
(* ===================================================================== *)

Lemma adjust_stage_frame (stage : string) (df df' : DataFrame) :
  adjust_stage stage df = Ok df' ->
  names df' = names df /\ nrows df' = nrows df
  /\ (forall c, c <> ("harvest_" ++ stage)%string ->
                lookup c (columns df') = lookup c (columns df)).
Proof.
  unfold adjust_stage.
  destruct (getitem df ("plant_" ++ stage)) as [plant |]; [| discriminate].
  cbn [rbind]. unfold getitem.
  destruct (lookup ("harvest_" ++ stage) (columns df)) as [harvest |] eqn:L;
    [| discriminate].
  cbn [rbind]. destruct (series_gt plant harvest) as [mask |]; [| discriminate].
  cbn [rbind]. destruct (rmap _ (keep mask harvest)) as [selected |]; [| discriminate].
  cbn [rbind]. intros H. injection H as <-.
  split; [| split; [reflexivity |]].
  - rewrite names_setitem.
    assert (K : has_name ("harvest_" ++ stage) (names df) = true).
    { apply has_name_In. exact (lookup_In_names _ _ _ L). }
    match goal with
    | |- (if ?b then _ else _) = _ => replace b with true by (symmetry; exact K)
    end.
    reflexivity.
  - intros c Ne. rewrite lookup_setitem.
    match goal with
    | |- (if String.eqb c ?h then _ else _) = _ =>
        destruct (String.eqb_spec c h); [contradiction | reflexivity]
    end.
Qed.

Lemma adjust_loop_frame (stages : list string) (df df' : DataFrame) :
  rfor stages adjust_stage df = Ok df' ->
  names df' = names df /\ nrows df' = nrows df
  /\ (forall c, ~ In c (map (fun stage => ("harvest_" ++ stage)%string) stages) ->
                lookup c (columns df') = lookup c (columns df)).
Proof.
  revert df. induction stages as [| stage stages IH]; intros df H; cbn [rfor] in H.
  - injection H as <-. auto.
  - destruct (adjust_stage stage df) as [df1 |] eqn:A; [| discriminate].
    cbn [rbind] in H. apply adjust_stage_frame in A. destruct A as (N1 & R1 & L1).
    apply IH in H. destruct H as (N & R & L).
    split; [congruence |]. split; [congruence |].
    intros c NI. cbn [map In] in NI. rewrite L by tauto. apply L1.
    intros E. apply NI. now left.
Qed.

(** X18.  The adjustment of the harvest dates in [crop] changes the four
    harvest columns only: the table keeps its columns, in their order, and
    its rows, and every other column is as it was. *)
Theorem adjust_harvest_frame :
  forall (crop_dates out : DataFrame),
    adjust_harvest crop_dates = Ok out ->
    names out = names crop_dates
    /\ nrows out = nrows crop_dates
    /\ (forall c, ~ In c harvest_columns ->
                  lookup c (columns out) = lookup c (columns crop_dates)).
Proof.
  intros crop_dates out H. exact (adjust_loop_frame crop_stages crop_dates out H).
Qed.

(** X19.  When the three tables of [crop] can be read and the field
    manager lists a date field, the call raises at the first of them:
    [NameError] for the undefined [date_fmt] when the field is a column of
    the crop dates, [KeyError] when it is not.  The three files have been
    read by then, in this order, no other, and the field manager has been
    refreshed. *)
Theorem crop_raises_at_dates :
  forall (cfg : Config) (region : string) (w : World) (field : string)
         (rest : list string) (crop_index crop_params crop_dates : DataFrame),
    let f := refresh_fields cfg (fields w) in
    fetch f "date" "internal_name" = field :: rest ->
    read_result cfg (crop_group_path cfg) (fields_opts f "CropGroups" "internal_name")
    = Ok crop_index ->
    read_result cfg (crop_params_path cfg) (fields_opts f "CropParams" "external_name")
    = Ok crop_params ->
    read_result cfg (crop_dates_path cfg) (fields_opts f "CropDates" "internal_name")
    = Ok crop_dates ->
    crop cfg region w
    = (Raise (if has_name field (names crop_dates) then NameError "date_fmt"
              else KeyError field),
       mkWorld (reads w ++ [crop_group_path cfg; crop_params_path cfg; crop_dates_path cfg])
               f).
Proof.
  intros cfg region w field rest crop_index crop_params crop_dates f D R1 R2 R3.
  unfold crop. unfold bind at 1. cbn [refresh]. fold f.
  unfold read_fields.
  unfold bind at 1. unfold bind at 1. cbn [get_fields fields reads].
  rewrite read_csv_run. cbn [fields reads]. fold (fields_opts f "CropGroups" "internal_name").
  rewrite R1.
  unfold bind at 1. unfold bind at 1. cbn [get_fields fields reads].
  rewrite read_csv_run. cbn [fields reads]. fold (fields_opts f "CropParams" "external_name").
  rewrite R2.
  unfold bind at 1. unfold bind at 1. cbn [get_fields fields reads].
  rewrite read_csv_run. cbn [fields reads]. fold (fields_opts f "CropDates" "internal_name").
  rewrite R3.
  unfold bind at 1. cbn [get_fields fields]. unfold bind at 1. rewrite D.
  rewrite date_loop_raises. rewrite <- !app_assoc. cbn [app]. f_equal.
  destruct (lookup field (columns crop_dates)) eqn:L.
  - apply lookup_In_names in L. apply has_name_In in L. unfold names. now rewrite L.
  - apply lookup_None_names in L. apply has_name_not_In in L. unfold names. now rewrite L.
Qed.

(* ===================================================================== *)
(** * [pwc_outfile]: one file, and what a returned table needed           *)
(* ===================================================================== *)

Lemma str_split_expand_width (sep : ascii) (s : Series) (data : list Series) :
  str_split_expand sep s = Ok data ->
  length data = list_max (map (fun v => match split_cell sep v with
                                        | Some l => length l
                                        | None => 0
                                        end) s).
Proof.
  unfold str_split_expand. destruct (has_str_accessor s); [| discriminate].
  intros H. injection H as <-. rewrite length_map, length_seq. now rewrite map_map.
Qed.

(** X20.  With [preprocessed], [pwc_outfile] returns the table of the
    file as it is read, under the file's own header: no header is imposed,
    no line number shifted, no identifier split. *)
Theorem pwc_outfile_preprocessed :
  forall (cfg : Config) (a : outfile_args) (w : World),
    arg_preprocessed a = true ->
    pwc_outfile cfg a w
    = (read_result cfg (outfile_path cfg a) default_opts,
       mkWorld (reads w ++ [outfile_path cfg a]) (fields w)).
Proof.
  intros cfg a w H. unfold pwc_outfile. rewrite test_path_run.
  unfold pwc_outfile_def, bind, get_fields. rewrite H. cbn [negb].
  apply read_csv_run.
Qed.

(** X21.  [pwc_outfile] reads one file, the one its arguments name, and
    leaves the field manager as it is, whether it returns or raises. *)
Theorem pwc_outfile_one_read :
  forall (cfg : Config) (a : outfile_args) (w : World),
    snd (pwc_outfile cfg a w) = mkWorld (reads w ++ [outfile_path cfg a]) (fields w).
Proof.
  intros cfg a w. unfold pwc_outfile. rewrite test_path_run.
  unfold pwc_outfile_def, bind, get_fields, lift.
  destruct (arg_preprocessed a); cbn [negb]; rewrite read_csv_run; [reflexivity |].
  destruct (read_result _ _ _) as [table |]; [| reflexivity].
  repeat match goal with
         | |- context [match ?r with Ok _ => _ | Raise _ => _ end] =>
             destruct r; try reflexivity
         end.
Qed.

(** X22.  When [pwc_outfile] returns from a file that is not
    preprocessed, the header it imposed holds the fields line_num and
    run_id, the table read has that header, and the longest run identifier
    of the file has exactly one part more than the field manager lists run
    identifier fields. *)
Theorem pwc_outfile_returns_only_if :
  forall (cfg : Config) (a : outfile_args) (w w' : World) (out : DataFrame),
    let header := fetch (fields w) "pwc_id_fields" "internal_name" ++ pwc_durations cfg in
    let run_fields := fetch (fields w) "pwc_run_id" "internal_name" in
    arg_preprocessed a = false ->
    pwc_outfile cfg a w = (Ok out, w') ->
    In "line_num" header /\ In "run_id" header
    /\ exists table ids,
         read_result cfg (outfile_path cfg a)
                     (mkOpts (Some header) (Some "\s+") None InferDtype None)
         = Ok table
         /\ names table = header
         /\ lookup "run_id" (columns table) = Some ids
         /\ list_max (map run_id_parts ids) = S (length run_fields).
Proof.
  intros cfg a w w' out header run_fields Hp H.
  unfold pwc_outfile in H. rewrite test_path_run in H.
  unfold pwc_outfile_def in H. unfold bind at 1 in H. cbn [get_fields] in H.
  rewrite Hp in H. cbn [negb] in H. fold header run_fields in H.
  unfold bind at 1 in H.
  destruct (read_csv cfg (outfile_path cfg a) _ w) as [[table |] w1] eqn:R;
    [| discriminate].
  pose proof (read_csv_named _ _ _ _ _ _ _ R) as (Nt & _ & _).
  rewrite read_csv_run in R. injection R as R _.
  unfold bind, lift in H.
  destruct (getattr table "line_num") as [ln |] eqn:G; [| discriminate].
  destruct (astype Int32 ln) as [ln1 |]; [| discriminate].
  destruct (rmap (value_add_int int32 (-1)) ln1) as [ln2 |]; [| discriminate].
  destruct (pop (setitem table "line_num" ln2) "run_id") as [[ids table2] |] eqn:P;
    [| discriminate].
  cbn [fst snd] in H.
  destruct (str_split_expand "_" ids) as [data |] eqn:S; [| discriminate].
  destruct (set_columns (nrows table2) data ("bunk" :: run_fields)) as [named |] eqn:C;
    [| discriminate].
  clear H.
  assert (Lr : lookup "run_id" (columns table) = Some ids).
  { unfold pop, getitem in P. rewrite lookup_setitem in P.
    cbn [String.eqb Ascii.eqb Bool.eqb] in P.
    destruct (lookup "run_id" (columns table)); [| discriminate].
    cbn [rbind] in P. now injection P as -> _. }
  apply getattr_Ok in G.
  split; [rewrite <- Nt; exact (lookup_In_names _ _ _ G) |].
  split; [rewrite <- Nt; exact (lookup_In_names _ _ _ Lr) |].
  exists table, ids. split; [exact R |]. split; [exact Nt |]. split; [exact Lr |].
  apply str_split_expand_width in S. unfold set_columns in C.
  destruct (Nat.eqb_spec (length ("bunk" :: run_fields)) (length data)) as [E |];
    [| discriminate].
  cbn [length] in E. unfold run_id_parts. now rewrite <- S.
Qed.

(** The example crop dates: the harvest columns of winter wheat move, the
    plant columns and the keys stay. *)
Lemma adjust_harvest_frame_example :
  exists out,
    adjust_harvest demo_crop_dates = Ok out
    /\ lookup "harvest_begin" (columns out) = Some (ints [44097; 44365]%Z)
    /\ names out = names demo_crop_dates
    /\ nrows out = nrows demo_crop_dates
    /\ (forall c, ~ In c harvest_columns ->
                  lookup c (columns out) = lookup c (columns demo_crop_dates)).
Proof.
  eexists. split; [reflexivity |]. split; [reflexivity |].
  apply (adjust_harvest_frame demo_crop_dates). reflexivity.
Defined.

(** [crop] on the example environment stops at plant_begin. *)
Lemma crop_raises_at_dates_example :
  crop (demo_config demo_files) "07" demo_world
  = (Raise (NameError "date_fmt"),
     mkWorld ["crop_groups.csv"; "crop_params.csv"; "crop_dates.csv"] demo_fields).
Proof.
  apply (crop_raises_at_dates (demo_config demo_files) "07" demo_world "plant_begin"
                              (tl demo_date_fields)
                              demo_crop_groups demo_crop_params demo_crop_dates_text);
    reflexivity.
Defined.

(** The example output file read as a preprocessed one comes back as it
    is. *)
Lemma pwc_outfile_preprocessed_example :
  pwc_outfile (demo_config demo_files)
              (mkOutfileArgs None None None None true (Some "out.txt")) demo_world
  = (Ok demo_outfile, mkWorld ["out.txt"] demo_fields).
Proof.
  apply (pwc_outfile_preprocessed
           (demo_config demo_files)
           (mkOutfileArgs None None None None true (Some "out.txt")) demo_world).
  reflexivity.
Defined.

(** The run identifiers of the example file have three parts, for the two
    run identifier fields of the example field manager. *)
Lemma pwc_outfile_returns_only_if_example :
  In "line_num" (["line_num"; "run_id"] ++ ["1-day"; "365-day"])
  /\ In "run_id" (["line_num"; "run_id"] ++ ["1-day"; "365-day"])
  /\ exists table ids,
       read_result (demo_config demo_files) "out.txt"
                   (mkOpts (Some (["line_num"; "run_id"] ++ ["1-day"; "365-day"]))
                           (Some "\s+") None InferDtype None)
       = Ok table
       /\ names table = ["line_num"; "run_id"] ++ ["1-day"; "365-day"]
       /\ lookup "run_id" (columns table) = Some ids
       /\ list_max (map run_id_parts ids) = S (length ["scenario"; "rep"]).
Proof.
  refine (pwc_outfile_returns_only_if
            (demo_config demo_files) demo_outfile_args demo_world
            (mkWorld ["out.txt"] demo_fields) _ eq_refl _).
  vm_compute. reflexivity.
Defined.

(* ===================================================================== *)
(** * [crop]: the two flags                                               *)
(* ===================================================================== *)





(* ===================================================================== *)
(** * [pwc_infile]: the other columns                                     *)
(* ===================================================================== *)

Lemma cast_int64 (v v' : value) : cast Int64 v = Ok v' -> is_int64 v'.
Proof.
  assert (R : forall z, (- 2 ^ 63 <= int64 z < 2 ^ 63)%Z).
  { intros z. unfold int64, wrap_signed.
    change (2 ^ (64 - 1))%Z with (2 ^ 63)%Z.
    pose proof (Z.mod_pos_bound (z + 2 ^ 63) (2 ^ 64) ltac:(lia)) as B.
    change (2 ^ 64)%Z with (2 * 2 ^ 63)%Z in *. lia. }
  destruct v as [z | f | s | b |]; simpl; intros H; try discriminate.
  - injection H as <-. exists (int64 z). auto.
  - destruct (float_trunc f) as [z |]; [| discriminate].
    injection H as <-. exists (int64 z). auto.
  - injection H as <-. exists (if b then 1 else 0)%Z. split; [reflexivity |].
    destruct b; lia.
Qed.

Lemma astype_int64 (s s' : Series) : astype Int64 s = Ok s' -> Forall is_int64 s'.
Proof.
  intros H. apply rmap_Forall2 in H.
  induction H as [| v v' s s' Hv _ IH]; constructor; eauto using cast_int64.
Qed.

(** The column area of a file read by [pwc_infile] holds integers of 64
    bits. *)
Lemma read_infile_area (cfg : Config) (path : string) (t : DataFrame) (s : Series) :
  read_result cfg path infile_opts = Ok t ->
  lookup "area" (columns t) = Some s -> Forall is_int64 s.
Proof.
  unfold read_result. destruct (read_table cfg path infile_opts) as [t0 |];
    [| discriminate].
  cbn [rbind]. unfold read_csv_contract, infile_opts.
  cbn [opt_names opt_usecols opt_nrows opt_dtype apply_usecols].
  destruct (negb (well_formed t0 && nodupb (names t0))); [discriminate |].
  cbn [rbind apply_dtype].
  destruct (rmap _ (columns t0)) as [cs |] eqn:R; [| discriminate].
  cbn [rbind]. intros H L. injection H as <-. cbn [columns] in L.
  apply lookup_In in L. apply rmap_Forall2 in R.
  induction R as [| [c0 s0] q cols cs H0 _ IH]; [destruct L |].
  destruct L as [-> | I]; [| auto].
  cbn [fst snd dict_get] in H0. destruct (String.eqb_spec c0 "area") as [-> | Ne].
  - destruct (parse_series Int64 s0) as [s1 |] eqn:A; [| discriminate].
    cbn [rbind] in H0. injection H0 as <-.
    apply parse_series_astype in A. now apply astype_int64 in A.
  - injection H0 as E. congruence.
Qed.

(** The columns of the result other than region, against those of the
    file: as they are, or with the rows of one mask. *)
Lemma pwc_infile_columns (cfg : Config) (rt : Runtime) (a : infile_args)
      (w w' : World) (out : DataFrame) :
  pwc_infile cfg rt a w = (Ok out, w') ->
  exists table,
    read_result cfg (infile_path cfg rt a) infile_opts = Ok table
    /\ if in_use_parent a then
         exists mask, forall c, c <> "region" ->
           lookup c (columns out) = option_map (keep mask) (lookup c (columns table))
       else
         nrows out = nrows table
         /\ forall c, c <> "region" -> lookup c (columns out) = lookup c (columns table).
Proof.
  intros H. rewrite pwc_infile_run in H. injection H as H _.
  destruct (read_result cfg (infile_path cfg rt a) infile_opts) as [table |];
    [| discriminate].
  cbn [rbind] in H. exists table. split; [reflexivity |].
  assert (K : exists regions,
             match in_region a with
             | Some region => Ok (setitem_scalar table "region" (VStr region))
             | None =>
                 (regions <~ getattr table "region" ;;
                  Ok (setitem table "region"
                              (map (fun region => VStr (zfill 2 (cell_str rt region)))
                                   regions)))%result
             end = Ok (setitem table "region" regions)).
  { destruct (in_region a); [eexists; reflexivity |].
    destruct (getattr table "region") as [regions |]; [| discriminate].
    eexists. reflexivity. }
  destruct K as [regions K]. rewrite K in H. cbn [rbind] in H.
  assert (L : forall c, c <> "region" ->
                lookup c (columns (setitem table "region" regions))
                = lookup c (columns table)).
  { intros c Ne. rewrite lookup_setitem.
    destruct (String.eqb_spec c "region"); [contradiction | reflexivity]. }
  destruct (in_use_parent a).
  - destruct (getattr _ "cdl") as [cdl |]; [| discriminate].
    cbn [rbind] in H. destruct (py_int rt (in_class_num a)) as [n |]; [| discriminate].
    injection H as <-. exists (map (value_eq_int n) cdl). intros c Ne.
    now rewrite lookup_filter_rows, L.
  - injection H as <-. split; [reflexivity | exact L].
Qed.

(** X24.  Without [use_parent], [pwc_infile] returns every row of the
    file, and every column other than region as the file holds it. *)
Theorem pwc_infile_keeps_file :
  forall (cfg : Config) (rt : Runtime) (a : infile_args) (w w' : World)
         (out : DataFrame),
    in_use_parent a = false ->
    pwc_infile cfg rt a w = (Ok out, w') ->
    exists table,
      read_result cfg (infile_path cfg rt a) infile_opts = Ok table
      /\ nrows out = nrows table
      /\ forall c, c <> "region" -> lookup c (columns out) = lookup c (columns table).
Proof.
  intros cfg rt a w w' out Hp H. apply pwc_infile_columns in H.
  rewrite Hp in H. exact H.
Qed.

(** X25.  The column area of a table [pwc_infile] returns, when there is
    one, holds integers of 64 bits. *)
Theorem pwc_infile_area_int64 :
  forall (cfg : Config) (rt : Runtime) (a : infile_args) (w w' : World)
         (out : DataFrame) (area : Series),
    pwc_infile cfg rt a w = (Ok out, w') ->
    lookup "area" (columns out) = Some area ->
    Forall is_int64 area.
Proof.
  intros cfg rt a w w' out area H L. apply pwc_infile_columns in H.
  destruct H as (table & R & K).
  assert (Ne : "area" <> "region") by discriminate.
  destruct (in_use_parent a).
  - destruct K as [mask K]. rewrite (K "area" Ne) in L.
    destruct (lookup "area" (columns table)) as [s |] eqn:La; [| discriminate].
    cbn [option_map] in L. injection L as <-.
    apply keep_Forall. exact (read_infile_area _ _ _ _ R La).
  - destruct K as [_ K]. rewrite (K "area" Ne) in L.
    exact (read_infile_area _ _ _ _ R L).
Qed.

(** An area that is not a whole number makes the read raise. *)
Lemma pwc_infile_example_fraction :
  fst (pwc_infile (demo_config [("scenarios.csv", demo_scenarios_fraction)]) demo_runtime
                  demo_path_args demo_more_world)
  = Raise (ValueError "cannot safely convert passed user dtype").
Proof. vm_compute. reflexivity. Qed.

Lemma pwc_infile_keeps_file_example :
  exists table,
    read_result (demo_config demo_more_files) "scenarios.csv" infile_opts = Ok table
    /\ nrows demo_scenarios_out = nrows table
    /\ forall c, c <> "region" ->
         lookup c (columns demo_scenarios_out) = lookup c (columns table).
Proof.
  apply (pwc_infile_keeps_file (demo_config demo_more_files) demo_runtime
                               demo_path_args demo_more_world
                               (mkWorld ["scenarios.csv"] demo_more_fields)
                               demo_scenarios_out);
    reflexivity.
Defined.

Lemma pwc_infile_area_int64_example :
  Forall is_int64 (ints [900; 2700]%Z).
Proof.
  apply (pwc_infile_area_int64
           (demo_config demo_more_files) demo_runtime demo_parent_args demo_more_world
           (mkWorld ["07_parent.txt"] demo_more_fields) demo_parent_out);
    reflexivity.
Defined.

(** X26.  When [in_file] is given, [pwc_outfile] does not look at the
    region, the class number, the class name or the koc: the file named is
    the one read. *)
Theorem pwc_outfile_in_file_overrides :
  forall (cfg : Config) (region region' class_num class_num' : option string)
         (class_name class_name' koc koc' : option string) (preprocessed : bool)
         (in_file : string) (w : World),
    pwc_outfile cfg (mkOutfileArgs region class_num class_name koc preprocessed
                                   (Some in_file)) w
    = pwc_outfile cfg (mkOutfileArgs region' class_num' class_name' koc' preprocessed
                                     (Some in_file)) w.
Proof.
  intros. unfold pwc_outfile. rewrite !test_path_run. reflexivity.
Qed.

(** The table muaggatt of Iowa in the example. *)
Lemma ssurgo_columns_example :
  exists out,
    fst (ssurgo (demo_config demo_more_files) "IA" "muaggatt" demo_more_world) = Ok out
    /\ (forall c, In c (names out) <-> In c ["mukey"; "hydgrpdcd"])
    /\ NoDup (names out)
    /\ well_formed out = true.
Proof.
  exists demo_muaggatt. split; [reflexivity |].
  apply (proj2 (ssurgo_columns (demo_config demo_more_files) "IA" "muaggatt"
                               demo_more_world)).
  reflexivity.
Defined.

(* ===================================================================== *)
(** * [combinations] and [crop]: when they return, what they read         *)
(* ===================================================================== *)

(** X27.  [combinations] returns a table as soon as there is a year and
    the table of every year can be built (its file can be read as unsigned
    32 bit integers and holds the five columns of the header); the files
    have then been read in the order of the years. *)
Theorem combinations_returns :
  forall (cfg : Config) (region : string) (years : list Z) (nrows_opt : option nat)
         (w : World),
    years <> [] ->
    Forall (fun y => exists t, year_result cfg region nrows_opt y = Ok t) years ->
    exists out,
      combinations cfg region years nrows_opt w
      = (Ok (Some out),
         mkWorld (reads w ++ map (combo_path cfg region) years) (fields w)).
Proof.
  intros cfg region years nrows_opt w NE F.
  destruct (map_m_years_run cfg region nrows_opt years w F) as [ts E].
  unfold combinations. rewrite combinations_loop. unfold bind. rewrite E. unfold ret.
  apply map_m_years_Ok in E. destruct E as [_ F2]. apply Forall2_length in F2.
  destruct ts as [| t ts].
  - destruct years; [congruence | discriminate].
  - cbn [fold_left]. unfold stack_step at 2.
    destruct (fold_stack_Some ts t) as [out ->]. eauto.
Qed.

Lemma reads_in_order_for_each {A S : Type} (body : A -> S -> M S) (l : list A) (s : S) :
  (forall x s, reads_in_order [] (body x s)) -> reads_in_order [] (for_each l body s).
Proof.
  intros H. revert s. induction l as [| x l IH]; intros s; cbn [for_each].
  - apply reads_in_order_ret.
  - change (@nil string) with (@nil string ++ []).
    apply reads_in_order_bind; [apply H | exact IH].
Qed.

Lemma reads_in_order_read_fields (cfg : Config) (path item col : string) :
  reads_in_order [path] (read_fields cfg path item col).
Proof.
  unfold read_fields. change [path] with ([] ++ [path]).
  apply reads_in_order_bind; [apply reads_in_order_get_fields | intros f].
  apply reads_in_order_read_csv.
Qed.

Lemma reads_in_order_convert_date (field : string) (crop_dates : DataFrame) :
  reads_in_order [] (convert_date field crop_dates).
Proof.
  unfold convert_date. change (@nil string) with (@nil string ++ []).
  apply reads_in_order_bind; [apply reads_in_order_lift | intros _].
  apply reads_in_order_raise.
Qed.

(** X28.  [crop] reads the crop groups, the crop parameters, the crop
    dates, the irrigation table and the curve numbers, in this order, and
    no other file; when it returns it has read all five. *)
Theorem crop_read_order :
  forall (cfg : Config) (region : string),
    reads_in_order [crop_group_path cfg; crop_params_path cfg; crop_dates_path cfg;
                    irrigation_path cfg; gen_params_path cfg]
                   (crop cfg region).
Proof.
  intros cfg region. unfold crop.
  change [crop_group_path cfg; crop_params_path cfg; crop_dates_path cfg;
          irrigation_path cfg; gen_params_path cfg]
    with ([] ++ [crop_group_path cfg] ++ [crop_params_path cfg] ++ [crop_dates_path cfg]
          ++ [] ++ [] ++ [] ++ [irrigation_path cfg] ++ [gen_params_path cfg]
          ++ [] ++ [] ++ [] ++ [] ++ [] ++ [] ++ [] ++ []).
  apply reads_in_order_bind; [apply reads_in_order_refresh | intros _].
  apply reads_in_order_bind; [apply reads_in_order_read_fields | intros crop_index].
  apply reads_in_order_bind; [apply reads_in_order_read_fields | intros crop_params].
  apply reads_in_order_bind; [apply reads_in_order_read_fields | intros crop_dates].
  apply reads_in_order_bind; [apply reads_in_order_get_fields | intros f].
  apply reads_in_order_bind;
    [apply reads_in_order_for_each; intros; apply reads_in_order_convert_date
    | intros crop_dates'].
  apply reads_in_order_bind; [apply reads_in_order_lift | intros adjusted_dates].
  apply reads_in_order_bind; [apply reads_in_order_read_fields | intros irrigation_data].
  apply reads_in_order_bind; [apply reads_in_order_read_fields | intros group_params].
  do 7 (apply reads_in_order_bind; [apply reads_in_order_lift | intros ?]).
  apply reads_in_order_ret.
Qed.

Lemma combinations_returns_example :
  exists out,
    combinations (demo_config demo_more_files) "07" [2015; 2016]%Z None demo_more_world
    = (Ok (Some out),
       mkWorld ([] ++ map (combo_path (demo_config demo_more_files) "07") [2015; 2016]%Z)
               demo_more_fields).
Proof.
  apply (combinations_returns (demo_config demo_more_files) "07" [2015; 2016]%Z None
                              demo_more_world).
  - discriminate.
  - repeat constructor; eexists; reflexivity.
Defined.
